(** * Blocker detection and bubble-reply routing: a shallow embedding

    The TypeScript sources embedded here are

    - the blocker detector ([detectBlocker], [extractBlockerReason],
      [isLikelyListItem], [hasCompletionSignal], [checkEventsForBlocker]),
    - the Level 2 / Level 3 wrappers around the judgment oracle
      ([assessBlocker], [askDyDoForIntervention],
      [checkForRealtimeIntervention]),
    - the planning-request builder ([buildPlanningRequest]) and the
      directive markers ([isClaudeCodeResponse],
      [extractClaudeCodeResponse]),
    - the Telegram bubble-reply router ([handleBubbleReply],
      [parseResumeTokenFromMessage]) and the inline-keyboard callbacks
      ([parseClaudeCallback], [handleClaudeCodeCallback],
      [isClaudeCodeCallback]), and
    - the bubble check of the Telegram message processor
      ([createTelegramMessageProcessor]).

    JavaScript strings are sequences of UTF-16 code units, and the
    regular expressions of the sources (none carries the [u] flag) work
    on code units; a string is therefore a [list N]. *)

From Stdlib Require Import NArith ZArith Bool String Ascii Lia List.
From Stdlib Require QArith DecimalString.
Import ListNotations.

Set Implicit Arguments.

(** ** JavaScript strings *)

Module JS.

Definition str := list N.

(** An ASCII literal as a JavaScript string. *)
Definition u (s : string) : str := map N_of_ascii (list_ascii_of_string s).

Fixpoint str_eqb (a b : str) : bool :=
  match a, b with
  | [], [] => true
  | x :: a', y :: b' => N.eqb x y && str_eqb a' b'
  | _, _ => false
  end.

(** [String.prototype.startsWith]. *)
Fixpoint startsWith (s p : str) {struct p} : bool :=
  match p with
  | [] => true
  | x :: p' =>
      match s with
      | [] => false
      | y :: s' => N.eqb x y && startsWith s' p'
      end
  end.

(** [String.prototype.includes]. *)
Fixpoint includes (s p : str) : bool :=
  startsWith s p ||
  match s with
  | [] => false
  | _ :: s' => includes s' p
  end.

(** [String.prototype.endsWith], on the reversed strings. *)
Definition endsWith (s p : str) : bool := startsWith (rev s) (rev p).

(** [s.slice(0, n)] for [0 <= n]. *)
Definition slice0 (n : nat) (s : str) : str := firstn n s.

(** [WhiteSpace] and [LineTerminator] code units: what [trim] strips and
    what the class escape [\s] matches. *)
Definition isSpace (c : N) : bool :=
  (((9 <=? c) && (c <=? 13)) || (c =? 32) || (c =? 160) || (c =? 5760)
   || ((8192 <=? c) && (c <=? 8202)) || (c =? 8232) || (c =? 8233)
   || (c =? 8239) || (c =? 8287) || (c =? 12288) || (c =? 65279))%N.

(** [LineTerminator] code units: what [.] refuses. *)
Definition isLineTerminator (c : N) : bool :=
  ((c =? 10) || (c =? 13) || (c =? 8232) || (c =? 8233))%N.

Fixpoint trimStart (s : str) : str :=
  match s with
  | c :: s' => if isSpace c then trimStart s' else s
  | [] => []
  end.

Definition trimEnd (s : str) : str := rev (trimStart (rev s)).

(** [String.prototype.trim]. *)
Definition trim (s : str) : str := trimEnd (trimStart s).

(** [s.split(sep)] for a one-unit separator string: the pieces between
    the occurrences of [sep]; the empty string gives one empty piece. *)
Fixpoint splitOn (sep : N) (s : str) : list str :=
  match s with
  | [] => [[]]
  | c :: s' =>
      if N.eqb c sep then [] :: splitOn sep s'
      else match splitOn sep s' with
           | piece :: rest => (c :: piece) :: rest
           | [] => [[c]]
           end
  end.

(** [xs.join(sep)]. *)
Fixpoint join (sep : str) (xs : list str) : str :=
  match xs with
  | [] => []
  | [x] => x
  | x :: rest => x ++ sep ++ join sep rest
  end.

(** [String.prototype.toLowerCase], unit by unit.  The sources only look
    for ASCII keywords in the result, so what matters is which units
    lower to ASCII letters: [A]-[Z], the Kelvin sign U+212A (to [k]) and
    U+0130 (to [i] followed by U+0307).  Every other unit lowers to
    units outside ASCII and is kept as it is. *)
Definition lowerUnit (c : N) : str :=
  (if (65 <=? c) && (c <=? 90) then [c + 32]
   else if c =? 8490 then [107]
   else if c =? 304 then [105; 775]
   else [c])%N.

Definition toLowerCase (s : str) : str := flat_map lowerUnit s.

(** Truthiness of a string value: non-empty. *)
Definition truthy (s : str) : bool :=
  match s with [] => false | _ :: _ => true end.

(** [xs.slice(-n)] on arrays, for an integer [n]: the last [n] elements
    when [0 < n]; since [-0] is [0], the whole array when [n = 0]; and
    [xs.slice(k)], which drops the first [k] elements, when [n = -k < 0]. *)
Definition sliceLast {A} (n : Z) (xs : list A) : list A :=
  if (0 <? n)%Z then skipn (List.length xs - Z.to_nat n) xs
  else skipn (Z.to_nat (- n)) xs.

End JS.

(** ** Regular expressions

    A backtracking matcher in continuation-passing style, after the
    matcher semantics of the language standard: alternatives are tried
    left to right, quantifiers are greedy or lazy, an iteration of a
    quantifier that has met its minimum and consumes nothing is refused,
    and the capture groups inside a quantified term are reset on every
    iteration. *)

Module Regex.
Import JS.

(** Members of a character class. *)
Inductive citem : Type :=
| CUnit (c : N)
| CRange (lo hi : N)
| CDigit
| CWhite
| CNonWhite.

Inductive re : Type :=
| Eps
| Chr (c : N)
| Dot
| Class (neg : bool) (items : list citem)
| Seq (a b : re)
| Alt (a b : re)
| Rep (mn : nat) (mx : option nat) (greedy : bool) (r : re)
| Group (n : nat) (r : re)
| Bol.

(** Captures: group number to captured text, most recent binding first. *)
Definition caps := list (nat * str).

Definition getCap (n : nat) (c : caps) : option str :=
  match find (fun p => Nat.eqb (fst p) n) c with
  | Some p => Some (snd p)
  | None => None
  end.

Definition dropCaps (ns : list nat) (c : caps) : caps :=
  filter (fun p => negb (existsb (Nat.eqb (fst p)) ns)) c.

Definition setCap (n : nat) (v : str) (c : caps) : caps :=
  (n, v) :: dropCaps [n] c.

Fixpoint groups (r : re) : list nat :=
  match r with
  | Seq a b | Alt a b => groups a ++ groups b
  | Rep _ _ _ r' => groups r'
  | Group n r' => n :: groups r'
  | _ => []
  end.

Definition orElse {A} (a b : option A) : option A :=
  match a with Some _ => a | None => b end.

Definition isAsciiLower (c : N) : bool := ((97 <=? c) && (c <=? 122))%N.
Definition isAsciiUpper (c : N) : bool := ((65 <=? c) && (c <=? 90))%N.

(** Canonicalisation under the [i] flag.  Without the [u] flag a unit
    outside ASCII never canonicalises to an ASCII unit, and the units
    outside ASCII that occur in the patterns of the sources have no case
    mapping, so upper-casing the ASCII letters is all the patterns can
    observe. *)
Definition canon (ic : bool) (c : N) : N :=
  if ic && isAsciiLower c then (c - 32)%N else c.

Definition toggleCase (c : N) : N :=
  if isAsciiLower c then (c - 32)%N
  else if isAsciiUpper c then (c + 32)%N else c.

Definition inRange (lo hi c : N) : bool := ((lo <=? c) && (c <=? hi))%N.

Definition itemMatches (ic : bool) (ch : N) (it : citem) : bool :=
  match it with
  | CUnit a => N.eqb (canon ic a) (canon ic ch)
  | CRange lo hi => inRange lo hi ch || (ic && inRange lo hi (toggleCase ch))
  | CDigit => inRange 48 57 ch
  | CWhite => isSpace ch
  | CNonWhite => negb (isSpace ch)
  end.

Definition inClass (ic : bool) (items : list citem) (ch : N) : bool :=
  existsb (itemMatches ic ch) items.

(** What a successful match reports: end position, text left, captures. *)
Definition outcome : Type := nat * str * caps.
Definition cont : Type := nat -> str -> caps -> option outcome.

Definition maxIsZero (mx : option nat) : bool :=
  match mx with Some O => true | _ => false end.

(** The iterations of a quantified term whose single iteration is
    [body].  [mn] and [mx] are the iterations still required and still
    allowed; [fuel] bounds the iterations that remain and is never
    exhausted when it starts above [mn] plus the length of the text
    (lemma [repLoop_fuel] below). *)
Fixpoint repLoop (body : nat -> str -> caps -> cont -> option outcome)
    (inner : list nat) (greedy : bool) (k : cont)
    (fuel mn : nat) (mx : option nat) (pos : nat) (s : str) (c : caps)
    {struct fuel} : option outcome :=
  match fuel with
  | O => None
  | S fuel' =>
      if maxIsZero mx then k pos s c
      else
        let again :=
          body pos s (dropCaps inner c)
            (fun pos' s' c' =>
               if Nat.eqb mn 0 && Nat.eqb (List.length s') (List.length s)
               then None
               else repLoop body inner greedy k fuel' (pred mn) (option_map pred mx)
                      pos' s' c') in
        if Nat.ltb 0 mn then again
        else if greedy then orElse again (k pos s c)
             else orElse (k pos s c) again
  end.

Section Matcher.
Variable ic : bool.

Fixpoint m (r : re) (pos : nat) (s : str) (c : caps) (k : cont) {struct r}
  : option outcome :=
  match r with
  | Eps => k pos s c
  | Chr a =>
      match s with
      | ch :: s' => if N.eqb (canon ic ch) (canon ic a) then k (S pos) s' c else None
      | [] => None
      end
  | Dot =>
      match s with
      | ch :: s' => if isLineTerminator ch then None else k (S pos) s' c
      | [] => None
      end
  | Class neg items =>
      match s with
      | ch :: s' => if xorb neg (inClass ic items ch) then k (S pos) s' c else None
      | [] => None
      end
  | Seq a b => m a pos s c (fun pos' s' c' => m b pos' s' c' k)
  | Alt a b => orElse (m a pos s c k) (m b pos s c k)
  | Rep mn mx g r' =>
      repLoop (m r') (groups r') g k (mn + List.length s + 1) mn mx pos s c
  | Group n r' =>
      m r' pos s c
        (fun pos' s' c' =>
           k pos' s' (setCap n (firstn (List.length s - List.length s') s) c'))
  | Bol => if Nat.eqb pos 0 then k pos s c else None
  end.

Definition done : cont := fun pos s c => Some (pos, s, c).

(** One attempt at position [pos], where [s] is the text from [pos] on. *)
Definition matchAt (r : re) (pos : nat) (s : str) : option outcome :=
  m r pos s [] done.

End Matcher.

(** A regular-expression literal: its source text, its syntax tree and
    its [i] flag. *)
Record regex : Type := mkRegex {
  source : str;
  ast : re;
  ignoreCase : bool
}.

(** The result array of [exec]: where the match starts, element 0 and
    the captured groups. *)
Record MatchResult : Type := mkMatch {
  index : nat;
  matched : str;
  captures : caps
}.

(** The search of [exec] from position [pos]: the leftmost position at
    which the matcher succeeds. *)
Fixpoint execFrom (rx : regex) (pos : nat) (s : str) : option MatchResult :=
  match matchAt (ignoreCase rx) (ast rx) pos s with
  | Some (e, _, c) => Some (mkMatch pos (firstn (e - pos) s) c)
  | None =>
      match s with
      | [] => None
      | _ :: s' => execFrom rx (S pos) s'
      end
  end.

(** [rx.exec(s)] and [s.match(rx)] for a pattern without the [g] flag. *)
Definition exec (rx : regex) (s : str) : option MatchResult := execFrom rx 0 s.

(** [rx.test(s)]. *)
Definition test (rx : regex) (s : str) : bool :=
  match exec rx s with Some _ => true | None => false end.

(** [match[n]] of a result array: [None] is [undefined]. *)
Definition group (n : nat) (mr : MatchResult) : option str :=
  getCap n (captures mr).

(** [s.replace(rx, rep)] for a pattern with the [g] flag and a
    replacement text without [$] patterns: the matches are found left to
    right, each search starting where the previous match ended (one unit
    further after an empty match). *)
Fixpoint replaceAllFrom (fuel : nat) (rx : regex) (rep : str) (pos : nat) (s : str)
  : str :=
  match fuel with
  | O => s
  | S fuel' =>
      match execFrom rx pos s with
      | None => s
      | Some mr =>
          let before := firstn (index mr - pos) s in
          match matched mr with
          | [] =>
              match skipn (index mr - pos) s with
              | [] => before ++ rep
              | ch :: rest =>
                  before ++ rep ++ ch :: replaceAllFrom fuel' rx rep (S (index mr)) rest
              end
          | _ :: _ =>
              let e := index mr + List.length (matched mr) in
              before ++ rep ++ replaceAllFrom fuel' rx rep e (skipn (e - pos) s)
          end
      end
  end.

Definition replaceAll (rx : regex) (rep : str) (s : str) : str :=
  replaceAllFrom (S (List.length s)) rx rep 0 s.

(** [s.split(rx)] for a pattern without capture groups.  [cur] holds, in
    reverse, the units of the piece being collected; [s] is the text
    from position [pos] on.  At each position the matcher is tried once;
    a match that is empty at the start of the piece is skipped. *)
Fixpoint splitFrom (fuel : nat) (rx : regex) (pos : nat) (cur : str) (s : str)
  : list str :=
  match fuel with
  | O => [rev cur ++ s]
  | S fuel' =>
      match s with
      | [] => [rev cur]
      | ch :: s' =>
          match matchAt (ignoreCase rx) (ast rx) pos s with
          | Some (e, _, _) =>
              if Nat.eqb e pos && negb (truthy cur)
              then splitFrom fuel' rx (S pos) (ch :: cur) s'
              else rev cur :: splitFrom fuel' rx e [] (skipn (e - pos) s)
          | None => splitFrom fuel' rx (S pos) (ch :: cur) s'
          end
      end
  end.

Definition split (rx : regex) (s : str) : list str :=
  match s with
  | [] =>
      match matchAt (ignoreCase rx) (ast rx) 0 [] with
      | Some _ => []
      | None => [[]]
      end
  | _ :: _ => splitFrom (2 * List.length s + 1) rx 0 [] s
  end.

(** *** Building syntax trees *)

Fixpoint lits (s : str) : re :=
  match s with
  | [] => Eps
  | [c] => Chr c
  | c :: s' => Seq (Chr c) (lits s')
  end.

Definition lit (s : string) : re := lits (u s).

Fixpoint seqs (rs : list re) : re :=
  match rs with
  | [] => Eps
  | [r] => r
  | r :: rs' => Seq r (seqs rs')
  end.

Fixpoint alts (rs : list re) : re :=
  match rs with
  | [] => Eps
  | [r] => r
  | r :: rs' => Alt r (alts rs')
  end.

Definition opt (r : re) : re := Rep 0 (Some 1) true r.
Definition star (r : re) : re := Rep 0 None true r.
Definition lazyStar (r : re) : re := Rep 0 None false r.
Definition plus (r : re) : re := Rep 1 None true r.

End Regex.

(** ** Session events and blocker records ([types.ts]) *)

Module Types.
Import JS.

(** [SessionEvent]: [text] is optional. *)
Record SessionEvent : Type := mkEvent {
  type : str;
  text : option str;
  timestamp : Z
}.

(** The value of [extractedContext]: an object whose keys are kept in
    insertion order. *)
Definition Context : Type := list (str * str).

(** [ctx[field] = v]: overwrite in place, or add at the end. *)
Fixpoint setField (field v : str) (ctx : Context) : Context :=
  match ctx with
  | [] => [(field, v)]
  | (k, w) :: rest =>
      if str_eqb k field then (k, v) :: rest else (k, w) :: setField field v rest
  end.

Definition getField (field : str) (ctx : Context) : option str :=
  match find (fun p => str_eqb (fst p) field) ctx with
  | Some p => Some (snd p)
  | None => None
  end.

Record BlockerInfo : Type := mkBlocker {
  reason : str;
  lastMessage : str;
  matchedPatterns : list str;
  extractedContext : option Context
}.

End Types.

(** ** The blocker detector ([blocker-detector.ts]) *)

Module Detector.
Import JS Regex Types.

Definition uc (a : ascii) : N := N_of_ascii a.

Definition rxi (src : string) (r : re) : regex := mkRegex (u src) r true.
Definition rxs (src : string) (r : re) : regex := mkRegex (u src) r false.

Record Extractor : Type := mkExtractor {
  field : str;
  pattern : regex
}.

Record PatternCategory : Type := mkCategory {
  category : str;
  patterns : list regex;
  extractors : option (list Extractor)
}.

(** The class ['''] of the apostrophe patterns: both members are U+0027
    in the source file. *)
Definition apostrophe : re := Class false [CUnit (uc "'"); CUnit (uc "'")].

Definition digits : re := plus (Class false [CDigit]).

(** [\d+(?:\.\d+)?] *)
Definition amount : re := Seq digits (opt (Seq (Chr (uc ".")) digits)).

Definition waiting_for_user : PatternCategory :=
  mkCategory (u "waiting_for_user")
    [ rxi "let me know when" (lit "let me know when");
      rxi "once you['']ve" (seqs [lit "once you"; apostrophe; lit "ve"]);
      rxi "after you['']ve" (seqs [lit "after you"; apostrophe; lit "ve"]);
      rxi "when you['']re ready" (seqs [lit "when you"; apostrophe; lit "re ready"]);
      rxi "waiting for you" (lit "waiting for you");
      rxi "please (complete|finish|do|run|execute|claim|fund)"
        (seqs [lit "please ";
               Group 1 (alts [lit "complete"; lit "finish"; lit "do"; lit "run";
                              lit "execute"; lit "claim"; lit "fund"])]);
      rxi "you['']ll need to" (seqs [lit "you"; apostrophe; lit "ll need to"]);
      rxi "you need to" (lit "you need to");
      rxi "please let me know" (lit "please let me know") ]
    None.

Definition funding_needed : PatternCategory :=
  mkCategory (u "funding_needed")
    [ rxi "need(s|ed)? (more )?(sol|funds|funding|balance)"
        (seqs [lit "need"; opt (Group 1 (alts [lit "s"; lit "ed"])); lit " ";
               opt (Group 2 (lit "more "));
               Group 3 (alts [lit "sol"; lit "funds"; lit "funding"; lit "balance"])]);
      rxi "insufficient (sol|balance|funds)"
        (seqs [lit "insufficient ";
               Group 1 (alts [lit "sol"; lit "balance"; lit "funds"])]);
      rxi "airdrop (failed|rate.?limit)"
        (seqs [lit "airdrop ";
               Group 1 (alts [lit "failed"; seqs [lit "rate"; opt Dot; lit "limit"]])]);
      rxi "faucet" (lit "faucet");
      rxi "claim (sol|tokens)"
        (seqs [lit "claim "; Group 1 (alts [lit "sol"; lit "tokens"])]) ]
    (Some
       [ mkExtractor (u "wallet")
           (rxs "([1-9A-HJ-NP-Za-km-z]{32,44})"
              (Group 1
                 (Rep 32 (Some 44) true
                    (Class false
                       [CRange (uc "1") (uc "9"); CRange (uc "A") (uc "H");
                        CRange (uc "J") (uc "N"); CRange (uc "P") (uc "Z");
                        CRange (uc "a") (uc "k"); CRange (uc "m") (uc "z")]))));
         mkExtractor (u "needed")
           (rxi "need(?:s|ed)?\s+(\d+(?:\.\d+)?)\s*sol"
              (seqs [lit "need"; opt (alts [lit "s"; lit "ed"]);
                     plus (Class false [CWhite]); Group 1 amount;
                     star (Class false [CWhite]); lit "sol"]));
         mkExtractor (u "current")
           (rxi "(?:current|balance)[:\s]+(\d+(?:\.\d+)?)\s*sol"
              (seqs [alts [lit "current"; lit "balance"];
                     plus (Class false [CUnit (uc ":"); CWhite]); Group 1 amount;
                     star (Class false [CWhite]); lit "sol"])) ]).

Definition external_action : PatternCategory :=
  mkCategory (u "external_action")
    [ rxi "manual(ly)?" (seqs [lit "manual"; opt (Group 1 (lit "ly"))]);
      rxi "browser" (lit "browser");
      rxi "captcha" (lit "captcha");
      rxi "verification" (lit "verification");
      rxi "authenticate" (lit "authenticate");
      rxi "2fa|two.?factor"
        (alts [lit "2fa"; seqs [lit "two"; opt Dot; lit "factor"]]) ]
    None.

Definition rate_limited : PatternCategory :=
  mkCategory (u "rate_limited")
    [ rxi "rate.?limit" (seqs [lit "rate"; opt Dot; lit "limit"]);
      rxi "too many requests" (lit "too many requests");
      rxi "try again (later|in)"
        (seqs [lit "try again "; Group 1 (alts [lit "later"; lit "in"])]);
      rxi "cooldown" (lit "cooldown");
      rxi "quota" (lit "quota") ]
    None.

Definition permission_needed : PatternCategory :=
  mkCategory (u "permission_needed")
    [ rxi "permission denied" (lit "permission denied");
      rxi "access denied" (lit "access denied");
      rxi "unauthorized" (lit "unauthorized");
      rxi "need(s)? (permission|access|credentials)"
        (seqs [lit "need"; opt (Group 1 (lit "s")); lit " ";
               Group 2 (alts [lit "permission"; lit "access"; lit "credentials"])]) ]
    None.

Definition BLOCKER_PATTERNS : list PatternCategory :=
  [waiting_for_user; funding_needed; external_action; rate_limited;
   permission_needed].

(** *** The pre-filter of [detectBlocker] *)

(** [/```[\s\S]*?```/g] *)
Definition codeFence : regex :=
  rxs "```[\s\S]*?```"
    (seqs [lit "```"; lazyStar (Class false [CWhite; CNonWhite]); lit "```"]).

Definition newline : N := 10%N.

(** The predicate of the line filter: keep a line unless it starts,
    once trimmed, with a bar or contains a separator row. *)
Definition keepLine (line : str) : bool :=
  negb (startsWith (trim line) (u "|")) && negb (includes line (u "|---")).

Definition preFilter (text : str) : str :=
  let cleanText := replaceAll codeFence [] text in
  join [newline] (filter keepLine (splitOn newline cleanText)).

(** *** The pattern loop of [detectBlocker] *)

(** The three locals the loop updates. *)
Record Scan : Type := mkScan {
  scanMatched : list str;
  scanPrimary : option str;
  scanContext : Context
}.

Definition emptyScan : Scan := mkScan [] None [].

(** [if (match && match[1]) extractedContext[field] = match[1]] *)
Definition runExtractor (text : str) (ctx : Context) (ex : Extractor) : Context :=
  match exec (pattern ex) text with
  | Some mr =>
      match group 1 mr with
      | Some v => if truthy v then setField (field ex) v ctx else ctx
      | None => ctx
      end
  | None => ctx
  end.

Definition stepPattern (text : str) (cat : PatternCategory) (st : Scan) (p : regex)
  : Scan :=
  if test p text then
    mkScan
      (scanMatched st ++ [category cat ++ u ":" ++ source p])%list
      (match scanPrimary st with
       | Some c => if truthy c then Some c else Some (category cat)
       | None => Some (category cat)
       end)
      (match extractors cat with
       | Some exs => fold_left (runExtractor text) exs (scanContext st)
       | None => scanContext st
       end)
  else st.

Definition stepCategory (text : str) (st : Scan) (cat : PatternCategory) : Scan :=
  fold_left (stepPattern text cat) (patterns cat) st.

Definition scanPatterns (text : str) : Scan :=
  fold_left (stepCategory text) BLOCKER_PATTERNS emptyScan.

(** *** [extractBlockerReason] *)

(** [/[.!?\n]+/] *)
Definition sentenceSeparator : regex :=
  rxs "[.!?\n]+"
    (plus (Class false [CUnit (uc "."); CUnit (uc "!"); CUnit (uc "?"); CUnit newline])).

Definition hasBlockerKeyword (lower : str) : bool :=
  includes lower (u "need") || includes lower (u "wait")
  || includes lower (u "please") || includes lower (u "blocked")
  || includes lower (u "failed").

(** The [switch] on the category. *)
Definition cannedReason (category : option str) : str :=
  match category with
  | Some c =>
      if str_eqb c (u "funding_needed") then u "Insufficient funds - need additional SOL"
      else if str_eqb c (u "waiting_for_user") then u "Waiting for user action"
      else if str_eqb c (u "external_action") then u "Requires manual/browser action"
      else if str_eqb c (u "rate_limited") then u "Rate limited - need to wait"
      else if str_eqb c (u "permission_needed") then u "Permission or access needed"
      else u "Blocked - needs external intervention"
  | None => u "Blocked - needs external intervention"
  end.

Definition sentencesOf (text : str) : list str :=
  filter (fun s => Nat.ltb 10 (List.length (trim s))) (split sentenceSeparator text).

(** The sentence the [for] loop returns from: the first one whose
    lower-cased text holds a keyword. *)
Definition keywordSentence (text : str) : option str :=
  find (fun sentence => hasBlockerKeyword (toLowerCase sentence)) (sentencesOf text).

Definition extractBlockerReason (text : str) (category : option str) : str :=
  match keywordSentence text with
  | Some sentence =>
      let trimmed := trim sentence in
      if Nat.leb (List.length trimmed) 150 then trimmed
      else (slice0 147 trimmed ++ u "...")%list
  | None => cannedReason category
  end.

(** *** [detectBlocker] *)

Definition isFundingRelated (st : Scan) : bool :=
  match scanPrimary st with
  | Some c => str_eqb c (u "funding_needed")
  | None => false
  end.

Definition hasMultipleMatches (st : Scan) : bool :=
  Nat.leb 2 (List.length (scanMatched st)).

Definition isStrongSignal (sessionEnded : bool) (st : Scan) : bool :=
  sessionEnded || hasMultipleMatches st || isFundingRelated st.

Definition detectBlocker (text : str) (sessionEnded : bool) : option BlockerInfo :=
  if negb (truthy text) || Nat.ltb (List.length text) 20 then None
  else
    let text := preFilter text in
    let st := scanPatterns text in
    if Nat.eqb (List.length (scanMatched st)) 0 then None
    else if negb (isStrongSignal sessionEnded st) then None
    else
      Some (mkBlocker
              (extractBlockerReason text (scanPrimary st))
              text
              (scanMatched st)
              (match scanContext st with
               | [] => None
               | _ :: _ => Some (scanContext st)
               end)).

(** *** Completion signals and list items *)

Definition checkMark : N := 9989%N.   (* U+2705 *)
Definition tick : N := 10003%N.       (* U+2713 *)

Definition COMPLETION_SIGNALS : list regex :=
  [ mkRegex (checkMark :: u ".*ready") (seqs [Chr checkMark; star Dot; lit "ready"]) true;
    mkRegex (tick :: u ".*ready") (seqs [Chr tick; star Dot; lit "ready"]) true;
    rxi "all.*complete" (seqs [lit "all"; star Dot; lit "complete"]);
    rxi "finished" (lit "finished");
    rxi "done!" (lit "done!");
    rxi "successfully" (lit "successfully") ].

(** [/^[-*+]\s/] *)
Definition listMarker : regex :=
  rxs "^[-*+]\s"
    (seqs [Bol; Class false [CUnit (uc "-"); CUnit (uc "*"); CUnit (uc "+")];
           Class false [CWhite]]).

(** [/^\d+\.\s/] *)
Definition numberedMarker : regex :=
  rxs "^\d+\.\s" (seqs [Bol; digits; Chr (uc "."); Class false [CWhite]]).

(** [/^(Tasks?|Criteria|Signals?|Examples?|Quantitative|Qualitative).*:/i] *)
Definition listHeader : regex :=
  rxi "^(Tasks?|Criteria|Signals?|Examples?|Quantitative|Qualitative).*:"
    (seqs [Bol;
           Group 1 (alts [Seq (lit "Task") (opt (lit "s")); lit "Criteria";
                          Seq (lit "Signal") (opt (lit "s"));
                          Seq (lit "Example") (opt (lit "s"));
                          lit "Quantitative"; lit "Qualitative"]);
           star Dot; Chr (uc ":")]).

Definition isListLine (line : str) : bool :=
  let trimmed := trim line in
  test listMarker trimmed || test numberedMarker trimmed || test listHeader trimmed.

Definition isLikelyListItem (text : str) : bool :=
  existsb isListLine (splitOn newline text).

Definition hasCompletionSignal (text : str) : bool :=
  existsb (fun pattern => test pattern text) COMPLETION_SIGNALS.

(** *** [checkEventsForBlocker] *)

(** [e.type === "assistant_message" && e.text] *)
Definition isAssistantText (e : SessionEvent) : bool :=
  str_eqb (type e) (u "assistant_message")
  && match Types.text e with Some t => truthy t | None => false end.

Definition recentAssistantMessages (events : list SessionEvent) (lastNEvents : Z)
  : list SessionEvent :=
  sliceLast lastNEvents (filter isAssistantText events).

(** The test on the very last message. *)
Definition completionVeto (recent : list SessionEvent) : bool :=
  match rev recent with
  | lastMessage :: _ =>
      match Types.text lastMessage with
      | Some t => truthy t && hasCompletionSignal t
      | None => false
      end
  | [] => false
  end.

(** The [for] loop, over the messages most recent first. *)
Fixpoint scanEvents (evs : list SessionEvent) : option BlockerInfo :=
  match evs with
  | [] => None
  | event :: rest =>
      match Types.text event with
      | Some t =>
          if negb (truthy t) then scanEvents rest
          else if isLikelyListItem t then scanEvents rest
          else match detectBlocker t true with
               | Some blocker => Some blocker
               | None => scanEvents rest
               end
      | None => scanEvents rest
      end
  end.

Definition checkEventsForBlocker (events : list SessionEvent) (lastNEvents : Z)
  : option BlockerInfo :=
  let recent := recentAssistantMessages events lastNEvents in
  if completionVeto recent then None else scanEvents (rev recent).

(** The default of the parameter [lastNEvents]. *)
Definition defaultLastNEvents : Z := 2.

End Detector.

(** ** Text building shared by the prompt builders *)

Module Text.
Import JS.

(** The double-quote unit. *)
Definition dq : str := [34%N].

Definition ofNat (n : nat) : str := u (DecimalString.NilZero.string_of_uint (Nat.to_uint n)).

(** [String(n)] for an integral number [n]. *)
Definition ofZ (z : Z) : str := u (DecimalString.NilZero.string_of_int (Z.to_int z)).

(** A template hole filled with an optional string. *)
Definition orUndefined (o : option str) : str :=
  match o with Some s => s | None => u "undefined" end.

(** [a || b] on strings. *)
Definition orDefault (o : option str) (d : str) : str :=
  match o with
  | Some s => if truthy s then s else d
  | None => d
  end.

Definition hexDigit (n : N) : N := (if n <? 10 then 48 + n else 87 + n)%N.

Definition hex4 (c : N) : str :=
  [hexDigit (c / 4096 mod 16); hexDigit (c / 256 mod 16);
   hexDigit (c / 16 mod 16); hexDigit (c mod 16)]%N.

Definition isHighSurrogate (c : N) : bool := ((55296 <=? c) && (c <=? 56319))%N.
Definition isLowSurrogate (c : N) : bool := ((56320 <=? c) && (c <=? 57343))%N.

(** The body of a JSON string: the escapes of [JSON.stringify]. *)
Fixpoint jsonEscape (s : str) : str :=
  match s with
  | [] => []
  | c :: rest =>
      if N.eqb c 8 then u "\b" ++ jsonEscape rest
      else if N.eqb c 9 then u "\t" ++ jsonEscape rest
      else if N.eqb c 10 then u "\n" ++ jsonEscape rest
      else if N.eqb c 12 then u "\f" ++ jsonEscape rest
      else if N.eqb c 13 then u "\r" ++ jsonEscape rest
      else if N.eqb c 34 then u "\" ++ dq ++ jsonEscape rest
      else if N.eqb c 92 then u "\\" ++ jsonEscape rest
      else if N.ltb c 32 then u "\u" ++ hex4 c ++ jsonEscape rest
      else if isHighSurrogate c then
        match rest with
        | d :: rest' =>
            if isLowSurrogate d then c :: d :: jsonEscape rest'
            else u "\u" ++ hex4 c ++ jsonEscape rest
        | [] => u "\u" ++ hex4 c
        end
      else if isLowSurrogate c then u "\u" ++ hex4 c ++ jsonEscape rest
      else c :: jsonEscape rest
  end%list.

Definition jsonQuote (s : str) : str := (dq ++ jsonEscape s ++ dq)%list.

(** [JSON.stringify(ctx, null, 2)] for an object of string values. *)
Definition jsonStringify2 (ctx : Types.Context) : str :=
  match ctx with
  | [] => u "{}"
  | _ :: _ =>
      (u "{" ++ [10%N]
       ++ join (u "," ++ [10%N])
            (map (fun p => u "  " ++ jsonQuote (fst p) ++ u ": " ++ jsonQuote (snd p)) ctx)
       ++ [10%N] ++ u "}")%list
  end.

(** [xs.map((x, i) => f(x, i))] *)
Fixpoint mapi {A B} (f : A -> nat -> B) (i : nat) (xs : list A) : list B :=
  match xs with
  | [] => []
  | x :: rest => f x i :: mapi f (S i) rest
  end.

Definition lines (ls : list str) : str := join [10%N] ls.

End Text.

(** ** Level 2: the blocker assessor ([blocker-assessor.ts]) *)

(** An awaited call either returns or throws. *)
Inductive Outcome (A : Type) : Type :=
| Returned (a : A)
| Thrown (err : JS.str).
Arguments Returned {A} a.
Arguments Thrown {A} err.

Module Assessor.
Import JS Regex Types Text.

(** [BlockerAssessment]; the confidence is a decimal fraction. *)
Record BlockerAssessment : Type := mkAssessment {
  isRealBlocker : bool;
  confidence : QArith_base.Q;
  reasoning : str;
  canAutoHandle : option bool;
  autoResponse : option str
}.

Definition recentMessages (keep : Z) (cut : nat) (events : list SessionEvent) : str :=
  join ([10; 10]%N)
    (mapi (fun e i =>
             u "[" ++ ofNat (i + 1) ++ u "] "
             ++ orUndefined (option_map (slice0 cut) (Types.text e)) ++ u "...")%list
          0 (sliceLast keep (filter Detector.isAssistantText events))).

Definition assessmentTask : list str :=
  (([] : str) ::
   [ u "## Your Task";
     [];
     (u "You are DyDo, reviewing a Claude Code session that pattern matching flagged as " ++ dq ++ u "possibly blocked" ++ dq ++ u ".");
     [];
     u "**Analyze the context above and determine:**";
     [];
     u "1. **Is this a REAL blocker?**";
     u "   - Real blocker: Claude Code needs user/external intervention to continue";
     u "   - False positive: Pattern matching triggered on list items, examples, or completed tasks";
     [];
     u "2. **Confidence level (0.0 to 1.0)**";
     u "   - 0.9-1.0: Very confident in your judgment";
     u "   - 0.7-0.8: Confident but some uncertainty";
     u "   - 0.5-0.6: Uncertain, could go either way";
     u "   - 0.0-0.4: Low confidence";
     [];
     u "3. **Reasoning:** Why did you reach this conclusion?";
     [];
     u "4. **(Level 3) Can you handle this automatically?**";
     u "   - If yes, provide the response you'd send to Claude Code";
     [];
     u "**Respond in JSON format:**";
     u "```json";
     u "{";
     (u "  " ++ dq ++ u "isRealBlocker" ++ dq ++ u ": true/false,");
     (u "  " ++ dq ++ u "confidence" ++ dq ++ u ": 0.0-1.0,");
     (u "  " ++ dq ++ u "reasoning" ++ dq ++ u ": " ++ dq ++ u "Your analysis here" ++ dq ++ u ",");
     (u "  " ++ dq ++ u "canAutoHandle" ++ dq ++ u ": true/false,");
     (u "  " ++ dq ++ u "autoResponse" ++ dq ++ u ": " ++ dq ++ u "Your response to Claude Code (if canAutoHandle is true)" ++ dq);
     u "}";
     u "```";
     [] ])%list.

Definition buildContextSummary (blocker : BlockerInfo) (sessionEvents : list SessionEvent)
    (sessionStatus : str) : str :=
  let extractedCtx :=
    match extractedContext blocker with
    | Some ctx => ([10%N] ++ u "Extracted Context:" ++ [10%N] ++ jsonStringify2 ctx)%list
    | None => []
    end in
  trim
    (lines
       ([ [];
          u "## Blocker Detection Context";
          [];
          u "**Detected Reason:** " ++ reason blocker;
          u "**Matched Patterns:** " ++ join (u ", ") (matchedPatterns blocker);
          u "**Session Status:** " ++ sessionStatus ++ extractedCtx;
          [];
          u "**Recent Messages (last 10):**";
          recentMessages 10 500 sessionEvents ]
        ++ assessmentTask))%list.

Definition fallbackAssessment : BlockerAssessment :=
  mkAssessment true (QArith_base.Qmake 1 2)
    (u "Assessment failed, defaulting to pattern matching result") None None.

Section WithOracle.

(** The judgment oracle behind [invokeDyDoAssessment]. *)
Variable invokeDyDoAssessment : str -> Outcome BlockerAssessment.

(** [try { return await invokeDyDoAssessment(...) } catch { return fallback }] *)
Definition assessBlocker (blocker : BlockerInfo) (sessionEvents : list SessionEvent)
    (sessionStatus : str) : Outcome BlockerAssessment :=
  let contextSummary := buildContextSummary blocker sessionEvents sessionStatus in
  match invokeDyDoAssessment contextSummary with
  | Returned assessment => Returned assessment
  | Thrown _ => Returned fallbackAssessment
  end.

End WithOracle.

(** The placeholder the source wires in for the oracle: four heuristics
    on the context summary. *)
Definition heuristicCompletion : regex :=
  mkRegex (Detector.checkMark :: u ".*ready|all.*complete|finished|done!")
    (alts [seqs [Chr Detector.checkMark; star Dot; lit "ready"];
           seqs [lit "all"; star Dot; lit "complete"];
           lit "finished"; lit "done!"]) true.

Definition heuristicList : regex :=
  Detector.rxi "Tasks? where|Criteria|Signals?|Examples?|Quantitative|Qualitative"
    (alts [seqs [lit "Task"; opt (lit "s"); lit " where"]; lit "Criteria";
           Seq (lit "Signal") (opt (lit "s")); Seq (lit "Example") (opt (lit "s"));
           lit "Quantitative"; lit "Qualitative"]).

Definition heuristicFunding : regex :=
  Detector.rxi "need(s|ed)?\s+(\d+(?:\.\d+)?)\s*sol|insufficient.*balance"
    (alts [seqs [lit "need"; opt (Group 1 (alts [lit "s"; lit "ed"]));
                 plus (Class false [CWhite]); Group 2 Detector.amount;
                 star (Class false [CWhite]); lit "sol"];
           seqs [lit "insufficient"; star Dot; lit "balance"]]).

Definition invokeDyDoAssessment (contextSummary : str) : Outcome BlockerAssessment :=
  if test heuristicCompletion contextSummary then
    Returned (mkAssessment false (QArith_base.Qmake 9 10)
      (u "Detected completion signal (" ++ [Detector.checkMark]
       ++ u " ready / all complete). This is a false positive.")%list None None)
  else if test heuristicList contextSummary then
    Returned (mkAssessment false (QArith_base.Qmake 85 100)
      (u "Detected list/criteria context. The pattern match is likely from documentation or analysis, not a real blocker.")
      None None)
  else if test heuristicFunding contextSummary then
    Returned (mkAssessment true (QArith_base.Qmake 9 10)
      (u "Detected funding/balance issue. This is a real blocker.") None None)
  else
    Returned (mkAssessment true (QArith_base.Qmake 6 10)
      (u "Unable to determine with high confidence. Defaulting to real blocker (conservative).")
      None None).

End Assessor.

(** ** Level 3: the realtime interventor ([realtime-interventor.ts]) *)

Module Interventor.
Import JS Regex Types Text.

Record InterventionResult : Type := mkIntervention {
  intervened : bool;
  response : option str;
  reasoning : str
}.

Record InterventionDecision : Type := mkDecision {
  canHandle : bool;
  decisionResponse : option str;
  decisionReasoning : str
}.

Record SessionContext : Type := mkSessionContext {
  sessionId : str;
  projectName : str;
  recentEvents : list SessionEvent
}.

Definition interventionTask : list str :=
  (([] : str) ::
   [ u "## Your Task";
     [];
     u "You are DyDo, monitoring a Claude Code session in real-time. Claude Code appears to be waiting for something.";
     [];
     u "**Can you handle this automatically?**";
     [];
     u "Examples you CAN handle:";
     (u "- " ++ dq ++ u "Should I proceed with this change?" ++ dq ++ u " " ++ [8594%N] ++ u " " ++ dq ++ u "Yes, proceed" ++ dq);
     (u "- " ++ dq ++ u "Which approach do you prefer?" ++ dq ++ u " " ++ [8594%N] ++ u " Make a decision based on project context");
     (u "- " ++ dq ++ u "Do you want me to continue?" ++ dq ++ u " " ++ [8594%N] ++ u " " ++ dq ++ u "Yes, continue" ++ dq);
     [];
     u "Examples you CANNOT handle:";
     (u "- " ++ dq ++ u "You need to fund this wallet: 0x..." ++ dq ++ u " " ++ [8594%N] ++ u " User must do this");
     (u "- " ++ dq ++ u "The build failed, manual fix needed" ++ dq ++ u " " ++ [8594%N] ++ u " User must debug");
     (u "- " ++ dq ++ u "Rate limited, wait 5 minutes" ++ dq ++ u " " ++ [8594%N] ++ u " Must wait");
     [];
     u "**Respond in JSON:**";
     u "```json";
     u "{";
     (u "  " ++ dq ++ u "canHandle" ++ dq ++ u ": true/false,");
     (u "  " ++ dq ++ u "response" ++ dq ++ u ": " ++ dq ++ u "Your response to Claude Code (if canHandle is true)" ++ dq ++ u ",");
     (u "  " ++ dq ++ u "reasoning" ++ dq ++ u ": " ++ dq ++ u "Why you can/cannot handle this" ++ dq);
     u "}";
     u "```";
     [] ])%list.

Definition buildInterventionContext (blocker : BlockerInfo) (questionText : str)
    (sessionContext : SessionContext) : str :=
  trim
    (lines
       ([ [];
          u "## Real-Time Intervention Request";
          [];
          u "**Project:** " ++ projectName sessionContext;
          u "**Session ID:** " ++ sessionId sessionContext;
          [];
          u "**Claude Code just said:**";
          dq ++ questionText ++ dq;
          [];
          u "**Detected blocker pattern:** " ++ reason blocker;
          [];
          u "**Recent conversation (last 5 messages):**";
          Assessor.recentMessages 5 300 (recentEvents sessionContext) ]
        ++ interventionTask))%list.

Definition fallbackDecision : InterventionDecision :=
  mkDecision false None (u "Intervention assessment failed, escalating to user").

Section WithOracle.

(** The judgment oracle behind [invokeDyDoIntervention]. *)
Variable invokeDyDoIntervention : str -> Outcome InterventionDecision.

(** [try { return await invokeDyDoIntervention(...) } catch { return fallback }] *)
Definition askDyDoForIntervention (blocker : BlockerInfo) (questionText : str)
    (sessionContext : SessionContext) : Outcome InterventionDecision :=
  let contextSummary := buildInterventionContext blocker questionText sessionContext in
  match invokeDyDoIntervention contextSummary with
  | Returned decision => Returned decision
  | Thrown _ => Returned fallbackDecision
  end.

Definition checkForRealtimeIntervention (event : SessionEvent)
    (sessionContext : SessionContext) : Outcome InterventionResult :=
  match Types.text event with
  | Some text =>
      if negb (str_eqb (type event) (u "assistant_message")) || negb (truthy text) then
        Returned (mkIntervention false None (u "Not an assistant message"))
      else
        match Detector.detectBlocker text false with
        | None => Returned (mkIntervention false None (u "No blocker pattern detected"))
        | Some suspectedBlocker =>
            match askDyDoForIntervention suspectedBlocker text sessionContext with
            | Thrown err => Thrown err
            | Returned intervention =>
                if canHandle intervention
                   && match decisionResponse intervention with
                      | Some r => truthy r
                      | None => false
                      end
                then Returned (mkIntervention true (decisionResponse intervention)
                                 (decisionReasoning intervention))
                else Returned (mkIntervention false None
                                 (decisionReasoning intervention))
            end
        end
  | None => Returned (mkIntervention false None (u "Not an assistant message"))
  end.

End WithOracle.

(** The placeholder the source wires in for the oracle. *)
Definition yesNoQuestion : regex :=
  Detector.rxi "should i proceed|do you want|shall i continue"
    (alts [lit "should i proceed"; lit "do you want"; lit "shall i continue"]).

Definition fundingIssue : regex :=
  Detector.rxi "fund|wallet|balance|sol"
    (alts [lit "fund"; lit "wallet"; lit "balance"; lit "sol"]).

Definition invokeDyDoIntervention (contextSummary : str) : Outcome InterventionDecision :=
  if test yesNoQuestion contextSummary then
    Returned (mkDecision true (Some (u "Yes, please proceed."))
                (u "Simple yes/no question - DyDo can approve"))
  else if test fundingIssue contextSummary then
    Returned (mkDecision false None (u "Funding issue requires user action"))
  else
    Returned (mkDecision false None (u "Uncertain - escalating to user for safety")).

End Interventor.

(** ** The planning-request builder ([planning-request.ts]) *)

Module Planning.
Import JS Text.

Inductive Action : Type := Start | Resume.

Record ChatContext : Type := mkChatContext {
  chatId : str;
  threadId : option Z;
  accountId : option str;
  forcedResumeToken : option str
}.

Record PlanningRequestParams : Type := mkParams {
  action : Action;
  project : str;
  task : option str;
  resumeToken : option str;
  worktree : option str;
  quick : option bool;
  chatContext : option ChatContext
}.

(** Truthiness of an optional number: defined and not zero. *)
Definition truthyNum (o : option Z) : option Z :=
  match o with
  | Some z => if Z.eqb z 0 then None else Some z
  | None => None
  end.

Definition truthyStr (o : option str) : option str :=
  match o with
  | Some s => if truthy s then Some s else None
  | None => None
  end.

Definition projectSpec (params : PlanningRequestParams) : str :=
  match truthyStr (worktree params) with
  | Some w => (project params ++ u " @" ++ w)%list
  | None => project params
  end.

Definition buildQuickStartRequest (params : PlanningRequestParams) : str :=
  lines
    [ u "[Claude Code Quick Start]";
      [];
      u "Project: " ++ projectSpec params;
      u "Task: " ++ orDefault (task params) (u "Continue working");
      [];
      u "Start a Claude Code session immediately with this task.";
      u "Use the claude_code_start tool with the task as the prompt." ]%list.

Definition buildResumeRequest (params : PlanningRequestParams) : str :=
  let token := orUndefined (resumeToken params) in
  lines
    ([ u "[Claude Code Resume Request]";
       [];
       u "**CRITICAL RULES:**";
       u "1. You MUST call `claude_code_start` tool immediately";
       u "2. You MUST use EXACTLY this resumeToken: " ++ dq ++ token ++ dq;
       u "3. Do NOT respond with text messages";
       [];
       u "Project: " ++ orDefault (Some (project params)) (u "(from token)");
       u "User said: " ++ dq ++ orDefault (task params) (u "continue") ++ dq;
       [];
       u "## Required Tool Call";
       u "Call `claude_code_start` with these EXACT values:";
       u "- project: " ++ dq ++ project params ++ dq;
       u "- resumeToken: " ++ dq ++ token ++ dq ++ u " " ++ [8592%N]
         ++ u " MUST USE THIS EXACT TOKEN";
       u "- prompt: <add project context to user's request>" ]
     ++ match chatContext params with
        | Some cc =>
            (u "- chatId: " ++ dq ++ chatId cc ++ dq)
            :: match truthyNum (threadId cc) with
               | Some t => [u "- threadId: " ++ ofZ t]
               | None => []
               end
        | None => []
        end
     ++ [ [];
          u "**WARNING:** If you omit resumeToken or use a different value, it will start a NEW session instead of resuming. The user wants to CONTINUE their existing session." ])%list.

(** [task.replace(/"/g, '\\"')] *)
Definition escapeQuotes (s : str) : str :=
  flat_map (fun c => if N.eqb c 34 then [92; 34]%N else [c]) s.

Definition buildFullPlanningRequest (params : PlanningRequestParams) : str :=
  match truthyStr (task params) with
  | None =>
      lines
        [ u "[Claude Code Request]";
          u "Project: " ++ projectSpec params;
          [];
          u "User wants to start a Claude Code session but didn't specify a task.";
          u "Ask them what they want to work on." ]%list
  | Some task =>
      lines
        ([ u "[Claude Code Start Request]";
           [];
           u "**CRITICAL: You MUST call the `claude_code_start` tool. Do NOT respond with text messages.**";
           [];
           u "Project: " ++ projectSpec params;
           u "User said: " ++ dq ++ task ++ dq;
           [];
           u "## Your Task";
           u "1. BRIEFLY check project context (use `project_context` tool)";
           u "2. Call `claude_code_start` with enriched instructions";
           [];
           u "## Tool Call (REQUIRED)";
           u "```";
           u "claude_code_start({";
           u "  project: " ++ dq ++ project params ++ dq ++ u "," ]
         ++ match truthyStr (worktree params) with
            | Some w => [u "  worktree: " ++ dq ++ w ++ dq ++ u ","]
            | None => []
            end
         ++ [ u "  prompt: " ++ dq ++ u "<ENRICHED INSTRUCTIONS - add project context>"
                ++ dq ++ u ",";
              u "  originalTask: " ++ dq ++ escapeQuotes task ++ dq ++ u "," ]
         ++ match chatContext params with
            | Some cc =>
                [u "  chatId: " ++ dq ++ chatId cc ++ dq ++ u ","]
                ++ match truthyNum (threadId cc) with
                   | Some t => [u "  threadId: " ++ ofZ t ++ u ","]
                   | None => []
                   end
                ++ match truthyStr (accountId cc) with
                   | Some a => [u "  accountId: " ++ dq ++ a ++ dq ++ u ","]
                   | None => []
                   end
            | None => []
            end
         ++ [ u "})";
              u "```";
              [];
              u "**Rules:**";
              u "- DO NOT respond with text messages - call the tool";
              u "- Add context from project (phase, blockers, etc.) to the prompt";
              u "- Only ask clarifying question if TRULY ambiguous (rarely needed)" ])%list
  end.

Definition buildPlanningRequest (params : PlanningRequestParams) : str :=
  match quick params with
  | Some true => buildQuickStartRequest params
  | _ =>
      match action params with
      | Resume => buildResumeRequest params
      | Start => buildFullPlanningRequest params
      end
  end.

End Planning.

(** ** The bubble-reply router ([claude-callbacks.ts]) *)

Module Router.
Import JS Regex Text Planning.

(** [/claude --resume ([a-f0-9-]{36})/] *)
Definition resumeHint : regex :=
  Detector.rxs "claude --resume ([a-f0-9-]{36})"
    (seqs [lit "claude --resume ";
           Group 1
             (Rep 36 (Some 36) true
                (Class false
                   [CRange (Detector.uc "a") (Detector.uc "f");
                    CRange (Detector.uc "0") (Detector.uc "9");
                    CUnit (Detector.uc "-")]))]).

(** [/ctx:\s*([^\n]+)/] *)
Definition ctxHint : regex :=
  Detector.rxs "ctx:\s*([^\n]+)"
    (seqs [lit "ctx:"; star (Class false [CWhite]);
           Group 1 (plus (Class true [CUnit 10%N]))]).

(** The delimiter of the status header, U+8DEF in the source file. *)
Definition delimiter : N := 36335%N.

(** [/\*\*(?:working|done)\*\*\s*D\s*([^D]+)\s*D/], [D] the delimiter. *)
Definition headerHint : regex :=
  mkRegex
    (u "\*\*(?:working|done)\*\*\s*" ++ [delimiter] ++ u "\s*([^" ++ [delimiter]
     ++ u "]+)\s*" ++ [delimiter])%list
    (seqs [lit "**"; alts [lit "working"; lit "done"]; lit "**";
           star (Class false [CWhite]); Chr delimiter; star (Class false [CWhite]);
           Group 1 (plus (Class true [CUnit delimiter]));
           star (Class false [CWhite]); Chr delimiter])
    false.

Record ResumeInfo : Type := mkResumeInfo {
  infoResumeToken : str;
  infoProjectName : str
}.

(** Group 1 takes part in every match of the three patterns, so
    [match[1]] is always a string here. *)
Definition parseResumeTokenFromMessage (messageText : option str) : option ResumeInfo :=
  match messageText with
  | None => None
  | Some messageText =>
      if negb (truthy messageText) then None
      else
        match exec resumeHint messageText with
        | None => None
        | Some resumeMatch =>
            let resumeToken := orUndefined (group 1 resumeMatch) in
            let projectName :=
              match exec ctxHint messageText with
              | Some ctxMatch => trim (orUndefined (group 1 ctxMatch))
              | None =>
                  match exec headerHint messageText with
                  | Some headerMatch => trim (orUndefined (group 1 headerMatch))
                  | None => u "unknown"
                  end
              end in
            Some (mkResumeInfo resumeToken projectName)
        end
  end.

(** [chatId: number | string] *)
Inductive ChatId : Type :=
| ChatNum (n : Z)
| ChatStr (s : str).

(** [String(chatId)] *)
Definition chatIdString (c : ChatId) : str :=
  match c with
  | ChatNum n => ofZ n
  | ChatStr s => s
  end.

Record Bubble : Type := mkBubble {
  resumeToken : str;
  projectName : str;
  workingDir : str;
  bubbleThreadId : option Z
}.

Record BubbleInfo : Type := mkBubbleInfo {
  sessionId : str;
  bubble : Bubble
}.

Inductive HandleBubbleReplyResult : Type :=
| not_bubble_reply
| handled_directly
| route_to_dydo (orchestrationText : str).

(** What a call of [handleBubbleReply] does to its collaborators, in
    order (the subsystem logger left out). *)
Inductive Effect : Type :=
| LogDyDoCommand (prompt resumeToken short project : str)
| SendInput (sessionId text : str)
| SendMessage (chatId : ChatId) (text : str) (messageThreadId : option Z)
| SetForcedResumeToken (token chatId : str).

(** A computation that records its effects. *)
Definition M (A : Type) : Type := list Effect * A.
Definition ret {A} (a : A) : M A := ([], a).
Definition bind {A B} (x : M A) (f : A -> M B) : M B :=
  let (e1, a) := x in let (e2, b) := f a in ((e1 ++ e2)%list, b).
Definition emit (e : Effect) : M unit := ([e], tt).

Notation "x ;; y" := (bind x (fun _ => y)) (at level 61, right associativity).

Record Params : Type := mkParams {
  chatId : ChatId;
  replyToMessageId : Z;
  text : str;
  threadId : option Z;
  originalMessageText : option str
}.

Section WithCollaborators.

Variables Session Project : Type.

(** The collaborators [handleBubbleReply] asks: the bubble index, the
    session table, the input channel of a session (whether the write was
    accepted) and the project resolver. *)
Variable isReplyToBubble : ChatId -> Z -> option BubbleInfo.
Variable getSession : str -> option Session.
Variable sendSessionInput : str -> str -> bool.
Variable resolveProject : str -> option Project.

(** [text.length > 50 ? `${text.slice(0, 47)}...` : text] *)
Definition shortOf (text : str) : str :=
  if Nat.ltb 50 (List.length text) then (slice0 47 text ++ u "...")%list else text.

Definition resumeRequest (p : Params) (project token : str) : str :=
  buildPlanningRequest
    (Planning.mkParams Resume project (Some (text p)) (Some token) None None
       (Some (mkChatContext (chatIdString (chatId p)) (threadId p) None None))).

Definition handleBubbleReply (p : Params) : M HandleBubbleReplyResult :=
  match isReplyToBubble (chatId p) (replyToMessageId p) with
  | None =>
      match parseResumeTokenFromMessage (originalMessageText p) with
      | None => ret not_bubble_reply
      | Some fallbackInfo =>
          emit (LogDyDoCommand (text p) (infoResumeToken fallbackInfo)
                  (shortOf (text p)) (infoProjectName fallbackInfo)) ;;
          match resolveProject (infoProjectName fallbackInfo) with
          | None =>
              emit (SendMessage (chatId p)
                      (u "Could not find project: " ++ infoProjectName fallbackInfo)%list
                      (truthyNum (threadId p))) ;;
              ret handled_directly
          | Some _ =>
              emit (SetForcedResumeToken (infoResumeToken fallbackInfo)
                      (chatIdString (chatId p))) ;;
              ret (route_to_dydo
                     (resumeRequest p (infoProjectName fallbackInfo)
                        (infoResumeToken fallbackInfo)))
          end
      end
  | Some bubbleInfo =>
      let sessionId := sessionId bubbleInfo in
      let bubble := bubble bubbleInfo in
      let reconstruct : M HandleBubbleReplyResult :=
        emit (SetForcedResumeToken (resumeToken bubble) (chatIdString (chatId p))) ;;
        ret (route_to_dydo (resumeRequest p (projectName bubble) (resumeToken bubble))) in
      emit (LogDyDoCommand (text p) (resumeToken bubble) (shortOf (text p))
              (projectName bubble)) ;;
      match getSession sessionId with
      | Some _ =>
          emit (SendInput sessionId (text p)) ;;
          if sendSessionInput sessionId (text p) then
            emit (SendMessage (chatId p)
                    (u " Sent to Claude Code: " ++ dq ++ slice0 50 (text p)
                     ++ (if Nat.ltb 50 (List.length (text p)) then u "..." else [])
                     ++ dq)%list
                    (truthyNum (threadId p))) ;;
            ret handled_directly
          else reconstruct
      | None => reconstruct
      end
  end.

End WithCollaborators.

End Router.

(** ** Notions the statements about the matcher are phrased in *)

Module Spec.
Import JS Regex.

(** [s.indexOf(p)], with [None] for [-1]. *)
Fixpoint indexOf (p s : str) : option nat :=
  if startsWith s p then Some 0
  else match s with
       | [] => None
       | _ :: s' => option_map S (indexOf p s')
       end.

(** The text left after the literal [p], compared under the [i] flag. *)
Fixpoint stripPrefix (ic : bool) (p s : str) : option str :=
  match p with
  | [] => Some s
  | a :: p' =>
      match s with
      | ch :: s' =>
          if N.eqb (canon ic ch) (canon ic a) then stripPrefix ic p' s' else None
      | [] => None
      end
  end.

(** The longest prefix of units that satisfy [P], and what follows it. *)
Fixpoint takeRun (P : N -> bool) (s : str) : str :=
  match s with
  | ch :: s' => if P ch then ch :: takeRun P s' else []
  | [] => []
  end.

Fixpoint dropRun (P : N -> bool) (s : str) : str :=
  match s with
  | ch :: s' => if P ch then dropRun P s' else s
  | [] => []
  end.

Definition classUnit (ic neg : bool) (items : list citem) (ch : N) : bool :=
  xorb neg (inClass ic items ch).

(** A matcher looks at the text from its position on only: two
    continuations that agree on the texts no longer than [s] cannot be
    told apart. *)
Definition local (body : nat -> str -> caps -> cont -> option outcome) : Prop :=
  forall pos s c k k',
    (forall pos' s' c', List.length s' <= List.length s -> k pos' s' c' = k' pos' s' c') ->
    body pos s c k = body pos s c k'.

End Spec.

(** ** Notions the statements about the router are phrased in *)

Module RouterSpec.
Import JS Regex Spec Router.

(** The literal the resume hint starts with. *)
Definition hintPrefix : str := u "claude --resume ".

(** A unit of the token class [[a-f0-9-]]. *)
Definition isTokenUnit : N -> bool :=
  classUnit false false
    [CRange (Detector.uc "a") (Detector.uc "f");
     CRange (Detector.uc "0") (Detector.uc "9"); CUnit (Detector.uc "-")].

Definition sampleToken : str := u "123e4567-e89b-12d3-a456-426614174000".

End RouterSpec.

(** ** Notions the statements about the pre-filter are phrased in *)

Module FilterSpec.
Import JS.

(** The fence marker, three backticks. *)
Definition backtick : N := 96%N.
Definition fenceMark : str := [backtick; backtick; backtick].

(** Fence markers counted left to right without overlap; [run] is the
    number of backticks (at most two) that end just before [s]. *)
Fixpoint marks (run : nat) (s : str) : nat :=
  match s with
  | [] => 0
  | c :: s' =>
      if N.eqb c backtick then
        if Nat.eqb run 2 then S (marks 0 s') else marks (S run) s'
      else marks 0 s'
  end.

Definition sum (ns : list nat) : nat := fold_right Nat.add 0 ns.

End FilterSpec.

(** ** Notions the statements about phrasings are phrased in *)

Module GlossSpec.
Import JS Regex.

(** Equal up to the case of ASCII letters. *)
Fixpoint foldEq (a b : str) : bool :=
  match a, b with
  | [], [] => true
  | x :: a', y :: b' => N.eqb (canon true x) (canon true y) && foldEq a' b'
  | _, _ => false
  end.

Definition sameLine (s : str) : Prop := Forall (fun ch => isLineTerminator ch = false) s.

Definition isDigit (ch : N) : bool := inRange 48 57 ch.

End GlossSpec.

(** ** Sample inputs *)

Module Scenarios.
Import JS Types Detector Router.

Definition assistant (t : str) : SessionEvent := mkEvent (u "assistant_message") (Some t) 0.

Definition fundingText : str := u "Need 2 SOL to proceed, current balance 0.1 SOL".
Definition fundingEvent : SessionEvent := assistant fundingText.

Definition fundingExtractors : list Extractor :=
  match extractors funding_needed with Some exs => exs | None => [] end.

Definition listItemText : str := u "- Tasks where funding was needed: none".
Definition listItemEvent : SessionEvent := assistant listItemText.

(** One funding pattern, two patterns of one other category, one
    pattern of another category. *)
Definition oneFundingText : str := u "The faucet is the only way to get devnet tokens".
Definition twoWaitingText : str :=
  u "Please run the migration and let me know when it is over".
Definition oneOtherText : str := u "Open the page in your browser to see the result".

Definition blockedText : str := u "We need more SOL to proceed, current balance 0.1 SOL".
Definition completedTail : str := u ". You need to fund the wallet, please use the faucet".
Definition completedText : str := (u "All tests complete" ++ completedTail)%list.

Definition fencedText : str :=
  (u "We need more SOL to proceed" ++ [newline] ++ u "```" ++ [newline]
   ++ u "please run the faucet" ++ [newline] ++ u "```" ++ [newline]
   ++ u "| need | more sol |")%list.

Definition longSentenceText : str := (u "please " ++ repeat 120%N 200)%list.

Definition storedText : str :=
  (u "**done** my-project" ++ [newline] ++ u "ctx: my-project @main" ++ [newline]
   ++ u "`claude --resume 123e4567-e89b-12d3-a456-426614174000`")%list.

Definition bareHintText : str :=
  u "To pick it up again: claude --resume 123e4567-e89b-12d3-a456-426614174000".

Definition sampleBubble : BubbleInfo :=
  mkBubbleInfo (u "session-1")
    (mkBubble (u "123e4567-e89b-12d3-a456-426614174000") (u "my-project") (u "/work") None).

Definition sampleReply : Params :=
  Router.mkParams (ChatNum 42) 7 (u "run the tests again") None None.

(** [p] with another stored message text. *)
Definition withOriginal (p : Params) (original : option str) : Params :=
  Router.mkParams (chatId p) (replyToMessageId p) (Router.text p) (threadId p) original.

(** The confirmation sent after a delivered reply. *)
Definition confirmation (p : Params) : Effect :=
  SendMessage (chatId p)
    (u " Sent to Claude Code: " ++ Text.dq ++ slice0 50 (Router.text p)
     ++ (if Nat.ltb 50 (List.length (Router.text p)) then u "..." else []) ++ Text.dq)%list
    (Planning.truthyNum (threadId p)).

(** What the detector reports for [blockedText] and [fencedText]. *)
Definition reported (t : str) : BlockerInfo :=
  match detectBlocker t false with
  | Some b => b
  | None => mkBlocker [] [] [] None
  end.

Definition sampleContext : Interventor.SessionContext :=
  Interventor.mkSessionContext (u "session-1") (u "my-project") [].

(** An oracle that is out of reach. *)
Definition failingOracle {A} : str -> Outcome A := fun _ => Thrown (u "oracle unreachable").

End Scenarios.

(** ** Directive markers ([planning-request.ts], second half) *)

Module Responses.
Import JS Regex.

(** [/\[to claude code\]/gi] *)
Definition toClaudeCode : regex :=
  Detector.rxi "\[to claude code\]" (lit "[to claude code]").

(** [/tell claude code:?/gi] *)
Definition tellClaudeCode : regex :=
  Detector.rxi "tell claude code:?"
    (Seq (lit "tell claude code") (opt (Chr (Detector.uc ":")))).

(** [/claude code:/gi] *)
Definition claudeCodeColon : regex :=
  Detector.rxi "claude code:" (lit "claude code:").

Definition isClaudeCodeResponse (message : str) : bool :=
  let lowerMsg := toLowerCase message in
  if includes lowerMsg (u "[to claude code]") then true
  else if includes lowerMsg (u "tell claude code") then true
  else if includes lowerMsg (u "claude code:") then true
  else false.

Definition extractClaudeCodeResponse (message : str) : str :=
  trim
    (replaceAll claudeCodeColon []
       (replaceAll tellClaudeCode [] (replaceAll toClaudeCode [] message))).

End Responses.

(** ** The inline-keyboard callbacks ([claude-callbacks.ts], first half) *)

Module Callbacks.
Import JS Regex Text.

(** [\w] without the [i] and [u] flags. *)
Definition wordClass : list citem :=
  [CRange (Detector.uc "A") (Detector.uc "Z"); CRange (Detector.uc "a") (Detector.uc "z");
   CRange (Detector.uc "0") (Detector.uc "9"); CUnit (Detector.uc "_")].

(** [/^claude:(continue|cancel):(\w+)$/], up to its closing [$]. *)
Definition callbackData : regex :=
  Detector.rxs "^claude:(continue|cancel):(\w+)$"
    (seqs [Bol; lit "claude:"; Group 1 (alts [lit "continue"; lit "cancel"]);
           Chr (Detector.uc ":"); Group 2 (plus (Class false wordClass))]).

(** The closing [$] of a pattern without the [m] flag: the match has to
    end where the text ends. *)
Definition endOfInput : cont :=
  fun pos s c => match s with [] => Some (pos, s, c) | _ :: _ => None end.

(** [data.match(rx)] for a pattern that opens with [^] and closes with
    [$]: with [^] only the attempt at position 0 can succeed. *)
Definition matchWhole (rx : regex) (data : str) : option caps :=
  match m (ignoreCase rx) (ast rx) 0 data [] endOfInput with
  | Some (_, _, c) => Some c
  | None => None
  end.

Record ClaudeCallbackData : Type := mkCallbackData {
  action : str;
  tokenPrefix : str
}.

Definition parseClaudeCallback (data : str) : option ClaudeCallbackData :=
  match matchWhole callbackData data with
  | None => None
  | Some c => Some (mkCallbackData (orUndefined (getCap 1 c)) (orUndefined (getCap 2 c)))
  end.

Definition isClaudeCodeCallback (data : str) : bool := startsWith data (u "claude:").

(** What the handler reads of the callback query. *)
Record CallbackContext : Type := mkCallbackContext {
  callbackId : option str;
  chatId : option Z;
  messageId : option Z
}.

(** What [getSessionState] gives, as far as the handler prints it. *)
Record SessionState : Type := mkSessionState {
  stateProjectName : str;
  runtimeStr : str
}.

(** The result of [startSession]. *)
Record StartResult : Type := mkStartResult {
  success : bool;
  startedSessionId : option str;
  startedResumeToken : option str;
  error : option str
}.

(** What a call of [handleClaudeCodeCallback] does to its collaborators,
    in order.  The state-change callback handed to [startSession] is
    left out: it returns at once as long as the call has not come back,
    and runs later otherwise. *)
Inductive Effect : Type :=
| AnswerCallbackQuery (callbackId text : str) (showAlert : bool)
| CancelSessionByToken (tokenPrefix : str)
| EditMessageText (chatId messageId : Z) (text : str)
| ResumeSession (sessionId : str)
| SendInput (sessionId text : str)
| StartSession (workingDir resumeToken prompt permissionMode : str)
| CreateSessionBubble (sessionId chatId : str) (threadId : option Z)
    (resumeToken projectName workingDir dydoCommand : str)
| SendMessage (chatId : Z) (text : str) (messageThreadId : option Z).

Definition M (A : Type) : Type := list Effect * A.
Definition ret {A} (a : A) : M A := ([], a).
Definition bind {A B} (x : M A) (f : A -> M B) : M B :=
  let (e1, a) := x in let (e2, b) := f a in ((e1 ++ e2)%list, b).
Definition emit (e : Effect) : M unit := ([e], tt).

Notation "x ;; y" := (bind x (fun _ => y)) (at level 61, right associativity).

Definition truthyNum := Planning.truthyNum.
Definition truthyStr := Planning.truthyStr.

(** The delimiter of the cancelled card, U+8DEF in the source file. *)
Definition delimiter : N := Router.delimiter.

Section WithCollaborators.

Variable Session : Type.
Variable idOf : Session -> str.
Variable getSessionByToken : str -> option Session.
Variable cancelSessionByToken : str -> bool.
Variable getSessionState : Session -> SessionState.
Variable sendInput : str -> str -> bool.
Variable getBubbleByTokenPrefix : str -> option Router.BubbleInfo.
Variable startSession : str -> str -> str -> str -> StartResult.

Definition answer (ctx : CallbackContext) (text : str) (showAlert : bool) : M unit :=
  emit (AnswerCallbackQuery (match callbackId ctx with Some i => i | None => [] end)
          text showAlert).

Definition handleCancel (ctx : CallbackContext) (tokenPrefix : str)
    (session : option Session) : M bool :=
  match session with
  | None => answer ctx (u "Session already ended") false ;; ret true
  | Some session =>
      emit (CancelSessionByToken tokenPrefix) ;;
      if cancelSessionByToken tokenPrefix then
        answer ctx (u "Session cancelled") false ;;
        match truthyNum (chatId ctx), truthyNum (messageId ctx) with
        | Some chat, Some message =>
            let state := getSessionState session in
            emit (EditMessageText chat message
                    (u "**" ++ stateProjectName state ++ u "**" ++ [10%N]
                     ++ runtimeStr state ++ u " " ++ [delimiter] ++ u " Cancelled")%list) ;;
            ret true
        | _, _ => ret true
        end
      else
        answer ctx (u "Failed to cancel session") true ;; ret true
  end.

Definition handleContinue (ctx : CallbackContext) (tokenPrefix : str)
    (session : option Session) : M bool :=
  match session with
  | Some session =>
      emit (ResumeSession (idOf session)) ;;
      emit (SendInput (idOf session) (u "continue")) ;;
      if sendInput (idOf session) (u "continue") then
        answer ctx (u "Sent continue signal") false ;; ret true
      else
        answer ctx (u "Session not accepting input") true ;; ret true
  | None =>
      match getBubbleByTokenPrefix tokenPrefix with
      | Some bubbleInfo =>
          let bubble := Router.bubble bubbleInfo in
          let threadId := Router.bubbleThreadId bubble in
          answer ctx (u "Resuming session...") false ;;
          emit (StartSession (Router.workingDir bubble) (Router.resumeToken bubble)
                  (u "continue") (u "bypassPermissions")) ;;
          let result :=
            startSession (Router.workingDir bubble) (Router.resumeToken bubble)
              (u "continue") (u "bypassPermissions") in
          if success result then
            match truthyNum (chatId ctx), truthyStr (startedSessionId result),
                  truthyStr (startedResumeToken result) with
            | Some chat, Some sid, Some token =>
                emit (CreateSessionBubble sid (ofZ chat) threadId token
                        (Router.projectName bubble) (Router.workingDir bubble)
                        (u "Continue work")) ;;
                ret true
            | _, _, _ => ret true
            end
          else
            match truthyNum (chatId ctx) with
            | Some chat =>
                emit (SendMessage chat
                        (u "Failed to resume: " ++ orUndefined (error result))%list
                        (truthyNum threadId)) ;;
                ret true
            | None => ret true
            end
      | None =>
          answer ctx (u "Session info lost. Use CLI: claude --resume <token>") true ;;
          ret true
      end
  end.

Definition handleClaudeCodeCallback (ctx : CallbackContext) (data : str) : M bool :=
  match parseClaudeCallback data with
  | None => ret false
  | Some parsed =>
      let session := getSessionByToken (tokenPrefix parsed) in
      if str_eqb (action parsed) (u "cancel") then
        handleCancel ctx (tokenPrefix parsed) session
      else if str_eqb (action parsed) (u "continue") then
        handleContinue ctx (tokenPrefix parsed) session
      else ret false
  end.

End WithCollaborators.

End Callbacks.

(** ** The bubble check of the message processor ([bot-message.ts]) *)

Module Processor.
Import JS Router.

Record RepliedMessage : Type := mkReplied {
  repliedMessageId : Z;
  repliedText : option str
}.

Record Message : Type := mkMessage {
  chat : option Z;
  messageText : option str;
  messageThreadId : option Z;
  replyToMessage : option RepliedMessage
}.

Record PrimaryContext : Type := mkPrimaryContext {
  message : option Message;
  editedMessage : option Message;
  channelPost : option Message
}.

(** [primaryCtx.message ?? primaryCtx.editedMessage ?? primaryCtx.channelPost] *)
Definition currentMessage (primaryCtx : PrimaryContext) : option Message :=
  match message primaryCtx with
  | Some msg => Some msg
  | None =>
      match editedMessage primaryCtx with
      | Some msg => Some msg
      | None => channelPost primaryCtx
      end
  end.

(** How the bubble check ends: the processor returns, or goes on to the
    normal processing with the message, whose text may have been
    replaced. *)
Inductive Step : Type :=
| Returns
| GoesOn (msg : option Message).

Definition withText (msg : Message) (t : str) : Message :=
  mkMessage (chat msg) (Some t) (messageThreadId msg) (replyToMessage msg).

Section WithCollaborators.

Variables Session Project : Type.
Variable isReplyToBubble : ChatId -> Z -> option BubbleInfo.
Variable getSession : str -> option Session.
Variable sendSessionInput : str -> str -> bool.
Variable resolveProject : str -> option Project.

Definition bubbleCheck (primaryCtx : PrimaryContext) : M Step :=
  let msg := currentMessage primaryCtx in
  match msg with
  | Some m =>
      match replyToMessage m, Planning.truthyStr (messageText m) with
      | Some replied, Some text =>
          if Z.eqb (repliedMessageId replied) 0 then ret (GoesOn msg)
          else
            match Planning.truthyNum (chat m) with
            | Some chatId =>
                bind
                  (handleBubbleReply isReplyToBubble getSession sendSessionInput
                     resolveProject
                     (Router.mkParams (ChatNum chatId) (repliedMessageId replied) text
                        (messageThreadId m) (repliedText replied)))
                  (fun result =>
                     match result with
                     | handled_directly => ret Returns
                     | route_to_dydo orchestrationText =>
                         ret (GoesOn (Some (withText m orchestrationText)))
                     | not_bubble_reply => ret (GoesOn msg)
                     end)
            | None => ret (GoesOn msg)
            end
      | _, _ => ret (GoesOn msg)
      end
  | None => ret (GoesOn msg)
  end.

End WithCollaborators.

End Processor.

(** ** Notions the further statements are phrased in *)

Module MoreSpec.
Import JS Regex Types Detector.

(** The patterns of the table with their categories, in table order. *)
Definition tablePatterns : list (PatternCategory * regex) :=
  flat_map (fun cat => map (fun p => (cat, p)) (patterns cat)) BLOCKER_PATTERNS.

Definition label (cp : PatternCategory * regex) : str :=
  (category (fst cp) ++ u ":" ++ source (snd cp))%list.

(** The patterns of the table that are found in [text]. *)
Definition foundIn (text : str) : list (PatternCategory * regex) :=
  filter (fun cp => test (snd cp) text) tablePatterns.

Definition isWordUnit : N -> bool :=
  Spec.classUnit false false Callbacks.wordClass.

(** The keys of a context, in order. *)
Definition keys (ctx : Context) : list str := map fst ctx.

Definition extractorFields : list str := [u "wallet"; u "needed"; u "current"].

Definition isForced (e : Router.Effect) : bool :=
  match e with Router.SetForcedResumeToken _ _ => true | _ => false end.

Definition isAnswer (e : Callbacks.Effect) : bool :=
  match e with Callbacks.AnswerCallbackQuery _ _ _ => true | _ => false end.

(** A text of a session event cut after [cut] units. *)
Definition cutText (cut : nat) (e : SessionEvent) : SessionEvent :=
  mkEvent (type e) (option_map (slice0 cut) (Types.text e)) (timestamp e).

(** A lower-case ASCII literal the lower-casing of no other unit can
    produce: no [k] and no [i] in it. *)
Definition plainLower (p : str) : bool :=
  forallb (fun a => (N.ltb a 128 && negb (isAsciiUpper a) && negb (N.eqb a 107)
                     && negb (N.eqb a 105))%bool) p.

(** One step of the pattern loop, on a pattern with its category. *)
Definition stepPair (text : str) (st : Scan) (cp : PatternCategory * regex) : Scan :=
  stepPattern text (fst cp) st (snd cp).

Definition found (text : str) (cp : PatternCategory * regex) : bool := test (snd cp) text.

Definition named (cp : PatternCategory * regex) : Prop := truthy (category (fst cp)) = true.

(** The primary category, once set, is a non-empty string. *)
Definition settled (st : Scan) : Prop :=
  match scanPrimary st with Some c => truthy c = true | None => True end.

Definition fundingExtractors : list Extractor :=
  match extractors funding_needed with Some exs => exs | None => [] end.

(** What an entry of the context records: the first group, not empty,
    of the first match of the extractor of its key. *)
Definition extracted (exs : list Extractor) (text : str) (kv : str * str) : Prop :=
  snd kv <> []
  /\ exists ex mr,
       In ex exs /\ field ex = fst kv /\ exec (pattern ex) text = Some mr
       /\ group 1 mr = Some (snd kv).

Definition sound (exs : list Extractor) (text : str) (ctx : Context) : Prop :=
  NoDup (keys ctx) /\ Forall (extracted exs text) ctx.

Definition extractorsWithin (exs : list Extractor) (cp : PatternCategory * regex) : Prop :=
  match extractors (fst cp) with Some l => incl l exs | None => True end.

(** A message the scan of [checkEventsForBlocker] passes over. *)
Definition silent (e : SessionEvent) : Prop :=
  forall t, Types.text e = Some t -> isLikelyListItem t = true \/ detectBlocker t true = None.

Definition lowerAscii (p : str) : Prop :=
  Forall (fun a => (a <? 128)%N = true /\ isAsciiUpper a = false) p.

(** A pattern with the [i] flag that is a literal, or a literal and an
    optional unit. *)
Definition opens (rx : regex) (p : str) : Prop :=
  ignoreCase rx = true
  /\ (ast rx = lits p \/ exists x, ast rx = Seq (lits p) (Rep 0 (Some 1) true (Chr x))).

Definition colon : N := Detector.uc ":".

(** What is left to match of the callback pattern once the action has
    been read: a colon and a token of word units up to the end. *)
Definition afterAction (between : str) (pos : nat) (s : str) (c : caps) : option outcome :=
  m false (Seq (Chr colon) (Group 2 (Rep 1 None true (Class false Callbacks.wordClass))))
    pos s (setCap 1 (firstn (List.length between - List.length s) between) c)
    Callbacks.endOfInput.

(** The callback data of a button: [claude:<action>:<tokenPrefix>]. *)
Definition encode (act token : str) : str := (u "claude:" ++ act ++ u ":" ++ token)%list.

(** Sample inputs. *)
Definition contextText : str := u "We need more SOL, the current balance: 0.1 SOL is too low".

Definition plainAnswer : str := u "  yes, go ahead ".

Definition sampleCallback : Callbacks.CallbackContext :=
  Callbacks.mkCallbackContext (Some (u "query-1")) (Some 42%Z) (Some 7%Z).

Definition resumed : Callbacks.StartResult :=
  Callbacks.mkStartResult true (Some (u "session-2"))
    (Some (u "123e4567-e89b-12d3-a456-426614174000")) None.

Definition continueData : str := encode (u "continue") (u "123e4567").
Definition cancelData : str := encode (u "cancel") (u "123e4567").

Definition inContext (msg : Processor.Message) : Processor.PrimaryContext :=
  Processor.mkPrimaryContext (Some msg) None None.
Definition markedAnswer : str := u "[To Claude Code] yes, go ahead".

End MoreSpec.

(** ** Case analysis over the paths of the callback handler *)

Module Paths.

(** The paths of the two actions, one goal for each. *)
Ltac cancel_paths :=
  unfold Callbacks.handleCancel, Callbacks.answer, Callbacks.bind, Callbacks.emit,
    Callbacks.ret;
  match goal with
  | |- context [match ?session with Some _ => _ | None => _ end] =>
      destruct session eqn:?;
      [match goal with
       | |- context [if ?cancelled then _ else _] =>
           destruct cancelled eqn:?;
           [match goal with
            | |- context [match Callbacks.truthyNum (Callbacks.chatId ?ctx) with _ => _ end] =>
                destruct (Callbacks.truthyNum (Callbacks.chatId ctx));
                [destruct (Callbacks.truthyNum (Callbacks.messageId ctx))|]
            end|]
       end|]
  end.

Ltac continue_paths session :=
  unfold Callbacks.handleContinue, Callbacks.answer, Callbacks.bind, Callbacks.emit,
    Callbacks.ret;
  match goal with
  | |- context [match ?live with Some _ => _ | None => _ end] =>
      destruct live as [session|] eqn:?;
      [match goal with
       | |- context [if ?sent then _ else _] => destruct sent
       end
      |match goal with
       | |- context [match ?stored with Some _ => _ | None => _ end] =>
           destruct stored eqn:?;
           [cbv zeta;
            match goal with
            | |- context [Callbacks.success ?result] =>
                destruct (Callbacks.success result);
                [match goal with
                 | |- context [match Callbacks.truthyNum (Callbacks.chatId ?ctx) with _ => _ end] =>
                     destruct (Callbacks.truthyNum (Callbacks.chatId ctx));
                     [destruct (Callbacks.truthyStr (Callbacks.startedSessionId result));
                      [destruct (Callbacks.truthyStr (Callbacks.startedResumeToken result))|]|]
                 end
                |match goal with
                 | |- context [match Callbacks.truthyNum (Callbacks.chatId ?ctx) with _ => _ end] =>
                     destruct (Callbacks.truthyNum (Callbacks.chatId ctx))
                 end]
            end|]
       end]
  end.

End Paths.

(** * Facts about the matcher *)

Unset Implicit Arguments.

Module RegexFacts.
Import JS Regex Spec.

Lemma repLoop_local body inner g fuel :
  local body ->
  forall mn mx pos s c k k',
    (forall pos' s' c', List.length s' <= List.length s -> k pos' s' c' = k' pos' s' c') ->
    repLoop body inner g k fuel mn mx pos s c = repLoop body inner g k' fuel mn mx pos s c.
Proof.
  intros Hb. induction fuel as [|fuel IH]; intros mn mx pos s c k k' Hk; simpl; [reflexivity|].
  assert (Hagain :
    body pos s (dropCaps inner c)
      (fun pos' s' c' =>
         if Nat.eqb mn 0 && Nat.eqb (List.length s') (List.length s) then None
         else repLoop body inner g k fuel (pred mn) (option_map pred mx) pos' s' c')
    = body pos s (dropCaps inner c)
      (fun pos' s' c' =>
         if Nat.eqb mn 0 && Nat.eqb (List.length s') (List.length s) then None
         else repLoop body inner g k' fuel (pred mn) (option_map pred mx) pos' s' c')).
  { apply Hb. intros pos' s' c' Hle.
    destruct (Nat.eqb mn 0 && Nat.eqb (List.length s') (List.length s)); [reflexivity|].
    apply IH. intros p2 s2 c2 H2. apply Hk. lia. }
  rewrite Hagain, (Hk pos s c) by lia. reflexivity.
Qed.

Lemma m_local ic r : local (m ic r).
Proof.
  induction r as [|a| |neg items|a IHa b IHb|a IHa b IHb|mn mx g r IH|n r IH|];
    intros pos s c k k' Hk; simpl.
  - apply Hk; lia.
  - destruct s as [|ch s']; [reflexivity|].
    destruct (N.eqb _ _); [apply Hk; simpl; lia|reflexivity].
  - destruct s as [|ch s']; [reflexivity|].
    destruct (isLineTerminator ch); [reflexivity|apply Hk; simpl; lia].
  - destruct s as [|ch s']; [reflexivity|].
    destruct (xorb _ _); [apply Hk; simpl; lia|reflexivity].
  - apply IHa. intros pos' s' c' Hle. apply IHb. intros p2 s2 c2 H2. apply Hk. lia.
  - rewrite (IHa pos s c k k' Hk), (IHb pos s c k k' Hk). reflexivity.
  - apply repLoop_local; assumption.
  - apply IH. intros pos' s' c' Hle. apply Hk. assumption.
  - destruct (Nat.eqb pos 0); [apply Hk; lia|reflexivity].
Qed.

(** Fuel above the iterations required plus the length of the text is
    never exhausted: more of it changes nothing. *)
Lemma repLoop_fuel body inner g k :
  local body ->
  forall fuel1 fuel2 mn mx pos s c,
    mn + List.length s < fuel1 -> mn + List.length s < fuel2 ->
    repLoop body inner g k fuel1 mn mx pos s c = repLoop body inner g k fuel2 mn mx pos s c.
Proof.
  intros Hb. induction fuel1 as [|fuel1 IH]; intros fuel2 mn mx pos s c H1 H2; [lia|].
  destruct fuel2 as [|fuel2]; [lia|]. simpl.
  assert (Hagain :
    body pos s (dropCaps inner c)
      (fun pos' s' c' =>
         if Nat.eqb mn 0 && Nat.eqb (List.length s') (List.length s) then None
         else repLoop body inner g k fuel1 (pred mn) (option_map pred mx) pos' s' c')
    = body pos s (dropCaps inner c)
      (fun pos' s' c' =>
         if Nat.eqb mn 0 && Nat.eqb (List.length s') (List.length s) then None
         else repLoop body inner g k fuel2 (pred mn) (option_map pred mx) pos' s' c')).
  { apply Hb. intros pos' s' c' Hle.
    destruct (Nat.eqb mn 0) eqn:Emn; simpl.
    - apply Nat.eqb_eq in Emn. subst mn.
      destruct (Nat.eqb (List.length s') (List.length s)) eqn:El; [reflexivity|].
      apply Nat.eqb_neq in El. apply IH; simpl; lia.
    - apply Nat.eqb_neq in Emn. apply IH; lia. }
  rewrite Hagain. reflexivity.
Qed.

(** The quantifier satisfies the recursive equation of the standard's
    repeat matcher. *)
Lemma m_Rep ic mn mx g r pos s c k :
  m ic (Rep mn mx g r) pos s c k =
  if maxIsZero mx then k pos s c
  else
    let again :=
      m ic r pos s (dropCaps (groups r) c)
        (fun pos' s' c' =>
           if Nat.eqb mn 0 && Nat.eqb (List.length s') (List.length s) then None
           else m ic (Rep (pred mn) (option_map pred mx) g r) pos' s' c' k) in
    if Nat.ltb 0 mn then again
    else if g then orElse again (k pos s c) else orElse (k pos s c) again.
Proof.
  simpl. replace (mn + List.length s + 1) with (S (mn + List.length s)) by lia. simpl.
  assert (Hagain :
    m ic r pos s (dropCaps (groups r) c)
      (fun pos' s' c' =>
         if Nat.eqb mn 0 && Nat.eqb (List.length s') (List.length s) then None
         else repLoop (m ic r) (groups r) g k (mn + List.length s) (pred mn)
                (option_map pred mx) pos' s' c')
    = m ic r pos s (dropCaps (groups r) c)
      (fun pos' s' c' =>
         if Nat.eqb mn 0 && Nat.eqb (List.length s') (List.length s) then None
         else repLoop (m ic r) (groups r) g k (pred mn + List.length s' + 1) (pred mn)
                (option_map pred mx) pos' s' c')).
  { apply m_local. intros pos' s' c' Hle.
    destruct (Nat.eqb mn 0) eqn:Emn; simpl.
    - apply Nat.eqb_eq in Emn. subst mn.
      destruct (Nat.eqb (List.length s') (List.length s)) eqn:El; [reflexivity|].
      apply Nat.eqb_neq in El. apply repLoop_fuel; [apply m_local| |]; simpl; lia.
    - apply Nat.eqb_neq in Emn. apply repLoop_fuel; [apply m_local| |]; lia. }
  rewrite Hagain. reflexivity.
Qed.

End RegexFacts.

Module MatchFacts.
Import JS Regex Spec RegexFacts.

Lemma dropCaps_nil (c : caps) : dropCaps [] c = c.
Proof.
  unfold dropCaps. induction c as [|p c IH]; simpl; [reflexivity|]. f_equal. exact IH.
Qed.

Lemma m_lits ic p pos s c k :
  m ic (lits p) pos s c k =
  match stripPrefix ic p s with
  | Some rest => k (pos + List.length p) rest c
  | None => None
  end.
Proof.
  revert pos s. induction p as [|a p IH]; intros pos s.
  - simpl. rewrite Nat.add_0_r. reflexivity.
  - destruct p as [|b p].
    + simpl. destruct s as [|ch s']; [reflexivity|].
      destruct (N.eqb _ _); [|reflexivity]. f_equal. lia.
    + change (lits (a :: b :: p)) with (Seq (Chr a) (lits (b :: p))).
      cbn [m stripPrefix]. destruct s as [|ch s']; [reflexivity|].
      destruct (N.eqb (canon ic ch) (canon ic a)); [|reflexivity].
      rewrite IH. replace (S pos + List.length (b :: p)) with (pos + List.length (a :: b :: p))
        by (simpl; lia). reflexivity.
Qed.

Lemma stripPrefix_exact p s :
  stripPrefix false p s = if startsWith s p then Some (skipn (List.length p) s) else None.
Proof.
  revert s. induction p as [|a p IH]; intros s; simpl; [reflexivity|].
  destruct s as [|ch s']; [reflexivity|]. unfold canon. simpl.
  rewrite N.eqb_sym. destruct (N.eqb a ch); simpl; [apply IH|reflexivity].
Qed.

Lemma m_Seq ic a b pos s c k :
  m ic (Seq a b) pos s c k = m ic a pos s c (fun pos' s' c' => m ic b pos' s' c' k).
Proof. reflexivity. Qed.

Lemma m_Alt ic a b pos s c k :
  m ic (Alt a b) pos s c k = orElse (m ic a pos s c k) (m ic b pos s c k).
Proof. reflexivity. Qed.

Lemma m_Group ic n r pos s c k :
  m ic (Group n r) pos s c k
  = m ic r pos s c
      (fun pos' s' c' =>
         k pos' s' (setCap n (firstn (List.length s - List.length s') s) c')).
Proof. reflexivity. Qed.

Lemma m_Class ic neg items pos s c k :
  m ic (Class neg items) pos s c k =
  match s with
  | ch :: s' => if classUnit ic neg items ch then k (S pos) s' c else None
  | [] => None
  end.
Proof. reflexivity. Qed.

(** A greedy quantifier over a one-unit class whose continuation
    succeeds after the longest run stops there. *)
Lemma m_greedy_run ic neg items k o :
  forall s mn pos c,
    mn <= List.length (takeRun (classUnit ic neg items) s) ->
    k (pos + List.length (takeRun (classUnit ic neg items) s))
      (dropRun (classUnit ic neg items) s) c = Some o ->
    m ic (Rep mn None true (Class neg items)) pos s c k = Some o.
Proof.
  induction s as [|ch s IH]; intros mn pos c Hmn Hk; rewrite m_Rep; cbn [maxIsZero];
    cbv zeta; rewrite m_Class; cbn [groups]; rewrite ?dropCaps_nil.
  - simpl in Hmn, Hk. assert (mn = 0) by lia. subst mn. simpl.
    rewrite Nat.add_0_r in Hk. exact Hk.
  - cbn [takeRun dropRun] in Hmn, Hk.
    destruct (classUnit ic neg items ch) eqn:E.
    + assert (Hlen : Nat.eqb (List.length s) (List.length (ch :: s)) = false).
      { apply Nat.eqb_neq. simpl. lia. }
      rewrite Hlen, andb_false_r. cbn [option_map].
      assert (Hrec : m ic (Rep (pred mn) None true (Class neg items)) (S pos) s c k = Some o).
      { apply IH.
        - simpl in Hmn. lia.
        - rewrite <- Hk. f_equal. simpl. lia. }
      rewrite Hrec. destruct (Nat.ltb 0 mn); reflexivity.
    + simpl in Hmn. assert (mn = 0) by lia. subst mn. simpl.
      simpl in Hk. rewrite Nat.add_0_r in Hk. exact Hk.
Qed.

(** A quantifier with an exact count over a one-unit class. *)
Lemma m_exact_run ic neg items g k :
  forall n s pos c,
    m ic (Rep n (Some n) g (Class neg items)) pos s c k =
    if Nat.leb n (List.length s) && forallb (classUnit ic neg items) (firstn n s)
    then k (pos + n) (skipn n s) c else None.
Proof.
  induction n as [|n IH]; intros s pos c; rewrite m_Rep.
  - simpl. rewrite Nat.add_0_r. reflexivity.
  - cbn [maxIsZero]. cbv zeta. rewrite m_Class. cbn [groups]. rewrite dropCaps_nil.
    change (Nat.ltb 0 (S n)) with true. cbv iota.
    destruct s as [|ch s]; [reflexivity|].
    cbn [firstn forallb skipn List.length Nat.leb].
    destruct (classUnit ic neg items ch); [|rewrite andb_false_r; reflexivity].
    cbn [Nat.eqb andb pred option_map]. rewrite IH.
    replace (S pos + n) with (pos + S n) by lia. reflexivity.
Qed.

(** *** The search *)

Lemma execFrom_sound rx :
  forall s pos mr,
    execFrom rx pos s = Some mr ->
    exists i e rest,
      i <= List.length s /\ index mr = pos + i
      /\ matchAt (ignoreCase rx) (ast rx) (pos + i) (skipn i s) = Some (e, rest, captures mr)
      /\ matched mr = firstn (e - (pos + i)) (skipn i s)
      /\ forall j, j < i ->
           matchAt (ignoreCase rx) (ast rx) (pos + j) (skipn j s) = None.
Proof.
  induction s as [|ch s IH]; intros pos mr H; simpl in H.
  - destruct (matchAt _ _ pos []) as [[[e rest] c]|] eqn:E; [|discriminate].
    injection H as <-. exists 0, e, rest. simpl. rewrite Nat.add_0_r.
    repeat split; [lia|exact E|intros j Hj; lia].
  - destruct (matchAt _ _ pos (ch :: s)) as [[[e rest] c]|] eqn:E.
    + injection H as <-. exists 0, e, rest. simpl. rewrite Nat.add_0_r.
      repeat split; [lia|exact E|intros j Hj; lia].
    + destruct (IH _ _ H) as (i & e & rest & Hi & Hidx & Hm & Hmat & Hbefore).
      exists (S i), e, rest. replace (pos + S i) with (S pos + i) by lia.
      simpl. repeat split; try assumption; [lia|].
      intros [|j] Hj.
      * rewrite Nat.add_0_r. exact E.
      * replace (pos + S j) with (S pos + j) by lia. apply Hbefore. lia.
Qed.

Lemma execFrom_leftmost rx :
  forall s i pos e rest c,
    i <= List.length s ->
    (forall j, j < i -> matchAt (ignoreCase rx) (ast rx) (pos + j) (skipn j s) = None) ->
    matchAt (ignoreCase rx) (ast rx) (pos + i) (skipn i s) = Some (e, rest, c) ->
    execFrom rx pos s = Some (mkMatch (pos + i) (firstn (e - (pos + i)) (skipn i s)) c).
Proof.
  induction s as [|ch s IH]; intros i pos e rest c Hi Hbefore Hm.
  - simpl in Hi. assert (i = 0) by lia. subst i. simpl in *.
    rewrite Nat.add_0_r in *. rewrite Hm. reflexivity.
  - destruct i as [|i].
    + simpl in *. rewrite Nat.add_0_r in *. rewrite Hm. reflexivity.
    + simpl. pose proof (Hbefore 0 ltac:(lia)) as H0. simpl in H0.
      rewrite Nat.add_0_r in H0. rewrite H0.
      replace (pos + S i) with (S pos + i) in * by lia.
      apply IH with (rest := rest).
      * simpl in Hi. lia.
      * intros j Hj. specialize (Hbefore (S j) ltac:(lia)). simpl in Hbefore.
        replace (pos + S j) with (S pos + j) in Hbefore by lia. exact Hbefore.
      * exact Hm.
Qed.

Lemma execFrom_none rx :
  forall s pos,
    (forall j, j <= List.length s ->
       matchAt (ignoreCase rx) (ast rx) (pos + j) (skipn j s) = None) ->
    execFrom rx pos s = None.
Proof.
  induction s as [|ch s IH]; intros pos H; simpl.
  - specialize (H 0 ltac:(simpl; lia)). simpl in H. rewrite Nat.add_0_r in H.
    rewrite H. reflexivity.
  - pose proof (H 0 ltac:(simpl; lia)) as H0. simpl in H0. rewrite Nat.add_0_r in H0.
    rewrite H0. apply IH. intros j Hj. specialize (H (S j) ltac:(simpl; lia)).
    simpl in H. replace (pos + S j) with (S pos + j) in H by lia. exact H.
Qed.

(** *** First occurrences of a literal *)

Lemma indexOf_Some p :
  forall s i, indexOf p s = Some i ->
    i <= List.length s /\ startsWith (skipn i s) p = true
    /\ forall j, j < i -> startsWith (skipn j s) p = false.
Proof.
  induction s as [|ch s IH]; intros i H; simpl in H.
  - destruct (startsWith [] p) eqn:E; [|discriminate]. injection H as <-.
    simpl. repeat split; [lia|exact E|intros j Hj; lia].
  - destruct (startsWith (ch :: s) p) eqn:E.
    + injection H as <-. simpl. repeat split; [lia|exact E|intros j Hj; lia].
    + destruct (indexOf p s) as [i'|] eqn:Ei; [|discriminate]. injection H as <-.
      destruct (IH _ eq_refl) as (Hle & Hst & Hbefore). simpl.
      repeat split; [lia|exact Hst|].
      intros [|j] Hj; [exact E|]. simpl. apply Hbefore. lia.
Qed.

Lemma indexOf_None p :
  forall s, indexOf p s = None -> forall j, startsWith (skipn j s) p = false.
Proof.
  induction s as [|ch s IH]; intros H j; simpl in H.
  - destruct (startsWith [] p) eqn:E; [discriminate|]. destruct j; exact E.
  - destruct (startsWith (ch :: s) p) eqn:E; [discriminate|].
    destruct (indexOf p s) eqn:Ei; [discriminate|].
    destruct j; [exact E|]. simpl. apply IH. reflexivity.
Qed.

Lemma includes_indexOf p : forall s, includes s p = false <-> indexOf p s = None.
Proof.
  induction s as [|ch s IH]; simpl.
  - destruct (startsWith [] p); simpl; split; congruence.
  - destruct (startsWith (ch :: s) p); simpl; [split; discriminate|].
    rewrite IH. destruct (indexOf p s); simpl; split; congruence.
Qed.

(** A pattern that begins with a literal can only match where the
    literal occurs. *)
Lemma matchAt_needs_literal p r pos s :
  startsWith s p = false -> matchAt false (Seq (lits p) r) pos s = None.
Proof.
  intros H. unfold matchAt. rewrite m_Seq, m_lits, stripPrefix_exact, H. reflexivity.
Qed.

Lemma matchAt_after_literal p r pos s :
  startsWith s p = true ->
  matchAt false (Seq (lits p) r) pos s
  = m false r (pos + List.length p) (skipn (List.length p) s) [] done.
Proof.
  intros H. unfold matchAt. rewrite m_Seq, m_lits, stripPrefix_exact, H. reflexivity.
Qed.

End MatchFacts.

(** * Facts about strings and lines *)

Module StringFacts.
Import JS.

Lemma startsWith_app (p x : str) : startsWith (p ++ x) p = true.
Proof.
  induction p as [|c p IH]; simpl; [reflexivity|].
  rewrite N.eqb_refl. exact IH.
Qed.

Lemma endsWith_app (x p : str) : endsWith (x ++ p) p = true.
Proof. unfold endsWith. rewrite rev_app_distr. apply startsWith_app. Qed.

End StringFacts.

(** * Facts about the detector *)

Module DetectorFacts.
Import JS Regex Types Detector.

Lemma length_zero_nil {A} (l : list A) : Nat.eqb (List.length l) 0 = true <-> l = [].
Proof. destruct l; simpl; split; intro H; congruence. Qed.

(** What [detectBlocker] returns, once past its length gate. *)
Lemma detectBlocker_unfold text sessionEnded :
  20 <= List.length text ->
  detectBlocker text sessionEnded =
  let clean := preFilter text in
  let st := scanPatterns clean in
  if Nat.eqb (List.length (scanMatched st)) 0 then None
  else if negb (isStrongSignal sessionEnded st) then None
  else Some (mkBlocker (extractBlockerReason clean (scanPrimary st)) clean
               (scanMatched st)
               (match scanContext st with [] => None | _ :: _ => Some (scanContext st) end)).
Proof.
  intros Hlen. unfold detectBlocker.
  destruct text as [|c text]; [simpl in Hlen; lia|].
  replace (Nat.ltb (List.length (c :: text)) 20) with false
    by (symmetry; apply Nat.ltb_ge; exact Hlen).
  reflexivity.
Qed.

Lemma detectBlocker_short text sessionEnded :
  List.length text < 20 -> detectBlocker text sessionEnded = None.
Proof.
  intros Hlen. unfold detectBlocker.
  apply Nat.ltb_lt in Hlen. rewrite Hlen, orb_true_r. reflexivity.
Qed.

(** A reported blocker is built from the scan of the filtered text. *)
Lemma detectBlocker_Some text sessionEnded b :
  detectBlocker text sessionEnded = Some b ->
  let clean := preFilter text in
  let st := scanPatterns clean in
  20 <= List.length text /\ scanMatched st <> [] /\ isStrongSignal sessionEnded st = true
  /\ b = mkBlocker (extractBlockerReason clean (scanPrimary st)) clean (scanMatched st)
           (match scanContext st with [] => None | _ :: _ => Some (scanContext st) end).
Proof.
  intros H. destruct (Nat.lt_ge_cases (List.length text) 20) as [Hs|Hl].
  - rewrite detectBlocker_short in H by assumption. discriminate.
  - rewrite detectBlocker_unfold in H by assumption. cbv zeta in H.
    destruct (Nat.eqb (List.length (scanMatched (scanPatterns (preFilter text)))) 0) eqn:E0;
      [discriminate|].
    destruct (isStrongSignal sessionEnded (scanPatterns (preFilter text))) eqn:Es;
      simpl in H; [|discriminate].
    injection H as <-. repeat split; try assumption.
    intros Hnil. rewrite Hnil in E0. discriminate.
Qed.

Lemma isFundingRelated_spec st :
  isFundingRelated st = true <-> scanPrimary st = Some (u "funding_needed").
Proof.
  unfold isFundingRelated. destruct (scanPrimary st) as [c|]; [|split; discriminate].
  split.
  - intros H. f_equal. revert H. generalize (u "funding_needed"). revert c.
    induction c as [|x c IH]; intros [|y d]; simpl; try discriminate; [reflexivity|].
    intros H. apply andb_prop in H. destruct H as [H1 H2].
    apply N.eqb_eq in H1. subst. f_equal. apply IH. assumption.
  - intros H. injection H as ->. reflexivity.
Qed.

End DetectorFacts.

Module EventFacts.
Import JS Regex Types Detector DetectorFacts.

Lemma sliceLast_suffix {A} (n : Z) (xs : list A) :
  exists dropped, xs = dropped ++ sliceLast n xs.
Proof.
  unfold sliceLast. destruct (0 <? n)%Z.
  - exists (firstn (List.length xs - Z.to_nat n) xs). symmetry. apply firstn_skipn.
  - exists (firstn (Z.to_nat (- n)) xs). symmetry. apply firstn_skipn.
Qed.

(** The window of recent messages is empty or ends with the last
    element of the list it is cut from. *)
Lemma sliceLast_last {A} (n : Z) (xs : list A) (x : A) :
  sliceLast n (xs ++ [x]) = [] \/ exists ys, sliceLast n (xs ++ [x]) = ys ++ [x].
Proof.
  destruct (sliceLast_suffix n (xs ++ [x])) as [dropped H].
  destruct (sliceLast n (xs ++ [x])) as [|y ys] using rev_ind; [left; reflexivity|].
  right. exists ys. rewrite app_assoc in H. apply app_inj_tail in H.
  destruct H as [_ ->]. reflexivity.
Qed.

Lemma filter_last_assistant before e after :
  isAssistantText e = true ->
  Forall (fun x => isAssistantText x = false) after ->
  filter isAssistantText (before ++ e :: after) = filter isAssistantText before ++ [e].
Proof.
  intros He Hafter. rewrite filter_app. simpl. rewrite He. f_equal. f_equal.
  induction Hafter as [|x after Hx _ IH]; simpl; [reflexivity|].
  rewrite Hx. exact IH.
Qed.

Lemma scanEvents_In evs b :
  scanEvents evs = Some b ->
  exists e t, In e evs /\ Types.text e = Some t /\ isLikelyListItem t = false
              /\ detectBlocker t true = Some b.
Proof.
  induction evs as [|e evs IH]; simpl; [discriminate|].
  intros H.
  assert (Hrest : scanEvents evs = Some b ->
    exists e0 t, (e = e0 \/ In e0 evs) /\ Types.text e0 = Some t
                 /\ isLikelyListItem t = false /\ detectBlocker t true = Some b).
  { intros H'. destruct (IH H') as (e0 & t & Hin & Ht). exists e0, t. tauto. }
  destruct (Types.text e) as [t|] eqn:Et; [|auto].
  destruct (truthy t); simpl in H; [|auto].
  destruct (isLikelyListItem t) eqn:El; [auto|].
  destruct (detectBlocker t true) as [b'|] eqn:Ed; [|auto].
  injection H as ->. exists e, t. auto.
Qed.

Lemma scanEvents_skip l1 e l2 t :
  Types.text e = Some t -> isLikelyListItem t = true ->
  scanEvents (l1 ++ e :: l2) = scanEvents (l1 ++ l2).
Proof.
  intros Et El. induction l1 as [|x l1 IH]; simpl.
  - rewrite Et, El. destruct (truthy t); reflexivity.
  - rewrite IH. reflexivity.
Qed.

End EventFacts.

(** * Facts about the resume-token parser *)

Module ParseFacts.
Import JS Regex Spec RegexFacts MatchFacts StringFacts Text Router RouterSpec.

Lemma ast_resumeHint :
  ast resumeHint
  = Seq (lits hintPrefix)
      (Group 1
         (Rep 36 (Some 36) true
            (Class false
               [CRange (Detector.uc "a") (Detector.uc "f");
                CRange (Detector.uc "0") (Detector.uc "9"); CUnit (Detector.uc "-")]))).
Proof. reflexivity. Qed.

Lemma firstn_consumed {A} (n : nat) (s : list A) :
  n <= List.length s -> firstn (List.length s - List.length (skipn n s)) s = firstn n s.
Proof. intros H. rewrite length_skipn. f_equal. lia. Qed.

(** One attempt of the resume hint: the literal, then 36 token units,
    which group 1 captures. *)
Lemma matchAt_resumeHint pos s :
  matchAt false (ast resumeHint) pos s =
  let rest := skipn 16 s in
  if startsWith s hintPrefix && Nat.leb 36 (List.length rest)
     && forallb isTokenUnit (firstn 36 rest)
  then Some (pos + 16 + 36, skipn 36 rest, [(1, firstn 36 rest)])
  else None.
Proof.
  rewrite ast_resumeHint. cbv zeta.
  destruct (startsWith s hintPrefix) eqn:Ep.
  - rewrite matchAt_after_literal by exact Ep.
    change (List.length hintPrefix) with 16. rewrite m_Group, m_exact_run.
    fold isTokenUnit. cbn [andb].
    destruct (Nat.leb 36 (List.length (skipn 16 s))) eqn:El; [|reflexivity].
    cbn [andb]. destruct (forallb isTokenUnit (firstn 36 (skipn 16 s))); [|reflexivity].
    unfold done, setCap. cbn [dropCaps filter]. apply Nat.leb_le in El.
    rewrite firstn_consumed by exact El. reflexivity.
  - rewrite matchAt_needs_literal by exact Ep. reflexivity.
Qed.

Lemma skipn_exact {A} (a b : list A) : skipn (List.length a) (a ++ b) = b.
Proof. induction a as [|x a IH]; simpl; [reflexivity|exact IH]. Qed.

Lemma firstn_exact {A} (a b : list A) : firstn (List.length a) (a ++ b) = a.
Proof. induction a as [|x a IH]; simpl; [reflexivity|f_equal; exact IH]. Qed.

Lemma startsWith_split (s a b : str) :
  startsWith s (a ++ b) = startsWith s a && startsWith (skipn (List.length a) s) b.
Proof.
  revert s. induction a as [|x a IH]; intros s; simpl; [reflexivity|].
  destruct s as [|y s]; [reflexivity|]. rewrite IH, andb_assoc. reflexivity.
Qed.

Lemma startsWith_firstn (s : str) (n : nat) : startsWith s (firstn n s) = true.
Proof.
  revert n. induction s as [|y s IH]; intros [|n]; simpl; try reflexivity.
  rewrite N.eqb_refl. apply IH.
Qed.

Lemma includes_skipn (s p : str) (i : nat) :
  startsWith (skipn i s) p = true -> includes s p = true.
Proof.
  revert i. induction s as [|y s IH]; intros i H.
  - rewrite skipn_nil in H. simpl. rewrite H. reflexivity.
  - destruct i as [|i]; simpl in *.
    + rewrite H. reflexivity.
    + rewrite (IH _ H). apply orb_true_r.
Qed.

(** What a successful search for the resume hint reports. *)
Lemma exec_resumeHint text mr :
  exec resumeHint text = Some mr ->
  exists token,
    group 1 mr = Some token /\ List.length token = 36
    /\ forallb isTokenUnit token = true
    /\ includes text (hintPrefix ++ token) = true.
Proof.
  intros H. apply execFrom_sound in H.
  destruct H as (i & e & rest & Hi & _ & Hm & _ & _).
  change (ignoreCase resumeHint) with false in Hm.
  rewrite matchAt_resumeHint in Hm. cbv zeta in Hm.
  destruct (startsWith (skipn i text) hintPrefix) eqn:Ep; [|discriminate].
  destruct (Nat.leb 36 (List.length (skipn 16 (skipn i text)))) eqn:El; [|discriminate].
  destruct (forallb isTokenUnit (firstn 36 (skipn 16 (skipn i text)))) eqn:Ef;
    [|discriminate].
  cbn [andb] in Hm. injection Hm as _ _ Hc.
  exists (firstn 36 (skipn 16 (skipn i text))). apply Nat.leb_le in El.
  repeat split.
  - unfold group. rewrite <- Hc. reflexivity.
  - rewrite length_firstn. lia.
  - exact Ef.
  - apply includes_skipn with (i := i). rewrite startsWith_split, Ep.
    change (List.length hintPrefix) with 16. apply startsWith_firstn.
Qed.

Lemma execFrom_complete rx :
  forall s pos i,
    i <= List.length s ->
    matchAt (ignoreCase rx) (ast rx) (pos + i) (skipn i s) <> None ->
    execFrom rx pos s <> None.
Proof.
  induction s as [|ch s IH]; intros pos i Hi Hm.
  - simpl in Hi. assert (i = 0) by lia. subst i. simpl in *. rewrite Nat.add_0_r in Hm.
    destruct (matchAt _ _ pos []) as [[[e r] c]|]; [discriminate|contradiction].
  - simpl. destruct (matchAt _ _ pos (ch :: s)) as [[[e r] c]|] eqn:E; [discriminate|].
    destruct i as [|i].
    + simpl in Hm. rewrite Nat.add_0_r in Hm. contradiction.
    + apply IH with (i := i); [simpl in Hi; lia|].
      replace (S pos + i) with (pos + S i) by lia. exact Hm.
Qed.

(** A text that holds the literal followed by 36 token units holds the
    resume hint. *)
Lemma contains_hint (pre token post : str) :
  List.length token = 36 -> forallb isTokenUnit token = true ->
  test resumeHint (pre ++ hintPrefix ++ token ++ post) = true.
Proof.
  intros Hl Hf. unfold test, exec.
  destruct (execFrom resumeHint 0 (pre ++ hintPrefix ++ token ++ post)) eqn:E;
    [reflexivity|].
  exfalso. revert E. apply execFrom_complete with (i := List.length pre).
  - rewrite length_app. lia.
  - change (ignoreCase resumeHint) with false. rewrite matchAt_resumeHint. cbv zeta.
    rewrite skipn_exact.
    rewrite startsWith_app.
    change (skipn 16 (hintPrefix ++ token ++ post)) with (token ++ post).
    replace (firstn 36 (token ++ post)) with token
      by (rewrite <- Hl; symmetry; apply firstn_exact).
    rewrite Hf, length_app, Hl.
    replace (Nat.leb 36 (36 + List.length post)) with true
      by (symmetry; apply Nat.leb_le; lia).
    discriminate.
Qed.

End ParseFacts.

Module HintFacts.
Import JS Regex Spec RegexFacts MatchFacts Text Router RouterSpec ParseFacts.

(** A pattern that begins with a literal, searched in a text: it is
    found at the first occurrence of the literal when the rest of the
    pattern matches there, and nowhere when the literal is absent. *)
Lemma exec_literal_first rx p r s i e rest c :
  ignoreCase rx = false -> ast rx = Seq (lits p) r ->
  indexOf p s = Some i ->
  m false r (i + List.length p) (skipn (List.length p) (skipn i s)) [] done
  = Some (e, rest, c) ->
  exec rx s = Some (mkMatch i (firstn (e - i) (skipn i s)) c).
Proof.
  intros Hic Hast Hidx Hm. destruct (indexOf_Some p s i Hidx) as (Hle & Hst & Hbefore).
  unfold exec. apply (execFrom_leftmost rx s i 0 e rest c Hle).
  - intros j Hj. rewrite Hic, Hast. apply matchAt_needs_literal. apply Hbefore. exact Hj.
  - rewrite Hic, Hast. rewrite matchAt_after_literal by exact Hst. exact Hm.
Qed.

Lemma exec_literal_absent rx p r s :
  ignoreCase rx = false -> ast rx = Seq (lits p) r ->
  includes s p = false -> exec rx s = None.
Proof.
  intros Hic Hast Hinc. apply includes_indexOf in Hinc. unfold exec.
  apply execFrom_none. intros j _. rewrite Hic, Hast.
  apply matchAt_needs_literal. apply indexOf_None. exact Hinc.
Qed.

Lemma ast_ctxHint :
  ast ctxHint
  = Seq (lits (u "ctx:"))
      (Seq (Rep 0 None true (Class false [CWhite]))
           (Group 1 (Rep 1 None true (Class true [CUnit 10%N])))).
Proof. reflexivity. Qed.

Lemma ast_headerHint :
  exists r,
    ast headerHint
    = Seq (lits (u "**"))
        (Seq (Alt (lits (u "working")) (lits (u "done"))) (Seq (lits (u "**")) r)).
Proof. eexists. reflexivity. Qed.

(** No [ctx:] in the text: the context hint is not found. *)
Lemma no_ctx_marker text : includes text (u "ctx:") = false -> test ctxHint text = false.
Proof.
  intros H. unfold test.
  rewrite (exec_literal_absent ctxHint (u "ctx:") _ text eq_refl ast_ctxHint H).
  reflexivity.
Qed.

Lemma startsWith_false_skipn (s p : str) (j : nat) :
  includes s p = false -> startsWith (skipn j s) p = false.
Proof. intros H. apply indexOf_None. apply includes_indexOf. exact H. Qed.

(** Neither status word between double stars: the header hint is not
    found. *)
Lemma no_status_header text :
  includes text (u "**working**") = false -> includes text (u "**done**") = false ->
  test headerHint text = false.
Proof.
  intros Hw Hd. unfold test, exec. destruct ast_headerHint as [r Hast].
  rewrite execFrom_none; [reflexivity|].
  intros j _. change (ignoreCase headerHint) with false. rewrite Hast. simpl (0 + j).
  pose proof (startsWith_false_skipn text (u "**working**") j Hw) as Hwj.
  pose proof (startsWith_false_skipn text (u "**done**") j Hd) as Hdj.
  change (u "**working**") with (u "**" ++ u "working" ++ u "**") in Hwj.
  change (u "**done**") with (u "**" ++ u "done" ++ u "**") in Hdj.
  rewrite !startsWith_split in Hwj, Hdj.
  destruct (startsWith (skipn j text) (u "**")) eqn:E2.
  - rewrite matchAt_after_literal by exact E2. rewrite m_Seq, m_Alt.
    rewrite !m_lits, !stripPrefix_exact. cbn [andb] in Hwj, Hdj.
    destruct (startsWith (skipn (List.length (u "**")) (skipn j text)) (u "working")) eqn:Ew.
    + cbn [andb] in Hwj. rewrite m_Seq, m_lits, stripPrefix_exact, Hwj. cbn [orElse].
      destruct (startsWith (skipn (List.length (u "**")) (skipn j text)) (u "done")) eqn:Ed;
        [|reflexivity].
      cbn [andb] in Hdj. rewrite m_Seq, m_lits, stripPrefix_exact, Hdj. reflexivity.
    + cbn [orElse].
      destruct (startsWith (skipn (List.length (u "**")) (skipn j text)) (u "done")) eqn:Ed;
        [|reflexivity].
      cbn [andb] in Hdj. rewrite m_Seq, m_lits, stripPrefix_exact, Hdj. reflexivity.
  - apply matchAt_needs_literal. exact E2.
Qed.

(** The context hint on the line [ctx: my-project @main]. *)
Lemma ctx_line_match pos post :
  post = [] \/ (exists post', post = 10%N :: post') ->
  exists e rest,
    m false
      (Seq (Rep 0 None true (Class false [CWhite]))
           (Group 1 (Rep 1 None true (Class true [CUnit 10%N]))))
      pos (u " my-project @main" ++ post) [] done
    = Some (e, rest, [(1, u "my-project @main")]).
Proof.
  intros Hpost. eexists. eexists. rewrite m_Seq.
  apply m_greedy_run.
  - change (takeRun (classUnit false false [CWhite]) (u " my-project @main" ++ post))
      with [32%N]. simpl. lia.
  - change (takeRun (classUnit false false [CWhite]) (u " my-project @main" ++ post))
      with [32%N].
    change (dropRun (classUnit false false [CWhite]) (u " my-project @main" ++ post))
      with (u "my-project @main" ++ post).
    rewrite m_Group. apply m_greedy_run.
    + assert (Hrun : takeRun (classUnit false true [CUnit 10%N]) (u "my-project @main" ++ post)
                     = u "my-project @main").
      { destruct Hpost as [-> | [post' ->]]; reflexivity. }
      rewrite Hrun. simpl. lia.
    + assert (Hrun : takeRun (classUnit false true [CUnit 10%N]) (u "my-project @main" ++ post)
                     = u "my-project @main").
      { destruct Hpost as [-> | [post' ->]]; reflexivity. }
      assert (Hdrop : dropRun (classUnit false true [CUnit 10%N]) (u "my-project @main" ++ post)
                      = post).
      { destruct Hpost as [-> | [post' ->]]; reflexivity. }
      rewrite Hrun, Hdrop. unfold done.
      replace (firstn (List.length (u "my-project @main" ++ post) - List.length post)
                 (u "my-project @main" ++ post)) with (u "my-project @main").
      * reflexivity.
      * rewrite length_app.
        replace (List.length (u "my-project @main") + List.length post - List.length post)
          with (List.length (u "my-project @main")) by lia.
        symmetry. apply firstn_exact.
Qed.

End HintFacts.

(** * Facts about the pre-filter *)

Module FenceFacts.
Import JS Regex Spec FilterSpec RegexFacts MatchFacts Detector.

Lemma ast_codeFence :
  ast codeFence
  = Seq (lits fenceMark)
      (Seq (Rep 0 None false (Class false [CWhite; CNonWhite])) (lits fenceMark)).
Proof. reflexivity. Qed.

Lemma any_unit ch : classUnit false false [CWhite; CNonWhite] ch = true.
Proof.
  unfold classUnit, inClass. simpl. destruct (isSpace ch); reflexivity.
Qed.

(** The lazy [[\s\S]*?] followed by the closing marker stops at the
    first marker. *)
Lemma m_lazy_to_mark :
  forall s pos c,
    m false (Rep 0 None false (Class false [CWhite; CNonWhite])) pos s c
      (fun p s' c' => m false (lits fenceMark) p s' c' done)
    = match indexOf fenceMark s with
      | Some d => Some (pos + d + 3, skipn 3 (skipn d s), c)
      | None => None
      end.
Proof.
  induction s as [|ch s IH]; intros pos c; rewrite m_Rep; cbn [maxIsZero];
    cbv zeta; rewrite m_Class; cbn [groups]; rewrite ?dropCaps_nil;
    change (Nat.ltb 0 0) with false; cbv iota; rewrite m_lits, stripPrefix_exact.
  - reflexivity.
  - rewrite any_unit.
    assert (Hlen : Nat.eqb (List.length s) (List.length (ch :: s)) = false).
    { apply Nat.eqb_neq. simpl. lia. }
    rewrite Hlen, andb_false_r. cbn [pred option_map indexOf].
    destruct (startsWith (ch :: s) fenceMark) eqn:E.
    + cbn [orElse]. unfold done. change (List.length fenceMark) with 3.
      rewrite Nat.add_0_r. reflexivity.
    + cbn [orElse]. rewrite IH. destruct (indexOf fenceMark s) as [d|]; [|reflexivity].
      cbn [option_map]. f_equal. f_equal. f_equal. lia.
Qed.

(** One attempt of the fence pattern. *)
Lemma matchAt_codeFence pos s :
  matchAt false (ast codeFence) pos s =
  if startsWith s fenceMark then
    match indexOf fenceMark (skipn 3 s) with
    | Some d => Some (pos + 3 + d + 3, skipn 3 (skipn d (skipn 3 s)), [])
    | None => None
    end
  else None.
Proof.
  rewrite ast_codeFence. destruct (startsWith s fenceMark) eqn:E.
  - rewrite matchAt_after_literal by exact E. rewrite m_Seq.
    change (List.length fenceMark) with 3. apply m_lazy_to_mark.
  - apply matchAt_needs_literal. exact E.
Qed.

(** *** Counting markers *)

Lemma includes_tail (c : N) (s p : str) : includes (c :: s) p = false -> includes s p = false.
Proof. simpl. intros H. apply orb_false_elim in H. tauto. Qed.

(** No marker, no count. *)
Lemma marks_none :
  forall s,
    (includes s fenceMark = false -> marks 0 s = 0)
    /\ (includes (backtick :: s) fenceMark = false -> marks 1 s = 0)
    /\ (includes (backtick :: backtick :: s) fenceMark = false -> marks 2 s = 0).
Proof.
  induction s as [|c s (IH0 & IH1 & IH2)]; [simpl; auto|].
  cbn [marks]. destruct (N.eqb c backtick) eqn:Ec.
  - apply N.eqb_eq in Ec. subst c. cbn [Nat.eqb]. split; [|split].
    + exact IH1.
    + exact IH2.
    + intros H. simpl in H. discriminate.
  - (split; [|split]); intros H; apply IH0.
    + apply includes_tail in H. exact H.
    + do 2 apply includes_tail in H. exact H.
    + do 3 apply includes_tail in H. exact H.
Qed.

Lemma indexOf_cons_miss (p : str) (c : N) (s : str) (i : nat) :
  startsWith (c :: s) p = false ->
  indexOf p (c :: s) = Some i -> exists i', i = S i' /\ indexOf p s = Some i'.
Proof.
  intros Hs H. simpl in H. cbn [startsWith] in Hs. rewrite Hs in H.
  destruct (indexOf p s) as [i'|]; [|discriminate]. injection H as <-.
  exists i'. auto.
Qed.

Lemma startsWith_mark_miss2 (c : N) (s : str) :
  N.eqb c backtick = false -> startsWith (backtick :: backtick :: c :: s) fenceMark = false.
Proof.
  intros H. unfold fenceMark. cbn [startsWith].
  rewrite (N.eqb_sym backtick c), H, ?N.eqb_refl. reflexivity.
Qed.

Lemma startsWith_mark_miss1 (c : N) (s : str) :
  N.eqb c backtick = false -> startsWith (backtick :: c :: s) fenceMark = false.
Proof.
  intros H. unfold fenceMark. cbn [startsWith].
  rewrite (N.eqb_sym backtick c), H, ?N.eqb_refl. reflexivity.
Qed.

Lemma startsWith_mark_miss0 (c : N) (s : str) :
  N.eqb c backtick = false -> startsWith (c :: s) fenceMark = false.
Proof.
  intros H. unfold fenceMark. cbn [startsWith].
  rewrite (N.eqb_sym backtick c), H, ?N.eqb_refl. reflexivity.
Qed.

(** The first marker counted is the first one in the text; the count
    goes on right behind it. *)
Lemma marks_first :
  forall s i,
    (indexOf fenceMark s = Some i -> marks 0 s = S (marks 0 (skipn (i + 3) s)))
    /\ (indexOf fenceMark (backtick :: s) = Some i ->
        marks 1 s = S (marks 0 (skipn (i + 2) s)))
    /\ (indexOf fenceMark (backtick :: backtick :: s) = Some i ->
        marks 2 s = S (marks 0 (skipn (i + 1) s))).
Proof.
  induction s as [|c s IH]; intros i.
  - (split; [|split]); intros H; simpl in H; discriminate.
  - cbn [marks]. destruct (N.eqb c backtick) eqn:Ec.
    + apply N.eqb_eq in Ec. subst c. cbn [Nat.eqb]. split; [|split].
      * intros H. destruct (IH i) as (_ & IH1 & _). rewrite (IH1 H).
        replace (i + 3) with (S (i + 2)) by lia. reflexivity.
      * intros H. destruct (IH i) as (_ & _ & IH2). rewrite (IH2 H).
        replace (i + 2) with (S (i + 1)) by lia. reflexivity.
      * intros H. simpl in H. injection H as <-. reflexivity.
    + (split; [|split]); intros H.
      * apply indexOf_cons_miss in H; [|apply startsWith_mark_miss0; exact Ec].
        destruct H as (i' & -> & H). destruct (IH i') as (IH0 & _ & _).
        rewrite (IH0 H). reflexivity.
      * apply indexOf_cons_miss in H; [|apply startsWith_mark_miss1; exact Ec].
        destruct H as (i1 & -> & H).
        apply indexOf_cons_miss in H; [|apply startsWith_mark_miss0; exact Ec].
        destruct H as (i' & -> & H). destruct (IH i') as (IH0 & _ & _).
        rewrite (IH0 H). replace (S (S i') + 2) with (S (i' + 3)) by lia. reflexivity.
      * apply indexOf_cons_miss in H; [|apply startsWith_mark_miss2; exact Ec].
        destruct H as (i2 & -> & H).
        apply indexOf_cons_miss in H; [|apply startsWith_mark_miss1; exact Ec].
        destruct H as (i1 & -> & H).
        apply indexOf_cons_miss in H; [|apply startsWith_mark_miss0; exact Ec].
        destruct H as (i' & -> & H). destruct (IH i') as (IH0 & _ & _).
        rewrite (IH0 H). replace (S (S (S i')) + 1) with (S (i' + 3)) by lia. reflexivity.
Qed.

Lemma mark_shifts_left (c : N) (s : str) :
  startsWith (c :: s) fenceMark = true ->
  startsWith (backtick :: c :: s) fenceMark = true.
Proof.
  unfold fenceMark. cbn [startsWith]. rewrite N.eqb_refl.
  destruct (N.eqb backtick c); [|discriminate].
  destruct s as [|d s]; [discriminate|]. destruct (N.eqb backtick d); [|discriminate].
  reflexivity.
Qed.

(** What precedes the first marker adds nothing to the count of what
    is put behind it. *)
Lemma marks_before_first (v : str) :
  forall s i,
    (indexOf fenceMark s = Some i -> marks 0 (firstn i s ++ v) = marks 0 v)
    /\ (indexOf fenceMark (backtick :: s) = Some (S i) ->
        marks 1 (firstn i s ++ v) = marks 0 v)
    /\ (indexOf fenceMark (backtick :: backtick :: s) = Some (S (S i)) ->
        marks 2 (firstn i s ++ v) = marks 0 v).
Proof.
  induction s as [|c s IH]; intros i.
  - (split; [|split]); intros H; simpl in H; discriminate.
  - destruct i as [|i].
    + (split; [|split]); intros H.
      * reflexivity.
      * exfalso. apply indexOf_Some in H. destruct H as (_ & Hst & Hb).
        specialize (Hb 0 ltac:(lia)). cbn [skipn] in Hst, Hb.
        rewrite (mark_shifts_left c s Hst) in Hb. discriminate.
      * exfalso. apply indexOf_Some in H. destruct H as (_ & Hst & Hb).
        specialize (Hb 1 ltac:(lia)). cbn [skipn] in Hst, Hb.
        rewrite (mark_shifts_left c s Hst) in Hb. discriminate.
    + cbn [firstn app marks]. destruct (N.eqb c backtick) eqn:Ec.
      * apply N.eqb_eq in Ec. subst c. cbn [Nat.eqb]. (split; [|split]); intros H.
        -- destruct (IH i) as (_ & IH1 & _). apply IH1. exact H.
        -- destruct (IH i) as (_ & _ & IH2). apply IH2. exact H.
        -- simpl in H. discriminate.
      * (split; [|split]); intros H.
        -- apply indexOf_cons_miss in H; [|apply startsWith_mark_miss0; exact Ec].
           destruct H as (i' & Hi & H). injection Hi as <-.
           destruct (IH i) as (IH0 & _ & _). apply IH0. exact H.
        -- apply indexOf_cons_miss in H; [|apply startsWith_mark_miss1; exact Ec].
           destruct H as (i1 & Hi1 & H). injection Hi1 as <-.
           apply indexOf_cons_miss in H; [|apply startsWith_mark_miss0; exact Ec].
           destruct H as (i' & Hi & H). injection Hi as <-.
           destruct (IH i) as (IH0 & _ & _). apply IH0. exact H.
        -- apply indexOf_cons_miss in H; [|apply startsWith_mark_miss2; exact Ec].
           destruct H as (i2 & Hi2 & H). injection Hi2 as <-.
           apply indexOf_cons_miss in H; [|apply startsWith_mark_miss1; exact Ec].
           destruct H as (i1 & Hi1 & H). injection Hi1 as <-.
           apply indexOf_cons_miss in H; [|apply startsWith_mark_miss0; exact Ec].
           destruct H as (i' & Hi & H). injection Hi as <-.
           destruct (IH i) as (IH0 & _ & _). apply IH0. exact H.
Qed.

End FenceFacts.

Module FilterFacts.
Import JS Regex Spec FilterSpec RegexFacts MatchFacts Types Detector FenceFacts ParseFacts.

Lemma includes_suffix (p : str) :
  forall s a b, a <= b -> includes (skipn b s) p = true -> includes (skipn a s) p = true.
Proof.
  induction s as [|c s IH]; intros a b Hab H.
  - rewrite skipn_nil in *. exact H.
  - destruct a as [|a].
    + destruct b as [|b]; [exact H|]. cbn [skipn] in *.
      pose proof (IH 0 b ltac:(lia) H) as H'. cbn [skipn] in H'.
      cbn [includes]. rewrite H'. apply orb_true_r.
    + destruct b as [|b]; [lia|]. cbn [skipn] in *. apply (IH a b); [lia|exact H].
Qed.

Lemma includes_true_indexOf (p s : str) :
  includes s p = true -> exists i, indexOf p s = Some i.
Proof.
  intros H. destruct (indexOf p s) as [i|] eqn:E; [exists i; reflexivity|].
  apply includes_indexOf in E. congruence.
Qed.

Lemma indexOf_true_includes (p s : str) (i : nat) :
  indexOf p s = Some i -> includes s p = true.
Proof.
  intros H. destruct (includes s p) eqn:E; [reflexivity|].
  apply includes_indexOf in E. congruence.
Qed.

Lemma indexOf_intro (p : str) :
  forall s i,
    startsWith (skipn i s) p = true ->
    (forall j, j < i -> startsWith (skipn j s) p = false) ->
    i <= List.length s ->
    indexOf p s = Some i.
Proof.
  induction s as [|c s IH]; intros i Hst Hb Hle.
  - simpl in Hle. assert (i = 0) by lia. subst i. simpl in *. rewrite Hst. reflexivity.
  - destruct i as [|i].
    + cbn [skipn] in Hst. cbn [indexOf]. rewrite Hst. reflexivity.
    + pose proof (Hb 0 ltac:(lia)) as H0. cbn [skipn] in H0, Hst.
      cbn [indexOf]. rewrite H0. rewrite (IH i Hst); [reflexivity| |simpl in Hle; lia].
      intros j Hj. apply (Hb (S j)). lia.
Qed.

Lemma startsWith_length (s p : str) : startsWith s p = true -> List.length p <= List.length s.
Proof.
  revert s. induction p as [|x p IH]; intros s H; simpl; [lia|].
  destruct s as [|y s]; [discriminate|]. simpl in H. apply andb_prop in H.
  destruct H as [_ H]. apply IH in H. simpl. lia.
Qed.

Lemma marks_some (s : str) : includes s fenceMark = true -> 1 <= marks 0 s.
Proof.
  intros H. apply includes_true_indexOf in H. destruct H as [i H].
  destruct (marks_first s i) as (M0 & _ & _). rewrite (M0 H). lia.
Qed.

Lemma marks_zero (s : str) : includes s fenceMark = false -> marks 0 s = 0.
Proof. apply marks_none. Qed.

(** A successful attempt of the fence pattern, spelled out. *)
Lemma matchAt_codeFence_Some pos s e rest c :
  matchAt false (ast codeFence) pos s = Some (e, rest, c) ->
  startsWith s fenceMark = true
  /\ exists d, indexOf fenceMark (skipn 3 s) = Some d /\ e = pos + 3 + d + 3.
Proof.
  rewrite matchAt_codeFence. destruct (startsWith s fenceMark); [|discriminate].
  destruct (indexOf fenceMark (skipn 3 s)) as [d|]; [|discriminate].
  intros H. injection H as <- _ _. split; [reflexivity|]. exists d. auto.
Qed.

(** The fence pattern is found exactly in the texts that hold two
    markers side by side or apart. *)
Lemma fence_found_marks pos s mr : execFrom codeFence pos s = Some mr -> 2 <= marks 0 s.
Proof.
  intros H. apply execFrom_sound in H. destruct H as (i & e & rest & Hi & _ & Hm & _ & _).
  change (ignoreCase codeFence) with false in Hm.
  apply matchAt_codeFence_Some in Hm. destruct Hm as (Hst & d & Hd & _).
  assert (Hinc : includes s fenceMark = true) by (apply includes_skipn with (i := i); exact Hst).
  apply includes_true_indexOf in Hinc. destruct Hinc as [i0 Hi0].
  destruct (marks_first s i0) as (M0 & _ & _). rewrite (M0 Hi0).
  assert (i0 <= i).
  { destruct (Nat.le_gt_cases i0 i) as [Hle|Hgt]; [exact Hle|].
    apply indexOf_Some in Hi0. destruct Hi0 as (_ & _ & Hb). rewrite (Hb i Hgt) in Hst.
    discriminate. }
  apply indexOf_true_includes in Hd. rewrite skipn_skipn in Hd.
  apply (includes_suffix fenceMark s (i0 + 3) (3 + i)) in Hd; [|lia].
  apply marks_some in Hd. lia.
Qed.

Lemma marks_fence_found pos s : 2 <= marks 0 s -> execFrom codeFence pos s <> None.
Proof.
  intros H.
  destruct (includes s fenceMark) eqn:Einc; [|rewrite (marks_zero s Einc) in H; lia].
  apply includes_true_indexOf in Einc. destruct Einc as [i Hi].
  destruct (marks_first s i) as (M0 & _ & _). rewrite (M0 Hi) in H.
  destruct (includes (skipn (i + 3) s) fenceMark) eqn:E2;
    [|rewrite (marks_zero _ E2) in H; lia].
  apply includes_true_indexOf in E2. destruct E2 as [d Hd].
  apply indexOf_Some in Hi. destruct Hi as (Hle & Hst & _).
  apply execFrom_complete with (i := i); [exact Hle|].
  change (ignoreCase codeFence) with false. rewrite matchAt_codeFence, Hst.
  rewrite skipn_skipn. replace (3 + i) with (i + 3) by lia. rewrite Hd. discriminate.
Qed.

Lemma test_codeFence_marks s : test codeFence s = false <-> marks 0 s <= 1.
Proof.
  unfold test, exec. split.
  - intros H. destruct (Nat.le_gt_cases (marks 0 s) 1) as [Hle|Hgt]; [exact Hle|].
    apply (marks_fence_found 0) in Hgt. destruct (execFrom codeFence 0 s); congruence.
  - intros H. destruct (execFrom codeFence 0 s) as [mr|] eqn:E; [|reflexivity].
    apply fence_found_marks in E. lia.
Qed.

(** *** Removing the fenced blocks *)

Lemma replaceAll_codeFence_marks :
  forall fuel s pos,
    List.length s < fuel -> marks 0 (replaceAllFrom fuel codeFence [] pos s) <= 1.
Proof.
  induction fuel as [|fuel IH]; intros s pos Hfuel; [lia|].
  cbn [replaceAllFrom]. destruct (execFrom codeFence pos s) as [mr|] eqn:E.
  - pose proof E as Hsound. apply execFrom_sound in Hsound.
    destruct Hsound as (i & e & rest & Hi & Hidx & Hm & Hmat & Hbefore).
    change (ignoreCase codeFence) with false in Hm, Hbefore.
    pose proof Hm as Hm'. apply matchAt_codeFence_Some in Hm'.
    destruct Hm' as (Hst & d & Hd & He).
    pose proof (indexOf_Some _ _ _ Hd) as (Hdle & Hdst & _).
    apply startsWith_length in Hdst. change (List.length fenceMark) with 3 in Hdst.
    repeat rewrite length_skipn in Hdst. repeat rewrite length_skipn in Hdle.
    assert (Hlen : List.length (matched mr) = d + 6).
    { rewrite Hmat, length_firstn, length_skipn. rewrite Nat.min_l; lia. }
    assert (Hfirst : indexOf fenceMark s = Some i).
    { apply indexOf_intro; [exact Hst| |exact Hi].
      intros j Hj. specialize (Hbefore j Hj). rewrite matchAt_codeFence in Hbefore.
      destruct (startsWith (skipn j s) fenceMark); [|reflexivity].
      destruct (indexOf fenceMark (skipn 3 (skipn j s))) eqn:Ej; [discriminate|].
      apply includes_indexOf in Ej. apply indexOf_true_includes in Hd.
      rewrite skipn_skipn in Ej, Hd.
      apply (includes_suffix fenceMark s (3 + j) (3 + i)) in Hd; [|lia]. congruence. }
    destruct (matched mr) as [|m0 ms] eqn:Ematched; [simpl in Hlen; lia|].
    rewrite Hidx. replace (pos + i - pos) with i by lia. cbn [app].
    destruct (marks_before_first
                (replaceAllFrom fuel codeFence [] (pos + i + List.length (m0 :: ms))
                   (skipn (pos + i + List.length (m0 :: ms) - pos) s)) s i) as (M0 & _ & _).
    rewrite (M0 Hfirst). apply IH. rewrite length_skipn, Hlen. lia.
  - apply test_codeFence_marks. unfold test, exec.
    destruct (execFrom codeFence 0 s) as [mr|] eqn:E0; [|reflexivity].
    apply fence_found_marks in E0. apply (marks_fence_found pos) in E0. congruence.
Qed.

(** *** Lines *)

Lemma splitOn_nonempty sep s : splitOn sep s <> [].
Proof.
  destruct s as [|c s]; simpl; [discriminate|].
  destruct (N.eqb c sep); [discriminate|]. destruct (splitOn sep s); discriminate.
Qed.

Lemma join_cons (sep x : str) (ls : list str) :
  ls <> [] -> join sep (x :: ls) = x ++ sep ++ join sep ls.
Proof. destruct ls; [contradiction|reflexivity]. Qed.

Lemma join_splitOn sep s : join [sep] (splitOn sep s) = s.
Proof.
  induction s as [|c s IH]; [reflexivity|]. cbn [splitOn].
  destruct (N.eqb c sep) eqn:Ec.
  - apply N.eqb_eq in Ec. subst c. rewrite join_cons by apply splitOn_nonempty.
    rewrite IH. reflexivity.
  - pose proof (splitOn_nonempty sep s) as Hne.
    destruct (splitOn sep s) as [|piece rest]; [contradiction|].
    destruct rest as [|r rest].
    + simpl in *. rewrite IH. reflexivity.
    + change (join [sep] ((c :: piece) :: r :: rest))
        with (c :: (piece ++ [sep] ++ join [sep] (r :: rest))).
      change (join [sep] (piece :: r :: rest))
        with (piece ++ [sep] ++ join [sep] (r :: rest)) in IH.
      rewrite IH. reflexivity.
Qed.

Lemma splitOn_clean sep s : Forall (fun l => ~ In sep l) (splitOn sep s).
Proof.
  induction s as [|c s IH]; simpl; [constructor; [tauto|constructor]|].
  destruct (N.eqb c sep) eqn:Ec.
  - constructor; [tauto|exact IH].
  - destruct (splitOn sep s) as [|piece rest]; [constructor; [|constructor]|].
    + intros [H|[]]. apply N.eqb_neq in Ec. congruence.
    + inversion IH as [|? ? Hp Hr]; subst. constructor; [|exact Hr].
      intros [H|H]; [apply N.eqb_neq in Ec; congruence|contradiction].
Qed.

Lemma splitOn_line sep (l s : str) :
  ~ In sep l -> splitOn sep (l ++ sep :: s) = l :: splitOn sep s.
Proof.
  induction l as [|c l IH]; intros Hl; cbn [app splitOn].
  - rewrite N.eqb_refl. reflexivity.
  - destruct (N.eqb c sep) eqn:Ec.
    + apply N.eqb_eq in Ec. subst c. exfalso. apply Hl. left. reflexivity.
    + rewrite IH; [reflexivity|]. intros H. apply Hl. right. exact H.
Qed.

Lemma splitOn_single sep (l : str) : ~ In sep l -> splitOn sep l = [l].
Proof.
  induction l as [|c l IH]; intros Hl; cbn [splitOn]; [reflexivity|].
  destruct (N.eqb c sep) eqn:Ec.
  - apply N.eqb_eq in Ec. subst c. exfalso. apply Hl. left. reflexivity.
  - rewrite IH; [reflexivity|]. intros H. apply Hl. right. exact H.
Qed.

Lemma splitOn_join sep (ls : list str) :
  ls <> [] -> Forall (fun l => ~ In sep l) ls -> splitOn sep (join [sep] ls) = ls.
Proof.
  induction ls as [|l ls IH]; intros Hne Hall; [contradiction|].
  inversion Hall as [|? ? Hl Hrest]; subst. destruct ls as [|l2 ls].
  - simpl. apply splitOn_single. exact Hl.
  - rewrite join_cons by discriminate. cbn [app]. rewrite splitOn_line by exact Hl.
    rewrite IH; [reflexivity|discriminate|exact Hrest].
Qed.

Lemma Forall_filter {A} (P : A -> Prop) (f : A -> bool) (ls : list A) :
  Forall P ls -> Forall P (filter f ls).
Proof.
  induction 1 as [|x ls Hx _ IH]; simpl; [constructor|].
  destruct (f x); [constructor; assumption|assumption].
Qed.

Lemma Forall_filter_true {A} (f : A -> bool) (ls : list A) :
  Forall (fun x => f x = true) (filter f ls).
Proof.
  induction ls as [|x ls IH]; simpl; [constructor|].
  destruct (f x) eqn:E; [constructor; assumption|assumption].
Qed.

(** Markers do not reach across a line break. *)
Lemma marks_line (l s : str) :
  forall run, marks run (l ++ newline :: s) = marks run l + marks 0 s.
Proof.
  induction l as [|c l IH]; intros run; cbn [app marks].
  - reflexivity.
  - destruct (N.eqb c backtick); [destruct (Nat.eqb run 2)|]; rewrite IH; reflexivity.
Qed.

Lemma marks_join (ls : list str) :
  marks 0 (join [newline] ls) = sum (map (marks 0) ls).
Proof.
  induction ls as [|l ls IH]; [reflexivity|]. destruct ls as [|l2 ls].
  - simpl. lia.
  - rewrite join_cons by discriminate. cbn [app]. rewrite marks_line, IH. reflexivity.
Qed.

Lemma sum_filter (f : str -> bool) (g : str -> nat) (ls : list str) :
  sum (map g (filter f ls)) <= sum (map g ls).
Proof.
  induction ls as [|l ls IH]; simpl; [lia|]. destruct (f l); simpl; lia.
Qed.

(** *** The two properties of the filtered text *)

Lemma preFilter_no_fence text : test codeFence (preFilter text) = false.
Proof.
  apply test_codeFence_marks. unfold preFilter. cbv zeta. rewrite marks_join.
  eapply Nat.le_trans; [apply sum_filter|].
  rewrite <- marks_join, join_splitOn. apply replaceAll_codeFence_marks. lia.
Qed.

Lemma preFilter_no_table_line text :
  Forall (fun line => keepLine line = true) (splitOn newline (preFilter text)).
Proof.
  unfold preFilter. cbv zeta.
  set (kept := filter keepLine (splitOn newline (replaceAll codeFence [] text))).
  destruct kept as [|l ls] eqn:E.
  - simpl. constructor; [reflexivity|constructor].
  - rewrite splitOn_join.
    + rewrite <- E. apply Forall_filter_true.
    + discriminate.
    + rewrite <- E. apply Forall_filter. apply splitOn_clean.
Qed.

End FilterFacts.

(** * Facts about completion signals and list-like lines *)

Module GlossFacts.
Import JS Regex Spec Types Detector GlossSpec.
Import RegexFacts MatchFacts ParseFacts FilterFacts.

Lemma m_Chr ic a pos s c k :
  m ic (Chr a) pos s c k =
  match s with
  | ch :: s' => if N.eqb (canon ic ch) (canon ic a) then k (S pos) s' c else None
  | [] => None
  end.
Proof. reflexivity. Qed.

Lemma m_Dot ic pos s c k :
  m ic Dot pos s c k =
  match s with
  | ch :: s' => if isLineTerminator ch then None else k (S pos) s' c
  | [] => None
  end.
Proof. reflexivity. Qed.

Lemma stripPrefix_fold (w p s : str) :
  foldEq w p = true -> stripPrefix true p (w ++ s) = Some s.
Proof.
  revert p. induction w as [|x w IH]; intros [|y p] H; simpl in H; try discriminate.
  - reflexivity.
  - apply andb_prop in H. destruct H as [Hxy Hw]. cbn [app stripPrefix].
    rewrite Hxy. apply IH. exact Hw.
Qed.

Lemma foldEq_length (w p : str) : foldEq w p = true -> List.length w = List.length p.
Proof.
  revert p. induction w as [|x w IH]; intros [|y p] H; simpl in H; try discriminate.
  - reflexivity.
  - apply andb_prop in H. destruct H as [_ Hw]. simpl. f_equal. apply IH. exact Hw.
Qed.

(** A literal under the [i] flag, met in any case. *)
Lemma m_lits_fold (w p s : str) pos c k :
  foldEq w p = true ->
  m true (lits p) pos (w ++ s) c k = k (pos + List.length p) s c.
Proof. intros H. rewrite m_lits, (stripPrefix_fold w p s H). reflexivity. Qed.

(** The greedy [.*] gives back as much as the rest of the pattern needs. *)
Lemma m_star_dot_reach ic k :
  forall a b pos c,
    sameLine a ->
    k (pos + List.length a) b c <> None ->
    m ic (Rep 0 None true Dot) pos (a ++ b) c k <> None.
Proof.
  induction a as [|x a IH]; intros b pos c Ha Hk; rewrite m_Rep; cbn [maxIsZero];
    cbv zeta; change (Nat.ltb 0 0) with false; cbv iota.
  - simpl in Hk. rewrite Nat.add_0_r in Hk. cbn [app].
    destruct (m ic Dot pos b (dropCaps (groups Dot) c) _);
      cbn [orElse]; [discriminate|exact Hk].
  - inversion Ha as [|? ? Hx Ha']; subst. cbn [app]. rewrite m_Dot, Hx.
    assert (Hlen : Nat.eqb (List.length (a ++ b)) (List.length (x :: a ++ b)) = false).
    { apply Nat.eqb_neq. simpl. lia. }
    rewrite Hlen, andb_false_r. cbn [pred option_map groups]. rewrite dropCaps_nil.
    assert (Hrec : m ic (Rep 0 None true Dot) (S pos) (a ++ b) c k <> None).
    { apply IH; [exact Ha'|]. replace (S pos + List.length a) with (pos + List.length (x :: a))
        by (simpl; lia). exact Hk. }
    destruct (m ic (Rep 0 None true Dot) (S pos) (a ++ b) c k);
      cbn [orElse]; [discriminate|contradiction].
Qed.

(** An optional term can be passed over. *)
Lemma m_opt_skip ic r pos s c k :
  k pos s c <> None -> m ic (Rep 0 (Some 1) true r) pos s c k <> None.
Proof.
  intros Hk. rewrite m_Rep. cbn [maxIsZero]. cbv zeta.
  change (Nat.ltb 0 0) with false. cbv iota.
  destruct (m ic r pos s (dropCaps (groups r) c) _); cbn [orElse]; [discriminate|exact Hk].
Qed.

Lemma orElse_left {A} (a b : option A) : a <> None -> orElse a b <> None.
Proof. intros H. destruct a; [simpl; discriminate|contradiction]. Qed.

Lemma orElse_right {A} (a b : option A) : b <> None -> orElse a b <> None.
Proof. intros H. destruct a; [simpl; discriminate|exact H]. Qed.

Lemma test_at rx (pre s : str) :
  matchAt (ignoreCase rx) (ast rx) (List.length pre) s <> None ->
  test rx (pre ++ s) = true.
Proof.
  intros H. unfold test, exec.
  destruct (execFrom rx 0 (pre ++ s)) eqn:E; [reflexivity|]. exfalso. revert E.
  apply execFrom_complete with (i := List.length pre).
  - rewrite length_app. lia.
  - rewrite skipn_exact. exact H.
Qed.

Lemma test_at_start rx (s : str) :
  matchAt (ignoreCase rx) (ast rx) 0 s <> None -> test rx s = true.
Proof. intros H. apply (test_at rx [] s). exact H. Qed.

(** *** Completion signals *)

Lemma signal_found (rx : regex) (t : str) :
  In rx COMPLETION_SIGNALS -> test rx t = true -> hasCompletionSignal t = true.
Proof.
  intros Hin Ht. unfold hasCompletionSignal. apply existsb_exists. exists rx. auto.
Qed.

(** A word of the completion table, in any case, anywhere. *)
Lemma completion_word (word : string) (w pre post : str) :
  In (rxi word (lit word)) COMPLETION_SIGNALS ->
  foldEq w (u word) = true ->
  hasCompletionSignal (pre ++ w ++ post) = true.
Proof.
  intros Hin Hw. apply (signal_found _ _ Hin). apply test_at.
  unfold matchAt. cbn [ignoreCase ast rxi]. unfold lit.
  rewrite (m_lits_fold w (u word) post _ _ _ Hw). discriminate.
Qed.

(** A mark and, further on the same line, a word. *)
Lemma completion_pair (src : str) (mark : N) (word : string) (w pre mid post : str) :
  In (mkRegex src (seqs [Chr mark; star Dot; lit word]) true) COMPLETION_SIGNALS ->
  sameLine mid -> foldEq w (u word) = true ->
  hasCompletionSignal (pre ++ mark :: mid ++ w ++ post) = true.
Proof.
  intros Hin Hmid Hw. apply (signal_found _ _ Hin). apply test_at.
  unfold matchAt. cbn [ignoreCase ast seqs]. rewrite m_Seq, m_Chr, N.eqb_refl, m_Seq.
  apply m_star_dot_reach; [exact Hmid|].
  unfold lit. rewrite (m_lits_fold w (u word) post _ _ _ Hw). discriminate.
Qed.

(** The phrasings that count as completion signals. *)
Lemma completion_phrasings (pre mid post w : str) :
  (foldEq w (u "finished") = true \/ foldEq w (u "done!") = true
   \/ foldEq w (u "successfully") = true ->
   hasCompletionSignal (pre ++ w ++ post) = true)
  /\ (sameLine mid -> foldEq w (u "ready") = true ->
      hasCompletionSignal (pre ++ checkMark :: mid ++ w ++ post) = true
      /\ hasCompletionSignal (pre ++ tick :: mid ++ w ++ post) = true).
Proof.
  split.
  - intros [H|[H|H]].
    + apply (completion_word "finished"); [|exact H]. do 3 right. left. reflexivity.
    + apply (completion_word "done!"); [|exact H]. do 4 right. left. reflexivity.
    + apply (completion_word "successfully"); [|exact H]. do 5 right. left. reflexivity.
  - intros Hmid H. split.
    + apply (completion_pair (checkMark :: u ".*ready") checkMark "ready");
        [left; reflexivity|exact Hmid|exact H].
    + apply (completion_pair (tick :: u ".*ready") tick "ready");
        [right; left; reflexivity|exact Hmid|exact H].
Qed.

(** [all] and, further on the same line, [complete]. *)
Lemma completion_all_complete (pre mid post w1 w2 : str) :
  sameLine mid -> foldEq w1 (u "all") = true -> foldEq w2 (u "complete") = true ->
  hasCompletionSignal (pre ++ w1 ++ mid ++ w2 ++ post) = true.
Proof.
  intros Hmid H1 H2.
  apply (signal_found (rxi "all.*complete" (seqs [lit "all"; star Dot; lit "complete"]))).
  { do 2 right. left. reflexivity. }
  apply test_at. unfold matchAt. cbn [ignoreCase ast rxi seqs]. unfold lit.
  rewrite m_Seq, (m_lits_fold w1 (u "all") _ _ _ _ H1), m_Seq.
  apply m_star_dot_reach; [exact Hmid|].
  rewrite (m_lits_fold w2 (u "complete") post _ _ _ H2). discriminate.
Qed.

(** *** List-like lines *)

Lemma m_Bol ic pos s c k :
  m ic Bol pos s c k = if Nat.eqb pos 0 then k pos s c else None.
Proof. reflexivity. Qed.

(** One list-like line makes the message list-like. *)
Lemma list_like_line (ls : list str) (line : str) :
  In line ls -> Forall (fun l => ~ In newline l) ls -> isListLine line = true ->
  isLikelyListItem (join [newline] ls) = true.
Proof.
  intros Hin Hclean Hline. unfold isLikelyListItem. rewrite splitOn_join.
  - apply existsb_exists. exists line. auto.
  - intros ->. contradiction.
  - exact Hclean.
Qed.

(** A bullet: [-], [*] or [+], then a whitespace unit. *)
Lemma bullet_line (line rest : str) (mark ws : N) :
  trim line = mark :: ws :: rest ->
  In mark [uc "-"; uc "*"; uc "+"] -> isSpace ws = true ->
  isListLine line = true.
Proof.
  intros Htrim Hmark Hws. unfold isListLine. cbv zeta. rewrite Htrim.
  replace (test listMarker (mark :: ws :: rest)) with true; [reflexivity|].
  symmetry. apply test_at_start. unfold matchAt. cbn [ignoreCase ast listMarker rxs seqs].
  rewrite m_Seq, m_Bol. cbn [Nat.eqb]. rewrite m_Seq, m_Class.
  assert (Hm : classUnit false false [CUnit (uc "-"); CUnit (uc "*"); CUnit (uc "+")] mark
               = true).
  { destruct Hmark as [<-|[<-|[<-|[]]]]; reflexivity. }
  rewrite Hm, m_Class. unfold classUnit, inClass. cbn [existsb itemMatches].
  rewrite Hws. discriminate.
Qed.

Lemma takeRun_stop (P : N -> bool) (run rest : str) (x : N) :
  forallb P run = true -> P x = false ->
  takeRun P (run ++ x :: rest) = run /\ dropRun P (run ++ x :: rest) = x :: rest.
Proof.
  intros Hrun Hx. induction run as [|y run IH]; cbn [app takeRun dropRun].
  - rewrite Hx. split; reflexivity.
  - simpl in Hrun. apply andb_prop in Hrun. destruct Hrun as [Hy Hrun]. rewrite Hy.
    destruct (IH Hrun) as [-> ->]. split; reflexivity.
Qed.

Lemma classUnit_digit ch : classUnit false false [CDigit] ch = isDigit ch.
Proof. unfold classUnit, inClass, isDigit. simpl. apply orb_false_r. Qed.

(** A number: digits, a dot, then a whitespace unit. *)
Lemma numbered_line (line ds rest : str) (ws : N) :
  trim line = ds ++ uc "." :: ws :: rest ->
  ds <> [] -> forallb isDigit ds = true -> isSpace ws = true ->
  isListLine line = true.
Proof.
  intros Htrim Hne Hds Hws. unfold isListLine. cbv zeta. rewrite Htrim.
  replace (test numberedMarker (ds ++ uc "." :: ws :: rest)) with true;
    [rewrite orb_true_r; reflexivity|].
  symmetry. apply test_at_start. unfold matchAt.
  cbn [ignoreCase ast numberedMarker rxs seqs]. rewrite m_Seq, m_Bol. cbn [Nat.eqb].
  rewrite m_Seq. unfold digits, plus.
  assert (Hrun : forallb (classUnit false false [CDigit]) ds = true).
  { rewrite <- Hds. clear. induction ds as [|d ds IH]; [reflexivity|].
    cbn [forallb]. rewrite IH, classUnit_digit. reflexivity. }
  destruct (takeRun_stop (classUnit false false [CDigit]) ds (ws :: rest) (uc ".") Hrun
              eq_refl) as [Htake Hdrop].
  match goal with
  | |- m _ _ _ _ _ ?k <> None =>
      destruct (k (0 + List.length ds) (uc "." :: ws :: rest) []) as [o|] eqn:Ek
  end.
  - rewrite (m_greedy_run false false [CDigit] _ o).
    + discriminate.
    + rewrite Htake. destruct ds; [contradiction|simpl; lia].
    + rewrite Htake, Hdrop. exact Ek.
  - exfalso. revert Ek. rewrite m_Seq, m_Chr. cbn [canon andb]. rewrite N.eqb_refl.
    rewrite m_Class. unfold classUnit, inClass. cbn [existsb itemMatches].
    rewrite Hws. discriminate.
Qed.

(** A heading word in any case and, further on the same line, a colon. *)
Lemma heading_line (line w mid rest : str) (word : string) :
  trim line = w ++ mid ++ uc ":" :: rest ->
  In word ["Task"; "Criteria"; "Signal"; "Example"; "Quantitative"; "Qualitative"]%string ->
  foldEq w (u word) = true -> sameLine mid ->
  isListLine line = true.
Proof.
  intros Htrim Hword Hw Hmid. unfold isListLine. cbv zeta. rewrite Htrim.
  replace (test listHeader (w ++ mid ++ uc ":" :: rest)) with true;
    [rewrite !orb_true_r; reflexivity|].
  symmetry. apply test_at_start. unfold matchAt.
  cbn [ignoreCase ast listHeader rxi seqs alts]. rewrite m_Seq, m_Bol. cbn [Nat.eqb].
  rewrite m_Seq, m_Group. unfold lit, opt.
  assert (Htail : forall pos c,
            m true (Seq (star Dot) (Chr (uc ":"))) pos (mid ++ uc ":" :: rest) c done <> None).
  { intros pos c. rewrite m_Seq. apply m_star_dot_reach; [exact Hmid|].
    rewrite m_Chr, N.eqb_refl. discriminate. }
  destruct Hword as [<-|[<-|[<-|[<-|[<-|[<-|[]]]]]]]; rewrite ?m_Alt.
  - apply orElse_left. rewrite m_Seq, (m_lits_fold w _ _ _ _ _ Hw).
    apply m_opt_skip. apply Htail.
  - apply orElse_right, orElse_left. rewrite (m_lits_fold w _ _ _ _ _ Hw). apply Htail.
  - do 2 apply orElse_right. apply orElse_left.
    rewrite m_Seq, (m_lits_fold w _ _ _ _ _ Hw). apply m_opt_skip. apply Htail.
  - do 3 apply orElse_right. apply orElse_left.
    rewrite m_Seq, (m_lits_fold w _ _ _ _ _ Hw). apply m_opt_skip. apply Htail.
  - do 4 apply orElse_right. apply orElse_left.
    rewrite (m_lits_fold w _ _ _ _ _ Hw). apply Htail.
  - do 5 apply orElse_right. rewrite (m_lits_fold w _ _ _ _ _ Hw). apply Htail.
Qed.

End GlossFacts.

(** * Facts about the router *)

Module RouterFacts.
Import JS Regex Text Planning Router.

Lemma join_In (sep x : str) (ls : list str) :
  In x ls -> exists pre post, join sep ls = pre ++ x ++ post.
Proof.
  induction ls as [|y ls IH]; [contradiction|].
  intros [->|Hin].
  - destruct ls as [|z ls].
    + exists [], []. simpl. rewrite app_nil_r. reflexivity.
    + exists [], (sep ++ join sep (z :: ls)). reflexivity.
  - destruct (IH Hin) as (pre & post & E). destruct ls as [|z ls]; [contradiction|].
    exists (y ++ sep ++ pre), post.
    change (join sep (y :: z :: ls)) with (y ++ sep ++ join sep (z :: ls)).
    rewrite E. rewrite <- !app_assoc. reflexivity.
Qed.

(** The resume request spells out the token it is given. *)
Lemma resumeRequest_names_token (p : Params) (project token : str) :
  exists pre post,
    resumeRequest p project token
    = pre ++ (u "- resumeToken: " ++ dq ++ token ++ dq) ++ post.
Proof.
  unfold resumeRequest, buildPlanningRequest, buildResumeRequest, lines. cbn [quick action].
  cbv zeta. cbn [Planning.resumeToken orUndefined].
  match goal with
  | |- exists pre post, join ?sep ?ls = _ =>
      destruct (@join_In sep
                  (u "- resumeToken: " ++ dq ++ token ++ dq ++ u " " ++ [8592%N]
                   ++ u " MUST USE THIS EXACT TOKEN") ls) as (pre & post & E)
  end.
  { apply in_or_app. left. do 13 right. left. reflexivity. }
  exists pre, ((u " " ++ [8592%N] ++ u " MUST USE THIS EXACT TOKEN") ++ post).
  rewrite E. rewrite <- !app_assoc. reflexivity.
Qed.

End RouterFacts.

(** * The detector *)

Module DetectorClaims.
Import JS Regex Spec FilterSpec GlossSpec Types Detector Scenarios.
Import StringFacts DetectorFacts EventFacts FilterFacts GlossFacts.

(** C1.  Strength policy of [detectBlocker].  With [sessionEnded = false]
    a blocker is returned only if at least two pattern occurrences
    matched or the primary category is [funding_needed].  For a text
    that passes the length gate: two matched occurrences suffice,
    whatever category they come from; a [funding_needed] primary match
    is reported whatever the number of matched patterns, so also for
    exactly one; and with [sessionEnded = true] any match suffices.
    The realtime check intervenes only on a message for which
    [detectBlocker] with [sessionEnded = false] returned a blocker. *)
Theorem detectBlocker_strength_policy (text : str) :
  let st := scanPatterns (preFilter text) in
  (forall b, detectBlocker text false = Some b ->
     matchedPatterns b = scanMatched st /\
     (2 <= List.length (matchedPatterns b) \/ scanPrimary st = Some (u "funding_needed")))
  /\ (20 <= List.length text -> 2 <= List.length (scanMatched st) ->
      detectBlocker text false <> None)
  /\ (20 <= List.length text -> scanMatched st <> [] ->
      scanPrimary st = Some (u "funding_needed") ->
      detectBlocker text false <> None)
  /\ (20 <= List.length text -> scanMatched st <> [] ->
      detectBlocker text true <> None)
  /\ (forall (oracle : str -> Outcome Interventor.InterventionDecision)
             (event : SessionEvent) (sessionContext : Interventor.SessionContext)
             (result : Interventor.InterventionResult),
        Interventor.checkForRealtimeIntervention oracle event sessionContext
        = Returned result ->
        Interventor.intervened result = true ->
        exists t b, Types.text event = Some t /\ detectBlocker t false = Some b).
Proof.
  intros st. split; [|split; [|split; [|split]]].
  - intros b H. apply detectBlocker_Some in H. cbv zeta in H.
    destruct H as (_ & _ & Hs & ->). split; [reflexivity|].
    simpl. unfold isStrongSignal in Hs. simpl in Hs. apply orb_prop in Hs.
    destruct Hs as [Hs|Hs].
    + left. apply Nat.leb_le. exact Hs.
    + right. apply isFundingRelated_spec. exact Hs.
  - intros Hlen H2. rewrite detectBlocker_unfold by assumption. cbv zeta. fold st.
    destruct (Nat.eqb (List.length (scanMatched st)) 0) eqn:E0.
    { apply Nat.eqb_eq in E0. lia. }
    unfold isStrongSignal, hasMultipleMatches.
    replace (Nat.leb 2 (List.length (scanMatched st))) with true
      by (symmetry; apply Nat.leb_le; exact H2).
    simpl. discriminate.
  - intros Hlen Hne Hf. rewrite detectBlocker_unfold by assumption. cbv zeta. fold st.
    destruct (Nat.eqb (List.length (scanMatched st)) 0) eqn:E0.
    { apply length_zero_nil in E0. contradiction. }
    unfold isStrongSignal. apply isFundingRelated_spec in Hf. rewrite Hf.
    rewrite orb_true_r. simpl. discriminate.
  - intros Hlen Hne. rewrite detectBlocker_unfold by assumption. cbv zeta. fold st.
    destruct (Nat.eqb (List.length (scanMatched st)) 0) eqn:E0.
    { apply length_zero_nil in E0. contradiction. }
    simpl. discriminate.
  - intros oracle event sc result H Hi. unfold Interventor.checkForRealtimeIntervention in H.
    destruct (Types.text event) as [t|]; [|injection H as <-; discriminate].
    destruct (_ || _); [injection H as <-; discriminate|].
    destruct (detectBlocker t false) as [b|] eqn:E; [|injection H as <-; discriminate].
    exists t, b. auto.
Qed.

(** The policy at work: one funding pattern alone is reported during
    the session, two patterns of the category [waiting_for_user] are
    reported, one pattern of another category is reported only once the
    session has ended. *)
Lemma detectBlocker_strength_policy_witness :
  (List.length (scanMatched (scanPatterns (preFilter oneFundingText))) = 1
   /\ detectBlocker oneFundingText false <> None)
  /\ (scanPrimary (scanPatterns (preFilter twoWaitingText)) = Some (u "waiting_for_user")
      /\ detectBlocker twoWaitingText false <> None)
  /\ detectBlocker oneOtherText true <> None
  /\ detectBlocker oneOtherText false = None.
Proof.
  destruct (detectBlocker_strength_policy oneFundingText) as (_ & _ & Hfunding & _ & _).
  destruct (detectBlocker_strength_policy twoWaitingText) as (_ & Htwo & _ & _ & _).
  destruct (detectBlocker_strength_policy oneOtherText) as (Honly & _ & _ & Hended & _).
  split; [|split; [|split]].
  - split; [vm_compute; reflexivity|].
    apply Hfunding; [vm_compute; lia|vm_compute; discriminate|vm_compute; reflexivity].
  - split; [vm_compute; reflexivity|].
    apply Htwo; vm_compute; lia.
  - apply Hended; [vm_compute; lia|vm_compute; discriminate].
  - destruct (detectBlocker oneOtherText false) as [b|] eqn:E; [|reflexivity].
    exfalso. destruct (Honly b eq_refl) as [Hm [H2|Hf]].
    + rewrite Hm in H2. vm_compute in H2. lia.
    + vm_compute in Hf. discriminate.
Defined.

(** C2.  Completion veto.  When the most recent assistant message with
    text carries a completion signal, [checkEventsForBlocker] returns
    nothing, whatever the earlier messages, whatever blocker patterns
    the message itself holds and whatever the window size.  Completion
    signals are, in any case of the letters: finished, done! and
    successfully anywhere in the text; a check mark or a tick followed
    on the same line by ready; all followed on the same line by
    complete. *)
Theorem completion_veto :
  (forall (before after : list SessionEvent) (e : SessionEvent) (t : str)
          (lastNEvents : Z),
      type e = u "assistant_message" ->
      Types.text e = Some t ->
      t <> [] ->
      Forall (fun x => isAssistantText x = false) after ->
      hasCompletionSignal t = true ->
      checkEventsForBlocker (before ++ e :: after) lastNEvents = None)
  /\ (forall pre mid post w w' : str,
        (foldEq w (u "finished") = true \/ foldEq w (u "done!") = true
         \/ foldEq w (u "successfully") = true ->
         hasCompletionSignal (pre ++ w ++ post) = true)
        /\ (sameLine mid -> foldEq w (u "ready") = true ->
            hasCompletionSignal (pre ++ checkMark :: mid ++ w ++ post) = true
            /\ hasCompletionSignal (pre ++ tick :: mid ++ w ++ post) = true)
        /\ (sameLine mid -> foldEq w (u "all") = true ->
            foldEq w' (u "complete") = true ->
            hasCompletionSignal (pre ++ w ++ mid ++ w' ++ post) = true)).
Proof.
  split.
  - intros before after e t lastNEvents Hty Ht Hne Hafter Hsig.
    assert (He : isAssistantText e = true).
    { unfold isAssistantText. rewrite Hty, Ht. destruct t; [contradiction|reflexivity]. }
    unfold checkEventsForBlocker, recentAssistantMessages.
    rewrite (filter_last_assistant before e after He Hafter).
    destruct (sliceLast_last lastNEvents (filter isAssistantText before) e)
      as [-> | [ys ->]].
    + reflexivity.
    + unfold completionVeto. rewrite rev_app_distr. simpl. rewrite Ht, Hsig.
      destruct t; [contradiction|reflexivity].
  - intros pre mid post w w'.
    destruct (completion_phrasings pre mid post w) as [Hword Hready].
    split; [exact Hword|]. split; [exact Hready|].
    intros Hmid H1 H2. apply completion_all_complete; assumption.
Qed.

(** A last message that both announces completion and holds two blocker
    patterns, after an earlier message that asks for funds: nothing is
    reported, although the scan alone would report the last message. *)
Lemma completion_veto_witness :
  scanEvents [assistant completedText; assistant blockedText] <> None
  /\ checkEventsForBlocker [assistant blockedText; assistant completedText]
       defaultLastNEvents = None.
Proof.
  split; [vm_compute; discriminate|].
  destruct completion_veto as [Hveto Hphrasing].
  apply (Hveto [assistant blockedText] [] (assistant completedText)
           completedText defaultLastNEvents).
  - reflexivity.
  - reflexivity.
  - discriminate.
  - constructor.
  - destruct (Hphrasing [] (u " tests ") completedTail (u "All") (u "complete"))
      as (_ & _ & Hall).
    apply Hall.
    + repeat constructor.
    + reflexivity.
    + reflexivity.
Defined.

(** C3.  The funding scenario of the specification is not reported: no
    pattern of the table matches the text, because the first funding
    pattern wants the unit right after need, not an amount in between,
    so the extractors, which would find needed and current, never run. *)
Theorem funding_scenario_not_reported :
  checkEventsForBlocker [fundingEvent] defaultLastNEvents = None
  /\ detectBlocker fundingText true = None
  /\ scanPatterns (preFilter fundingText) = emptyScan
  /\ fold_left (runExtractor fundingText) fundingExtractors []
     = [(u "needed", u "2"); (u "current", u "0.1")].
Proof. vm_compute. repeat split. Qed.

(** C4.  List-item suppression.  The scan passes over a list-like
    message as if it were not there; a reported blocker always comes
    from a message of the window that is not list-like; a window of
    list-like messages reports nothing.  A message is list-like as soon
    as one of its lines, once trimmed, starts with a bullet ([-], [*] or
    [+]) and a whitespace unit, with digits, a dot and a whitespace
    unit, or with a heading word (in any case) followed on the line by a
    colon.  The list item of the specification yields no blocker. *)
Theorem list_items_never_promoted :
  (forall (l1 l2 : list SessionEvent) (e : SessionEvent) (t : str),
      Types.text e = Some t -> isLikelyListItem t = true ->
      scanEvents (l1 ++ e :: l2) = scanEvents (l1 ++ l2))
  /\ (forall (events : list SessionEvent) (lastNEvents : Z) (b : BlockerInfo),
        checkEventsForBlocker events lastNEvents = Some b ->
        exists e t, In e (recentAssistantMessages events lastNEvents)
                    /\ Types.text e = Some t /\ isLikelyListItem t = false
                    /\ detectBlocker t true = Some b)
  /\ (forall (events : list SessionEvent) (lastNEvents : Z),
        Forall (fun e => forall t, Types.text e = Some t -> isLikelyListItem t = true)
               (recentAssistantMessages events lastNEvents) ->
        checkEventsForBlocker events lastNEvents = None)
  /\ (forall (ls : list str) (line : str),
        In line ls -> Forall (fun l => ~ In newline l) ls ->
        (exists mark ws rest,
            trim line = mark :: ws :: rest
            /\ In mark [uc "-"; uc "*"; uc "+"] /\ isSpace ws = true)
        \/ (exists ds ws rest,
               trim line = ds ++ uc "." :: ws :: rest
               /\ ds <> [] /\ forallb isDigit ds = true /\ isSpace ws = true)
        \/ (exists word w mid rest,
               trim line = w ++ mid ++ uc ":" :: rest
               /\ In word ["Task"; "Criteria"; "Signal"; "Example"; "Quantitative";
                           "Qualitative"]%string
               /\ foldEq w (u word) = true /\ sameLine mid) ->
        isLikelyListItem (join [newline] ls) = true)
  /\ isLikelyListItem listItemText = true
  /\ checkEventsForBlocker [listItemEvent] defaultLastNEvents = None.
Proof.
  split; [|split; [|split; [|split; [|split]]]].
  - intros. eapply scanEvents_skip; eassumption.
  - intros events n b H. unfold checkEventsForBlocker in H.
    destruct (completionVeto (recentAssistantMessages events n)); [discriminate|].
    apply scanEvents_In in H. destruct H as (e & t & Hin & Ht).
    exists e, t. split; [|exact Ht]. apply in_rev. exact Hin.
  - intros events n Hall. unfold checkEventsForBlocker.
    destruct (completionVeto (recentAssistantMessages events n)); [reflexivity|].
    destruct (scanEvents (rev (recentAssistantMessages events n))) as [b|] eqn:E;
      [|reflexivity].
    apply scanEvents_In in E. destruct E as (e & t & Hin & Ht & Hl & _).
    apply in_rev in Hin. rewrite Forall_forall in Hall.
    rewrite (Hall e Hin t Ht) in Hl. discriminate.
  - intros ls line Hin Hclean Hshape. apply (list_like_line ls line Hin Hclean).
    destruct Hshape as [(mark & ws & rest & Ht & Hm & Hw)
                       |[(ds & ws & rest & Ht & Hne & Hd & Hw)
                        |(word & w & mid & rest & Ht & Hin' & Hf & Hmid)]].
    + exact (bullet_line line rest mark ws Ht Hm Hw).
    + exact (numbered_line line ds rest ws Ht Hne Hd Hw).
    + exact (heading_line line w mid rest word Ht Hin' Hf Hmid).
  - vm_compute. reflexivity.
  - vm_compute. reflexivity.
Qed.

(** A list item in front of a message that asks for funds: the scan
    reports what it reports without the list item, and that is the
    blocker of the other message. *)
Lemma list_items_never_promoted_witness :
  scanEvents ([] ++ listItemEvent :: [assistant blockedText])
  = scanEvents ([] ++ [assistant blockedText])
  /\ checkEventsForBlocker [assistant blockedText; listItemEvent] defaultLastNEvents
     = detectBlocker blockedText true
  /\ detectBlocker blockedText true <> None.
Proof.
  destruct list_items_never_promoted as (Hskip & Hfrom & _ & _ & _ & _).
  split; [|split].
  - apply (Hskip [] [assistant blockedText] listItemEvent listItemText).
    + reflexivity.
    + vm_compute. reflexivity.
  - destruct (checkEventsForBlocker [assistant blockedText; listItemEvent]
                defaultLastNEvents) as [b|] eqn:E.
    + destruct (Hfrom _ _ _ E) as (e & t & Hin & Ht & Hl & Hd).
      destruct Hin as [<-|[<-|[]]].
      * injection Ht as <-. symmetry. exact Hd.
      * injection Ht as <-. vm_compute in Hl. discriminate.
    + vm_compute in E. discriminate.
  - vm_compute. discriminate.
Defined.

(** C7.  Signal-filter invariant.  Every field of a reported blocker is
    computed from the filtered text alone; the filtered text holds no
    fenced block (the fence pattern no longer matches it) and none of
    its lines is table-like; and any other text with the same filtered
    text that passes the length gate gives the very same blocker, so
    what stood inside fences or table lines cannot show in it. *)
Theorem blocker_built_from_filtered_text (text : str) (sessionEnded : bool)
    (b : BlockerInfo) :
  detectBlocker text sessionEnded = Some b ->
  let clean := preFilter text in
  let st := scanPatterns clean in
  lastMessage b = clean
  /\ matchedPatterns b = scanMatched st
  /\ reason b = extractBlockerReason clean (scanPrimary st)
  /\ extractedContext b
     = match scanContext st with [] => None | _ :: _ => Some (scanContext st) end
  /\ test codeFence clean = false
  /\ Forall (fun line => keepLine line = true) (splitOn newline clean)
  /\ (forall other,
        preFilter other = clean -> 20 <= List.length other ->
        detectBlocker other sessionEnded = Some b).
Proof.
  intros H clean st. pose proof H as H'. apply detectBlocker_Some in H'. cbv zeta in H'.
  fold clean in H'. fold st in H'. destruct H' as (Hlen & Hne & Hs & Hb).
  split; [rewrite Hb; reflexivity|]. split; [rewrite Hb; reflexivity|].
  split; [rewrite Hb; reflexivity|]. split; [rewrite Hb; reflexivity|].
  split; [apply preFilter_no_fence|]. split; [apply preFilter_no_table_line|].
  intros other Hsame Hother. rewrite detectBlocker_unfold by exact Hother.
  rewrite detectBlocker_unfold in H by exact Hlen. cbv zeta in H |- *.
  rewrite Hsame. exact H.
Qed.

(** A message with a fenced request and a table row: the blocker is
    built from the one line outside of them. *)
Lemma blocker_built_from_filtered_text_witness :
  lastMessage (reported fencedText) = (u "We need more SOL to proceed" ++ [newline])%list
  /\ matchedPatterns (reported fencedText)
     = [u "funding_needed:need(s|ed)? (more )?(sol|funds|funding|balance)"]
  /\ test codeFence (preFilter fencedText) = false.
Proof.
  destruct (blocker_built_from_filtered_text fencedText false (reported fencedText))
    as (Hlast & Hmatched & _ & _ & Hfence & _).
  - vm_compute. reflexivity.
  - split; [|split].
    + rewrite Hlast. vm_compute. reflexivity.
    + rewrite Hmatched. vm_compute. reflexivity.
    + exact Hfence.
Defined.

Lemma cannedReason_bound category : List.length (cannedReason category) <= 150.
Proof.
  unfold cannedReason. destruct category as [c|]; [|vm_compute; lia].
  repeat match goal with
         | |- context [if ?b then _ else _] => destruct b
         end; vm_compute; lia.
Qed.

(** C9.  Reason bound.  The reason is at most 150 units long, whether it
    comes from a sentence or from the canned text of the category; and
    when the chosen sentence, trimmed, is longer than 150 units, the
    reason is its first 147 units followed by three dots, 150 units in
    all. *)
Theorem reason_bound (text : str) (category : option str) :
  List.length (extractBlockerReason text category) <= 150
  /\ (forall sentence,
        keywordSentence text = Some sentence ->
        150 < List.length (trim sentence) ->
        extractBlockerReason text category = (slice0 147 (trim sentence) ++ u "...")%list
        /\ List.length (extractBlockerReason text category) = 150
        /\ endsWith (extractBlockerReason text category) (u "...") = true).
Proof.
  split.
  - unfold extractBlockerReason. destruct (keywordSentence text) as [sentence|].
    + cbv zeta. destruct (Nat.leb (List.length (trim sentence)) 150) eqn:E.
      * apply Nat.leb_le. exact E.
      * rewrite length_app. unfold slice0. rewrite length_firstn.
        change (List.length (u "...")) with 3.
        pose proof (Nat.le_min_l 147 (List.length (trim sentence))). lia.
    + apply cannedReason_bound.
  - intros sentence Hs Hlong. unfold extractBlockerReason. rewrite Hs. cbv zeta.
    replace (Nat.leb (List.length (trim sentence)) 150) with false
      by (symmetry; apply Nat.leb_gt; exact Hlong).
    split; [reflexivity|]. split.
    + rewrite length_app. unfold slice0. rewrite length_firstn.
      rewrite Nat.min_l by lia. reflexivity.
    + apply endsWith_app.
Qed.

(** A sentence of 207 units is cut to 150. *)
Lemma reason_bound_witness :
  List.length (extractBlockerReason longSentenceText None) = 150
  /\ endsWith (extractBlockerReason longSentenceText None) (u "...") = true.
Proof.
  destruct (reason_bound longSentenceText None) as [_ Hcut].
  destruct (Hcut longSentenceText) as (_ & Hlen & Hend).
  - vm_compute. reflexivity.
  - apply Nat.ltb_lt. vm_compute. reflexivity.
  - split; assumption.
Defined.

End DetectorClaims.

(** * The oracle wrappers *)

Module OracleClaims.
Import JS Regex Types Detector Assessor Interventor Scenarios DetectorFacts.

(** C6.  Oracle failure.  When the oracle throws, [assessBlocker]
    returns the fallback assessment (a real blocker, confidence one
    half, a reasoning that names the fallback) and
    [checkForRealtimeIntervention] returns a result that does not
    intervene; neither of them ever throws. *)
Theorem oracle_failure_is_caught :
  (forall (oracle : str -> Outcome BlockerAssessment) blocker events status err,
      oracle (buildContextSummary blocker events status) = Thrown err ->
      assessBlocker oracle blocker events status = Returned fallbackAssessment)
  /\ (isRealBlocker fallbackAssessment = true
      /\ confidence fallbackAssessment = QArith_base.Qmake 1 2
      /\ Assessor.reasoning fallbackAssessment
         = u "Assessment failed, defaulting to pattern matching result")
  /\ (forall (oracle : str -> Outcome InterventionDecision) event sessionContext
             text suspected err,
      type event = u "assistant_message" ->
      Types.text event = Some text ->
      detectBlocker text false = Some suspected ->
      oracle (buildInterventionContext suspected text sessionContext) = Thrown err ->
      checkForRealtimeIntervention oracle event sessionContext
      = Returned (mkIntervention false None
                    (u "Intervention assessment failed, escalating to user")))
  /\ (forall (oracle : str -> Outcome BlockerAssessment) blocker events status err,
      assessBlocker oracle blocker events status <> Thrown err)
  /\ (forall (oracle : str -> Outcome InterventionDecision) event sessionContext err,
      checkForRealtimeIntervention oracle event sessionContext <> Thrown err).
Proof.
  split; [|split; [|split; [|split]]].
  - intros oracle blocker events status err H. unfold assessBlocker. rewrite H. reflexivity.
  - repeat split.
  - intros oracle event sc text suspected err Hty Ht Hd Ho.
    unfold checkForRealtimeIntervention. rewrite Ht, Hty.
    assert (Hlen : 20 <= List.length text).
    { apply detectBlocker_Some in Hd. tauto. }
    destruct text as [|c text]; [simpl in Hlen; lia|].
    simpl. rewrite Hd. unfold askDyDoForIntervention. rewrite Ho. reflexivity.
  - intros oracle blocker events status err. unfold assessBlocker.
    destruct (oracle _); discriminate.
  - intros oracle event sc err. unfold checkForRealtimeIntervention.
    destruct (Types.text event) as [text|]; [|discriminate].
    destruct (_ || _); [discriminate|].
    destruct (detectBlocker text false); [|discriminate].
    unfold askDyDoForIntervention. destruct (oracle _) as [d|e].
    + destruct (_ && _); discriminate.
    + simpl. discriminate.
Qed.

(** An oracle that is out of reach, asked about a message that asks for
    funds. *)
Lemma oracle_failure_is_caught_witness :
  assessBlocker failingOracle (reported blockedText) [assistant blockedText] (u "done")
  = Returned fallbackAssessment
  /\ checkForRealtimeIntervention failingOracle (assistant blockedText) sampleContext
     = Returned (mkIntervention false None
                   (u "Intervention assessment failed, escalating to user")).
Proof.
  destruct oracle_failure_is_caught as (Hassess & _ & Hintervene & _ & _).
  split.
  - apply (Hassess failingOracle _ _ _ (u "oracle unreachable")). reflexivity.
  - apply (Hintervene failingOracle (assistant blockedText) sampleContext blockedText
             (reported blockedText) (u "oracle unreachable")).
    + reflexivity.
    + reflexivity.
    + vm_compute. reflexivity.
    + reflexivity.
Defined.

End OracleClaims.

(** * The router *)

Module RouterClaims.
Import JS Regex Spec Text Planning Router RouterSpec Scenarios.
Import MatchFacts ParseFacts HintFacts RouterFacts.

Section Paths.

Variables Session Project : Type.
Variable isReplyToBubble : ChatId -> Z -> option BubbleInfo.
Variable getSession : str -> option Session.
Variable sendSessionInput : str -> str -> bool.
Variable resolveProject : str -> option Project.

(** C5.  Paths of a reply to a known bubble.  For a reply whose bubble
    lookup succeeds: when the
    session is live and accepts the input, the reply text is written to
    the session, a confirmation is sent, nothing is forced and the
    result is [handled_directly]; when the session is not live, or is
    live and refuses the input, the token stored in the bubble is forced
    for the chat, once, and the result is [route_to_dydo] with the
    resume request that names that token.  The text of the original
    message plays no part. *)
Theorem bubble_reply_paths (p : Params) (info : BubbleInfo) :
  isReplyToBubble (chatId p) (replyToMessageId p) = Some info ->
  let handle :=
    handleBubbleReply isReplyToBubble getSession sendSessionInput resolveProject in
  let sid := sessionId info in
  let b := bubble info in
  let logged :=
    LogDyDoCommand (Router.text p) (resumeToken b) (shortOf (Router.text p))
      (projectName b) in
  let attempt :=
    match getSession sid with Some _ => [SendInput sid (Router.text p)] | None => [] end in
  let delivered :=
    match getSession sid with
    | Some _ => sendSessionInput sid (Router.text p)
    | None => false
    end in
  (delivered = true ->
     handle p = ([logged; SendInput sid (Router.text p); confirmation p], handled_directly))
  /\ (delivered = false ->
        handle p
        = ((logged :: attempt
              ++ [SetForcedResumeToken (resumeToken b) (chatIdString (chatId p))])%list,
           route_to_dydo (resumeRequest p (projectName b) (resumeToken b)))
        /\ exists pre post,
             resumeRequest p (projectName b) (resumeToken b)
             = (pre ++ (u "- resumeToken: " ++ dq ++ resumeToken b ++ dq) ++ post)%list)
  /\ (forall original, handle (withOriginal p original) = handle p).
Proof.
  intros Hinfo handle sid b logged attempt delivered.
  subst handle. unfold handleBubbleReply.
  split; [|split].
  - intros Hd. rewrite Hinfo. subst delivered attempt. fold sid b.
    destruct (getSession sid) as [s|]; [|discriminate].
    rewrite Hd. reflexivity.
  - intros Hd. split; [|apply resumeRequest_names_token].
    rewrite Hinfo. subst delivered attempt. fold sid b.
    destruct (getSession sid) as [s|].
    + rewrite Hd. reflexivity.
    + reflexivity.
  - intros original. unfold withOriginal.
    cbn [chatId replyToMessageId Router.text threadId].
    rewrite Hinfo. reflexivity.
Qed.

End Paths.

(** A session that has exited: the token of the bubble is forced for
    chat 42 and the reply is routed on. *)
Lemma bubble_reply_paths_witness :
  handleBubbleReply (fun _ _ => Some sampleBubble) (fun _ => @None unit)
    (fun _ _ => true) (fun _ => @None unit) sampleReply
  = ([LogDyDoCommand (u "run the tests again") sampleToken (u "run the tests again")
        (u "my-project");
      SetForcedResumeToken sampleToken (u "42")],
     route_to_dydo (resumeRequest sampleReply (u "my-project") sampleToken)).
Proof.
  destruct (bubble_reply_paths unit unit (fun _ _ => Some sampleBubble) (fun _ => None)
              (fun _ _ => true) (fun _ => None) sampleReply sampleBubble eq_refl)
    as (_ & Hgone & _).
  destruct (Hgone eq_refl) as [E _]. exact E.
Defined.

(** C5, that a live session always means [handled_directly], does not
    hold: a session that is live but refuses the input is routed on. *)
Lemma live_session_may_still_reconstruct :
  ~ (forall (isReplyToBubble : ChatId -> Z -> option BubbleInfo)
            (getSession : str -> option unit) (sendSessionInput : str -> str -> bool)
            (resolveProject : str -> option unit) (p : Params) (info : BubbleInfo)
            (live : unit),
        isReplyToBubble (chatId p) (replyToMessageId p) = Some info ->
        getSession (sessionId info) = Some live ->
        snd (handleBubbleReply isReplyToBubble getSession sendSessionInput
               resolveProject p) = handled_directly).
Proof.
  intros H.
  specialize (H (fun _ _ => Some sampleBubble) (fun _ => Some tt) (fun _ _ => false)
                (fun _ => None) sampleReply sampleBubble tt eq_refl eq_refl).
  vm_compute in H. discriminate.
Qed.

(** C8.  Fallback text extraction.  In a stored text whose first resume
    hint carries the token 123e4567-e89b-12d3-a456-426614174000 and
    whose first [ctx:] marker starts the line [ctx: my-project @main],
    the parser finds that token and the project name
    [my-project @main]. *)
Theorem fallback_extraction (text post : str) (i j : nat) :
  indexOf hintPrefix text = Some i ->
  firstn 36 (skipn (i + 16) text) = sampleToken ->
  indexOf (u "ctx:") text = Some j ->
  skipn (j + 4) text = (u " my-project @main" ++ post)%list ->
  post = [] \/ (exists post', post = 10%N :: post') ->
  parseResumeTokenFromMessage (Some text)
  = Some (mkResumeInfo sampleToken (u "my-project @main")).
Proof.
  intros Hi Htok Hj Hline Hpost.
  assert (Hne : truthy text = true).
  { destruct text; [discriminate Hi|reflexivity]. }
  destruct (indexOf_Some _ _ _ Hi) as (Hile & Hist & Hibefore).
  assert (Hresume : exists mr, exec resumeHint text = Some mr
                               /\ group 1 mr = Some sampleToken).
  { eexists. split.
    - unfold exec.
      apply (execFrom_leftmost resumeHint text i 0)
        with (rest := skipn 36 (skipn 16 (skipn i text))) (c := [(1, sampleToken)]).
      + exact Hile.
      + intros k Hk. change (ignoreCase resumeHint) with false. rewrite ast_resumeHint.
        apply matchAt_needs_literal. apply Hibefore. exact Hk.
      + change (ignoreCase resumeHint) with false. rewrite matchAt_resumeHint. cbv zeta.
        rewrite Hist, skipn_skipn. replace (16 + i) with (i + 16) by lia. rewrite Htok.
        assert (Hlen : 36 <= List.length (skipn (i + 16) text)).
        { pose proof (f_equal (@List.length N) Htok) as Hl. rewrite length_firstn in Hl.
          change (List.length sampleToken) with 36 in Hl. lia. }
        apply Nat.leb_le in Hlen. rewrite Hlen. reflexivity.
    - reflexivity. }
  destruct Hresume as (mr & Hexec & Hgroup).
  destruct (ctx_line_match (j + 4) post Hpost) as (e & rest & Hctx).
  assert (Hctxexec : exists mc, exec ctxHint text = Some mc
                                /\ group 1 mc = Some (u "my-project @main")).
  { eexists. split.
    - apply (exec_literal_first ctxHint (u "ctx:") _ text j e rest
               [(1, u "my-project @main")] eq_refl ast_ctxHint Hj).
      change (List.length (u "ctx:")) with 4. rewrite skipn_skipn.
      replace (4 + j) with (j + 4) by lia. rewrite Hline. exact Hctx.
    - reflexivity. }
  destruct Hctxexec as (mc & Hcexec & Hcgroup).
  unfold parseResumeTokenFromMessage. rewrite Hne. cbn [negb].
  rewrite Hexec, Hcexec, Hgroup, Hcgroup. reflexivity.
Qed.

(** A status card with its context line and its resume hint. *)
Lemma fallback_extraction_witness :
  parseResumeTokenFromMessage (Some storedText)
  = Some (mkResumeInfo sampleToken (u "my-project @main")).
Proof.
  apply (fallback_extraction storedText
           (10%N :: u "`claude --resume 123e4567-e89b-12d3-a456-426614174000`") 43 20).
  - vm_compute. reflexivity.
  - vm_compute. reflexivity.
  - vm_compute. reflexivity.
  - vm_compute. reflexivity.
  - right. eexists. reflexivity.
Defined.

(** C10.  Token without project hint.  A stored text in which the
    resume-hint pattern is found, and neither the [ctx:] pattern nor the
    status-header pattern is, parses to a 36-unit token that stands
    behind the hint in the text and to the project name [unknown]; a
    reply to such a message is never classified [not_bubble_reply].
    The resume hint is found in every text that holds the literal
    followed by 36 token units; the [ctx:] pattern is not found in a
    text without [ctx:]; the header pattern is not found in a text with
    neither status word between double stars. *)
Theorem token_without_project_hint :
  (forall text : str,
      test resumeHint text = true ->
      test ctxHint text = false ->
      test headerHint text = false ->
      exists token,
        parseResumeTokenFromMessage (Some text) = Some (mkResumeInfo token (u "unknown"))
        /\ List.length token = 36
        /\ forallb isTokenUnit token = true
        /\ includes text (hintPrefix ++ token) = true
        /\ forall (Session Project : Type)
                  (isReplyToBubble : ChatId -> Z -> option BubbleInfo)
                  (getSession : str -> option Session)
                  (sendSessionInput : str -> str -> bool)
                  (resolveProject : str -> option Project) (p : Params),
             originalMessageText p = Some text ->
             snd (handleBubbleReply isReplyToBubble getSession sendSessionInput
                    resolveProject p) <> not_bubble_reply)
  /\ (forall pre token post : str,
        List.length token = 36 -> forallb isTokenUnit token = true ->
        test resumeHint (pre ++ hintPrefix ++ token ++ post) = true)
  /\ (forall text : str, includes text (u "ctx:") = false -> test ctxHint text = false)
  /\ (forall text : str,
        includes text (u "**working**") = false -> includes text (u "**done**") = false ->
        test headerHint text = false).
Proof.
  split; [|split; [exact contains_hint|split; [exact no_ctx_marker|exact no_status_header]]].
  intros text Hres Hctx Hhdr. unfold test in Hres, Hctx, Hhdr.
  destruct (exec resumeHint text) as [mr|] eqn:Er; [|discriminate].
  destruct (exec ctxHint text) eqn:Ec; [discriminate|].
  destruct (exec headerHint text) eqn:Eh; [discriminate|].
  destruct (exec_resumeHint text mr Er) as (token & Hg & Hl & Hf & Hinc).
  assert (Hne : truthy text = true).
  { destruct text; [discriminate Er|reflexivity]. }
  assert (Hparse : parseResumeTokenFromMessage (Some text)
                   = Some (mkResumeInfo token (u "unknown"))).
  { unfold parseResumeTokenFromMessage. rewrite Hne. cbn [negb].
    rewrite Er, Ec, Eh, Hg. reflexivity. }
  exists token. repeat split; try assumption.
  intros Session Project isReply getSession send resolve p Hp.
  unfold handleBubbleReply.
  destruct (isReply (chatId p) (replyToMessageId p)) as [info|].
  - cbv zeta. destruct (getSession (sessionId info)); [destruct (send _ _)|];
      simpl; discriminate.
  - rewrite Hp, Hparse. destruct (resolve _); simpl; discriminate.
Qed.

(** A help line with nothing but the resume hint. *)
Lemma token_without_project_hint_witness :
  exists token,
    parseResumeTokenFromMessage (Some bareHintText)
    = Some (mkResumeInfo token (u "unknown"))
    /\ includes bareHintText (hintPrefix ++ token) = true.
Proof.
  destruct token_without_project_hint as (Hparse & Hhint & Hctx & Hheader).
  destruct (Hparse bareHintText) as (token & Htoken & _ & _ & Hinc & _).
  - apply (Hhint (u "To pick it up again: ") sampleToken []); reflexivity.
  - apply Hctx. vm_compute. reflexivity.
  - apply Hheader; vm_compute; reflexivity.
  - exists token. split; assumption.
Defined.

End RouterClaims.

(** * Further properties of the code *)

(** ** The pattern scan and the pre-filter *)

Module ScanFacts.
Import JS Regex Types Detector MoreSpec DetectorFacts.

Lemma str_eqb_eq (a b : str) : str_eqb a b = true <-> a = b.
Proof.
  revert b. induction a as [|x a IH]; intros [|y b]; simpl; split; intros H;
    try reflexivity; try discriminate.
  - apply andb_true_iff in H. destruct H as [H1 H2].
    apply N.eqb_eq in H1. apply IH in H2. congruence.
  - injection H as -> ->. rewrite N.eqb_refl. simpl. apply IH. reflexivity.
Qed.

Lemma str_eqb_refl (a : str) : str_eqb a a = true.
Proof. apply str_eqb_eq. reflexivity. Qed.

Lemma stepCategory_pairs text cat :
  forall ps st,
    fold_left (stepPattern text cat) ps st
    = fold_left (stepPair text) (map (fun p => (cat, p)) ps) st.
Proof. induction ps as [|p ps IH]; intros st; simpl; [reflexivity|apply IH]. Qed.

Lemma scan_pairs text :
  forall cats st,
    fold_left (stepCategory text) cats st
    = fold_left (stepPair text)
        (flat_map (fun cat => map (fun p => (cat, p)) (patterns cat)) cats) st.
Proof.
  induction cats as [|cat cats IH]; intros st; [reflexivity|].
  cbn [fold_left flat_map]. rewrite fold_left_app, IH. unfold stepCategory.
  rewrite stepCategory_pairs. reflexivity.
Qed.

Lemma scanPatterns_pairs text :
  scanPatterns text = fold_left (stepPair text) tablePatterns emptyScan.
Proof. apply scan_pairs. Qed.

Lemma scanMatched_pairs text :
  forall l st,
    scanMatched (fold_left (stepPair text) l st)
    = (scanMatched st ++ map label (filter (found text) l))%list.
Proof.
  induction l as [|cp l IH]; intros st.
  - simpl. rewrite app_nil_r. reflexivity.
  - cbn [fold_left filter]. rewrite IH.
    unfold stepPair at 1, stepPattern, found at 2.
    destruct (test (snd cp) text); [|reflexivity].
    cbn [scanMatched map]. rewrite <- app_assoc. reflexivity.
Qed.

Lemma scanPrimary_pairs text :
  forall l st,
    Forall named l -> settled st ->
    scanPrimary (fold_left (stepPair text) l st)
    = match scanPrimary st with
      | Some c => Some c
      | None => option_map (fun cp => category (fst cp)) (head (filter (found text) l))
      end.
Proof.
  induction l as [|cp l IH]; intros st Hl Hst.
  - simpl. destruct (scanPrimary st); reflexivity.
  - inversion Hl as [|? ? Hcp Hl']; subst.
    unfold settled in Hst. cbn [fold_left filter].
    rewrite IH; [|exact Hl'|].
    + unfold stepPair, stepPattern, found at 2.
      destruct (test (snd cp) text); [|reflexivity].
      cbn [scanPrimary head option_map].
      destruct (scanPrimary st) as [c|]; [rewrite Hst|]; reflexivity.
    + unfold settled, stepPair, stepPattern.
      destruct (test (snd cp) text); [|exact Hst].
      cbn [scanPrimary].
      destruct (scanPrimary st) as [c|]; [rewrite Hst; exact Hst|exact Hcp].
Qed.

Lemma table_named : Forall named tablePatterns.
Proof. unfold named. repeat constructor. Qed.

Lemma scanMatched_found text : scanMatched (scanPatterns text) = map label (foundIn text).
Proof. rewrite scanPatterns_pairs, scanMatched_pairs. reflexivity. Qed.

Lemma scanPrimary_found text :
  scanPrimary (scanPatterns text)
  = option_map (fun cp => category (fst cp)) (head (foundIn text)).
Proof.
  rewrite scanPatterns_pairs, scanPrimary_pairs; [reflexivity|apply table_named|exact I].
Qed.

End ScanFacts.

Module ContextFacts.
Import JS Regex Types Detector MoreSpec DetectorFacts ScanFacts.

Lemma setField_keys field v :
  forall ctx,
    keys (setField field v ctx) = keys ctx
    \/ (keys (setField field v ctx) = (keys ctx ++ [field])%list /\ ~ In field (keys ctx)).
Proof.
  unfold keys. induction ctx as [|[k w] ctx IH]; cbn [setField].
  - right. split; [reflexivity|simpl; tauto].
  - destruct (str_eqb k field) eqn:E; cbn [map fst].
    + left. reflexivity.
    + destruct IH as [IH|[IH Hn]].
      * left. rewrite IH. reflexivity.
      * right. rewrite IH. split; [reflexivity|].
        intros [H|H]; [|exact (Hn H)].
        subst k. rewrite str_eqb_refl in E. discriminate.
Qed.

Lemma setField_NoDup field v ctx : NoDup (keys ctx) -> NoDup (keys (setField field v ctx)).
Proof.
  intros H. destruct (setField_keys field v ctx) as [E|[E Hn]]; rewrite E; [exact H|].
  apply NoDup_app; [exact H|repeat constructor; simpl; tauto|].
  intros x Hx [Hx'|[]]. subst x. exact (Hn Hx).
Qed.

Lemma setField_Forall (Q : str * str -> Prop) field v :
  Q (field, v) -> forall ctx, Forall Q ctx -> Forall Q (setField field v ctx).
Proof.
  intros Hq. induction ctx as [|[k w] ctx IH]; intros H; simpl.
  - constructor; [exact Hq|constructor].
  - inversion H as [|? ? Hk Hrest]; subst.
    destruct (str_eqb k field) eqn:E.
    + apply str_eqb_eq in E. subst k. constructor; assumption.
    + constructor; [exact Hk|apply IH; exact Hrest].
Qed.

Lemma runExtractor_sound exs text ctx ex :
  In ex exs -> sound exs text ctx -> sound exs text (runExtractor text ctx ex).
Proof.
  intros Hin [Hnd Hall]. unfold runExtractor.
  destruct (exec (pattern ex) text) as [mr|] eqn:E; [|split; assumption].
  destruct (group 1 mr) as [v|] eqn:G; [|split; assumption].
  destruct v as [|x v]; [split; assumption|]. cbn [truthy].
  split; [apply setField_NoDup; exact Hnd|].
  apply setField_Forall; [|exact Hall].
  split; [discriminate|]. exists ex, mr. simpl. auto.
Qed.

Lemma runExtractors_sound exs text :
  forall l ctx, incl l exs -> sound exs text ctx ->
    sound exs text (fold_left (runExtractor text) l ctx).
Proof.
  induction l as [|ex l IH]; intros ctx Hl H; simpl; [exact H|].
  apply IH; [intros x Hx; apply Hl; right; exact Hx|].
  apply runExtractor_sound; [apply Hl; left; reflexivity|exact H].
Qed.

Lemma scanContext_sound exs text :
  forall l st,
    Forall (extractorsWithin exs) l -> sound exs text (scanContext st) ->
    sound exs text (scanContext (fold_left (stepPair text) l st)).
Proof.
  induction l as [|cp l IH]; intros st Hl H; [exact H|].
  inversion Hl as [|? ? Hcp Hl']; subst. cbn [fold_left]. apply IH; [exact Hl'|].
  unfold stepPair, stepPattern. destruct (test (snd cp) text); [|exact H].
  cbn [scanContext]. unfold extractorsWithin in Hcp.
  destruct (extractors (fst cp)) as [exs'|]; [|exact H].
  apply runExtractors_sound; assumption.
Qed.

Lemma scanContext_source text :
  forall l st,
    scanContext (fold_left (stepPair text) l st) <> scanContext st ->
    exists cp, In cp (filter (found text) l) /\ extractors (fst cp) <> None.
Proof.
  induction l as [|cp l IH]; intros st H; [exfalso; apply H; reflexivity|].
  cbn [fold_left filter] in *. change (found text cp) with (test (snd cp) text).
  unfold stepPair at 2, stepPattern in H.
  destruct (test (snd cp) text) eqn:T.
  - destruct (extractors (fst cp)) as [exs|] eqn:X.
    + exists cp. split; [left; reflexivity|]. rewrite X. discriminate.
    + destruct (IH _ H) as [cp' [Hin Hx]]. exists cp'. split; [right; exact Hin|exact Hx].
  - destruct (IH _ H) as [cp' [Hin Hx]]. exists cp'. split; [exact Hin|exact Hx].
Qed.

Lemma table_extractors : Forall (extractorsWithin fundingExtractors) tablePatterns.
Proof.
  unfold tablePatterns, BLOCKER_PATTERNS. cbn [flat_map].
  repeat (apply Forall_app; split);
    try (apply Forall_forall; intros cp Hcp; apply in_map_iff in Hcp;
         destruct Hcp as [p [<- _]]; unfold extractorsWithin; cbn [fst extractors];
         try exact I; intros x Hx; exact Hx).
  constructor.
Qed.

Lemma table_funding cp :
  In cp tablePatterns -> extractors (fst cp) <> None ->
  fst cp = funding_needed /\ In (snd cp) (patterns funding_needed).
Proof.
  unfold tablePatterns. intros Hin Hx. apply in_flat_map in Hin.
  destruct Hin as [cat [Hcat Hcp]]. apply in_map_iff in Hcp.
  destruct Hcp as [p [<- Hp]]. cbn [fst snd] in *.
  unfold BLOCKER_PATTERNS in Hcat. cbn [In] in Hcat.
  destruct Hcat as [<-|[<-|[<-|[<-|[<-|[]]]]]];
    try (exfalso; apply Hx; reflexivity).
  split; [reflexivity|exact Hp].
Qed.

Lemma scanContext_table text :
  let ctx := scanContext (scanPatterns text) in
  sound fundingExtractors text ctx
  /\ (ctx <> [] -> exists p, In p (patterns funding_needed) /\ test p text = true).
Proof.
  cbv zeta. rewrite scanPatterns_pairs. split.
  - apply scanContext_sound; [apply table_extractors|]. split; constructor.
  - intros H. destruct (scanContext_source text tablePatterns emptyScan H) as [cp [Hin Hx]].
    apply filter_In in Hin. destruct Hin as [Hin Hf].
    destruct (table_funding cp Hin Hx) as [_ Hp]. exists (snd cp). split; [exact Hp|exact Hf].
Qed.

Lemma extractor_fields ex : In ex fundingExtractors -> In (field ex) extractorFields.
Proof.
  unfold fundingExtractors. cbn [extractors funding_needed In].
  intros [<-|[<-|[<-|[]]]]; cbn [field extractorFields In]; auto.
Qed.

End ContextFacts.

Module ShrinkFacts.
Import JS Regex Spec Types Detector MoreSpec FilterFacts.

Lemma replaceAll_absent rx rep s : test rx s = false -> replaceAll rx rep s = s.
Proof.
  unfold test, exec, replaceAll. cbn [replaceAllFrom].
  destruct (execFrom rx 0 s); [discriminate|reflexivity].
Qed.

Lemma replaceAllFrom_shorter rx :
  forall fuel pos s, List.length (replaceAllFrom fuel rx [] pos s) <= List.length s.
Proof.
  induction fuel as [|fuel IH]; intros pos s; cbn [replaceAllFrom]; [lia|].
  destruct (execFrom rx pos s) as [mr|]; [|lia].
  destruct (matched mr) as [|x w] eqn:Em.
  - destruct (skipn (index mr - pos) s) as [|ch rest] eqn:Es.
    + rewrite app_nil_r, length_firstn. lia.
    + cbn [app]. rewrite length_app. cbn [List.length].
      specialize (IH (S (index mr)) rest).
      assert (Hs : List.length s
                   = List.length (firstn (index mr - pos) s)
                     + List.length (skipn (index mr - pos) s)).
      { rewrite <- length_app, firstn_skipn. reflexivity. }
      rewrite Es in Hs. cbn [List.length] in Hs. lia.
  - cbn [app]. rewrite length_app.
    specialize (IH (index mr + List.length (x :: w))
                  (skipn (index mr + List.length (x :: w) - pos) s)).
    rewrite length_skipn in IH. rewrite length_firstn. lia.
Qed.

Lemma join_filter_shorter (c : N) (f : str -> bool) :
  forall ls, List.length (join [c] (filter f ls)) <= List.length (join [c] ls).
Proof.
  induction ls as [|x ls IH]; [simpl; lia|].
  destruct ls as [|y ls].
  - cbn [filter]. destruct (f x); simpl; lia.
  - rewrite (join_cons [c] x (y :: ls)) by discriminate.
    cbn [filter] in *. destruct (f x).
    + destruct (if f y then y :: filter f ls else filter f ls) as [|z zs] eqn:E.
      * cbn [join]. rewrite length_app. lia.
      * rewrite (join_cons [c] x (z :: zs)) by discriminate.
        rewrite !length_app. lia.
    + rewrite !length_app. lia.
Qed.

Lemma preFilter_shorter text : List.length (preFilter text) <= List.length text.
Proof.
  unfold preFilter. cbv zeta.
  eapply Nat.le_trans; [apply join_filter_shorter|].
  rewrite join_splitOn. apply replaceAllFrom_shorter.
Qed.

Lemma filter_all {A} (f : A -> bool) (ls : list A) :
  Forall (fun x => f x = true) ls -> filter f ls = ls.
Proof.
  induction 1 as [|x ls Hx _ IH]; simpl; [reflexivity|]. rewrite Hx, IH. reflexivity.
Qed.

Lemma preFilter_fixed text :
  test codeFence text = false ->
  Forall (fun line => keepLine line = true) (splitOn newline text) ->
  preFilter text = text.
Proof.
  intros Hf Hl. unfold preFilter. cbv zeta.
  rewrite (replaceAll_absent codeFence [] text Hf), (filter_all keepLine _ Hl).
  apply join_splitOn.
Qed.

End ShrinkFacts.

Module TrimFacts.
Import JS.

Lemma trimStart_head s :
  trimStart s = [] \/ exists x r, trimStart s = x :: r /\ isSpace x = false.
Proof.
  induction s as [|c s IH]; simpl; [left; reflexivity|].
  destruct (isSpace c) eqn:E; [exact IH|]. right. exists c, s. split; [reflexivity|exact E].
Qed.

Lemma trimStart_keeps (a : str) (x : N) (b : str) :
  isSpace x = false -> exists a', trimStart (a ++ x :: b) = (a' ++ x :: b)%list.
Proof.
  intros Hx. induction a as [|c a IH]; simpl.
  - rewrite Hx. exists []. reflexivity.
  - destruct (isSpace c); [exact IH|]. exists (c :: a). reflexivity.
Qed.

Lemma trimStart_suffix s : exists w, s = (w ++ trimStart s)%list.
Proof.
  induction s as [|c s [w IH]]; simpl; [exists []; reflexivity|].
  destruct (isSpace c); [|exists []; reflexivity].
  exists (c :: w). simpl. f_equal. exact IH.
Qed.

Lemma trimStart_length s : List.length (trimStart s) <= List.length s.
Proof.
  destruct (trimStart_suffix s) as [w H]. rewrite H at 2. rewrite length_app. lia.
Qed.

Lemma trim_length s : List.length (trim s) <= List.length s.
Proof.
  unfold trim, trimEnd. rewrite length_rev.
  eapply Nat.le_trans; [apply trimStart_length|]. rewrite length_rev. apply trimStart_length.
Qed.

(** A trimmed text starts with a unit that is not white space. *)
Lemma trim_head s : trim s = [] \/ exists x r, trim s = x :: r /\ isSpace x = false.
Proof.
  unfold trim, trimEnd.
  destruct (trimStart_head s) as [E|[x [r [E Hx]]]]; rewrite E.
  - left. reflexivity.
  - right. cbn [rev].
    destruct (trimStart_keeps (rev r) x [] Hx) as [a' Ha]. rewrite Ha.
    rewrite rev_app_distr. cbn [rev app]. exists x, (rev a'). split; [reflexivity|exact Hx].
Qed.

End TrimFacts.

Module WindowFacts.
Import JS Regex Types Detector MoreSpec DetectorFacts EventFacts.

Lemma sliceLast_app {A} (n : Z) (a b : list A) :
  (0 < n)%Z -> Z.to_nat n <= List.length b -> sliceLast n (a ++ b) = sliceLast n b.
Proof.
  intros Hn Hb. unfold sliceLast. destruct (0 <? n)%Z eqn:E; [|apply Z.ltb_ge in E; lia].
  rewrite length_app, skipn_app.
  replace (List.length a + List.length b - Z.to_nat n - List.length a)
    with (List.length b - Z.to_nat n) by lia.
  rewrite skipn_all2 by lia. reflexivity.
Qed.

Lemma sliceLast_whole {A} (n : Z) (xs : list A) :
  (Z.of_nat (List.length xs) <= n)%Z -> sliceLast n xs = xs.
Proof.
  intros H. unfold sliceLast. destruct (0 <? n)%Z eqn:E.
  - replace (List.length xs - Z.to_nat n) with 0 by lia. reflexivity.
  - apply Z.ltb_ge in E. replace (Z.to_nat (- n)) with 0 by lia. reflexivity.
Qed.

Lemma sliceLast_zero {A} (xs : list A) : sliceLast 0 xs = xs.
Proof. reflexivity. Qed.

Lemma filter_length_le {A} (f : A -> bool) (xs : list A) :
  List.length (filter f xs) <= List.length xs.
Proof. induction xs as [|x xs IH]; simpl; [lia|]. destruct (f x); simpl; lia. Qed.

Lemma filter_twice {A} (f : A -> bool) (xs : list A) : filter f (filter f xs) = filter f xs.
Proof.
  induction xs as [|x xs IH]; simpl; [reflexivity|].
  destruct (f x) eqn:E; simpl; [rewrite E, IH|]; auto.
Qed.

Lemma scanEvents_first :
  forall evs b,
    scanEvents evs = Some b ->
    exists l1 e l2 t,
      evs = (l1 ++ e :: l2)%list /\ Forall silent l1
      /\ Types.text e = Some t /\ isLikelyListItem t = false
      /\ detectBlocker t true = Some b.
Proof.
  induction evs as [|e evs IH]; intros b H; [discriminate|].
  cbn [scanEvents] in H.
  assert (Hrest : scanEvents evs = Some b -> silent e ->
          exists l1 e0 l2 t,
            (e :: evs) = (l1 ++ e0 :: l2)%list /\ Forall silent l1
            /\ Types.text e0 = Some t /\ isLikelyListItem t = false
            /\ detectBlocker t true = Some b).
  { intros Hs He. destruct (IH b Hs) as (l1 & e0 & l2 & t & -> & Hl1 & Ht & Hl & Hd).
    exists (e :: l1), e0, l2, t. repeat split; try assumption.
    constructor; assumption. }
  destruct (Types.text e) as [t|] eqn:Et.
  - destruct (truthy t) eqn:Tt; cbn [negb] in H.
    + destruct (isLikelyListItem t) eqn:Li.
      * apply Hrest; [exact H|]. intros t' Ht'. rewrite Et in Ht'. injection Ht' as <-.
        left. exact Li.
      * destruct (detectBlocker t true) as [b'|] eqn:D.
        -- injection H as <-. exists [], e, evs, t. repeat split; try assumption. constructor.
        -- apply Hrest; [exact H|]. intros t' Ht'. rewrite Et in Ht'. injection Ht' as <-.
           right. exact D.
    + apply Hrest; [exact H|]. intros t' Ht'. rewrite Et in Ht'. injection Ht' as <-.
      right. destruct t; [reflexivity|discriminate].
  - apply Hrest; [exact H|]. intros t' Ht'. rewrite Et in Ht'. discriminate.
Qed.

End WindowFacts.

Module DetectorExtras.
Import JS Regex Spec Types Detector MoreSpec Scenarios.
Import DetectorFacts ScanFacts ContextFacts FilterFacts ShrinkFacts TrimFacts WindowFacts.

(** X1.  The end of the session only widens what [detectBlocker]
    reports: a blocker reported while the session runs is reported
    unchanged once it has ended, and a blocker reported after the end is
    either reported unchanged or not at all while the session runs. *)
Theorem ended_session_reports_more (text : str) (b : BlockerInfo) :
  (detectBlocker text false = Some b -> detectBlocker text true = Some b)
  /\ (detectBlocker text true = Some b ->
      detectBlocker text false = Some b \/ detectBlocker text false = None).
Proof.
  split; intros H; destruct (detectBlocker_Some _ _ _ H) as (Hlen & Hm & Hs & Hb);
    cbv zeta in *.
  - rewrite detectBlocker_unfold by exact Hlen. cbv zeta.
    destruct (Nat.eqb (List.length (scanMatched (scanPatterns (preFilter text)))) 0) eqn:E.
    + apply length_zero_nil in E. contradiction.
    + unfold isStrongSignal. cbn [orb negb]. symmetry. f_equal. exact Hb.
  - rewrite detectBlocker_unfold by exact Hlen. cbv zeta.
    destruct (Nat.eqb (List.length (scanMatched (scanPatterns (preFilter text)))) 0) eqn:E.
    + right. reflexivity.
    + destruct (isStrongSignal false (scanPatterns (preFilter text))); cbn [negb].
      * left. symmetry. f_equal. exact Hb.
      * right. reflexivity.
Qed.

(** A request for funds is reported while the session runs, hence also
    after its end. *)
Lemma ended_session_reports_more_witness :
  detectBlocker blockedText true = Some (reported blockedText).
Proof.
  apply (proj1 (ended_session_reports_more blockedText (reported blockedText))).
  vm_compute. reflexivity.
Defined.

(** X2.  The patterns a blocker lists are exactly the patterns of the
    table that are found in the filtered text, each written
    [category:source], in table order and without omission; there is at
    least one, and the category handed to the reason is the category of
    the first. *)
Theorem matched_patterns_in_table_order (text : str) (sessionEnded : bool)
    (b : BlockerInfo) :
  detectBlocker text sessionEnded = Some b ->
  matchedPatterns b = map label (foundIn (lastMessage b))
  /\ exists cp rest,
       foundIn (lastMessage b) = cp :: rest
       /\ In cp tablePatterns
       /\ reason b = extractBlockerReason (lastMessage b) (Some (category (fst cp))).
Proof.
  intros H. destruct (detectBlocker_Some _ _ _ H) as (_ & Hm & _ & Hb). cbv zeta in *.
  subst b. cbn [matchedPatterns lastMessage reason].
  split; [apply scanMatched_found|].
  rewrite scanMatched_found in Hm. rewrite scanPrimary_found.
  destruct (foundIn (preFilter text)) as [|cp rest] eqn:E; [contradiction Hm; reflexivity|].
  exists cp, rest. split; [reflexivity|]. split; [|reflexivity].
  assert (Hin : In cp (foundIn (preFilter text))) by (rewrite E; left; reflexivity).
  unfold foundIn in Hin. apply filter_In in Hin. apply Hin.
Qed.

(** Two patterns of one message, in the order of the table. *)
Lemma matched_patterns_in_table_order_witness :
  matchedPatterns (reported twoWaitingText)
  = map label (foundIn (lastMessage (reported twoWaitingText))).
Proof.
  apply (matched_patterns_in_table_order twoWaitingText false (reported twoWaitingText)).
  vm_compute. reflexivity.
Defined.

(** X3.  The extracted context of a blocker is never an empty object:
    its keys are distinct and among wallet, needed and current; every
    value is the non-empty first group of the first match of the
    extractor of its key in the filtered text; and a context is only
    there when a funding pattern was found in the filtered text. *)
Theorem extracted_context_shape (text : str) (sessionEnded : bool) (b : BlockerInfo)
    (ctx : Context) :
  detectBlocker text sessionEnded = Some b ->
  extractedContext b = Some ctx ->
  ctx <> [] /\ NoDup (keys ctx) /\ incl (keys ctx) extractorFields
  /\ (forall k v, In (k, v) ctx ->
        v <> []
        /\ exists ex mr,
             In ex fundingExtractors /\ field ex = k
             /\ exec (pattern ex) (lastMessage b) = Some mr /\ group 1 mr = Some v)
  /\ exists p, In p (patterns funding_needed) /\ test p (lastMessage b) = true.
Proof.
  intros H Hctx. destruct (detectBlocker_Some _ _ _ H) as (_ & _ & _ & Hb). cbv zeta in *.
  subst b. cbn [extractedContext lastMessage] in *.
  destruct (scanContext_table (preFilter text)) as [[Hnd Hall] Hsrc]. cbv zeta in *.
  destruct (scanContext (scanPatterns (preFilter text))) as [|kv rest] eqn:E; [discriminate|].
  injection Hctx as <-.
  assert (Hkv : forall k v, In (k, v) (kv :: rest) ->
            v <> []
            /\ exists ex mr,
                 In ex fundingExtractors /\ field ex = k
                 /\ exec (pattern ex) (preFilter text) = Some mr /\ group 1 mr = Some v).
  { intros k v Hin. rewrite Forall_forall in Hall. exact (Hall (k, v) Hin). }
  split; [discriminate|]. split; [exact Hnd|]. split; [|split; [exact Hkv|]].
  - intros k Hk. unfold keys in Hk. apply in_map_iff in Hk.
    destruct Hk as [[k' v] [<- Hin]]. cbn [fst].
    destruct (Hkv k' v Hin) as (_ & ex & mr & Hex & <- & _).
    apply extractor_fields. exact Hex.
  - apply Hsrc. discriminate.
Qed.

(** A request that names the balance: the context holds the balance. *)
Lemma extracted_context_shape_witness :
  NoDup (keys [(u "current", u "0.1")])
  /\ incl (keys [(u "current", u "0.1")]) extractorFields
  /\ exists p, In p (patterns funding_needed)
               /\ test p (lastMessage (reported contextText)) = true.
Proof.
  destruct (extracted_context_shape contextText false (reported contextText)
              [(u "current", u "0.1")])
    as (_ & Hkeys & Hfields & _ & Hfunding).
  - vm_compute. reflexivity.
  - vm_compute. reflexivity.
  - split; [exact Hkeys|]. split; [exact Hfields|exact Hfunding].
Defined.

(** X4.  The pre-filter of [detectBlocker] is a projection.  A text
    without fenced block whose lines are all kept is left as it is;
    filtering a filtered text changes nothing; so a detector run on the
    [lastMessage] of a blocker reports the same blocker again, provided
    that text still passes the length gate. *)
Theorem preFilter_idempotent (text : str) :
  (test codeFence text = false ->
   Forall (fun line => keepLine line = true) (splitOn newline text) ->
   preFilter text = text)
  /\ preFilter (preFilter text) = preFilter text
  /\ (forall sessionEnded b,
        detectBlocker text sessionEnded = Some b ->
        20 <= List.length (lastMessage b) ->
        detectBlocker (lastMessage b) sessionEnded = Some b).
Proof.
  assert (Hidem : preFilter (preFilter text) = preFilter text).
  { apply preFilter_fixed; [apply preFilter_no_fence|apply preFilter_no_table_line]. }
  split; [apply preFilter_fixed|]. split; [exact Hidem|].
  intros e b H Hlen. destruct (detectBlocker_Some _ _ _ H) as (_ & Hm & Hs & Hb).
  cbv zeta in *. subst b. cbn [lastMessage] in *.
  rewrite detectBlocker_unfold by exact Hlen. cbv zeta. rewrite Hidem.
  destruct (Nat.eqb (List.length (scanMatched (scanPatterns (preFilter text)))) 0) eqn:E.
  - apply length_zero_nil in E. contradiction.
  - rewrite Hs. reflexivity.
Qed.

(** A plain sentence is its own filtered text, and the blocker found in
    it is found again in its [lastMessage]. *)
Lemma preFilter_idempotent_witness :
  preFilter blockedText = blockedText
  /\ detectBlocker (lastMessage (reported blockedText)) false = Some (reported blockedText).
Proof.
  destruct (preFilter_idempotent blockedText) as (Hfixed & _ & Hagain).
  split.
  - apply Hfixed; [vm_compute; reflexivity|vm_compute; repeat constructor].
  - apply Hagain; [vm_compute; reflexivity|vm_compute; lia].
Defined.

(** X5.  The pre-filter only removes: the filtered text, and with it the
    [lastMessage] of a blocker, is never longer than the text given. *)
Theorem preFilter_never_longer (text : str) :
  List.length (preFilter text) <= List.length text
  /\ (forall sessionEnded b,
        detectBlocker text sessionEnded = Some b ->
        List.length (lastMessage b) <= List.length text).
Proof.
  split; [apply preFilter_shorter|].
  intros e b H. destruct (detectBlocker_Some _ _ _ H) as (_ & _ & _ & Hb).
  cbv zeta in *. subst b. cbn [lastMessage]. apply preFilter_shorter.
Qed.

Lemma preFilter_never_longer_witness :
  List.length (lastMessage (reported fencedText)) <= List.length fencedText.
Proof.
  apply (proj2 (preFilter_never_longer fencedText) false (reported fencedText)).
  vm_compute. reflexivity.
Defined.

End DetectorExtras.

(** ** The reason and the window of events *)

Module ReasonFacts.
Import JS Regex Spec Types Detector TrimFacts.

Lemma cannedReason_shape category :
  23 <= List.length (cannedReason category)
  /\ exists x r, cannedReason category = x :: r /\ isSpace x = false.
Proof.
  unfold cannedReason. destruct category as [c|].
  - repeat match goal with
           | |- context [if ?b then _ else _] => destruct b
           end;
      (split; [vm_compute; lia|eexists; eexists; split; reflexivity]).
  - split; [vm_compute; lia|eexists; eexists; split; reflexivity].
Qed.

Lemma keywordSentence_long text sentence :
  keywordSentence text = Some sentence -> 11 <= List.length (trim sentence).
Proof.
  unfold keywordSentence, sentencesOf. intros H. apply find_some in H.
  destruct H as [H _]. apply filter_In in H. destruct H as [_ H].
  apply Nat.ltb_lt in H. lia.
Qed.

End ReasonFacts.

Module EventExtras.
Import JS Regex Spec Types Detector MoreSpec Scenarios.
Import DetectorFacts EventFacts TrimFacts WindowFacts ReasonFacts.

(** X6.  The reason of a blocker is never blank: it is at least 11
    units long and starts with a unit that is not white space, whether
    it is a sentence of the text or the canned text of the category. *)
Theorem reason_never_blank (text : str) (category : option str) :
  11 <= List.length (extractBlockerReason text category)
  /\ exists x r, extractBlockerReason text category = x :: r /\ isSpace x = false.
Proof.
  unfold extractBlockerReason.
  destruct (keywordSentence text) as [sentence|] eqn:K.
  - pose proof (keywordSentence_long _ _ K) as Hlen.
    destruct (trim_head sentence) as [E|(x & r & E & Hx)];
      [rewrite E in Hlen; simpl in Hlen; lia|].
    cbv zeta. destruct (Nat.leb (List.length (trim sentence)) 150) eqn:L.
    + split; [exact Hlen|]. exists x, r. split; assumption.
    + apply Nat.leb_gt in L. unfold slice0. split.
      * rewrite length_app, length_firstn. lia.
      * rewrite E. cbn [firstn app]. eexists; eexists. split; [reflexivity|exact Hx].
  - destruct (cannedReason_shape category) as [H1 H2]. split; [lia|exact H2].
Qed.

(** X7.  The window of [checkEventsForBlocker] counts assistant
    messages with text only: events of other types do not use it up, and
    for a positive window no event older than the last [lastNEvents]
    such messages plays a part. *)
Theorem older_messages_never_matter (older recent : list SessionEvent) (lastNEvents : Z) :
  checkEventsForBlocker (filter isAssistantText recent) lastNEvents
  = checkEventsForBlocker recent lastNEvents
  /\ ((0 < lastNEvents)%Z ->
      Z.to_nat lastNEvents <= List.length (filter isAssistantText recent) ->
      checkEventsForBlocker (older ++ recent) lastNEvents
      = checkEventsForBlocker recent lastNEvents).
Proof.
  unfold checkEventsForBlocker, recentAssistantMessages. split.
  - rewrite filter_twice. reflexivity.
  - intros Hn Hlen. rewrite filter_app, sliceLast_app by assumption. reflexivity.
Qed.

(** An old request for funds behind two later messages is out of the
    default window. *)
Lemma older_messages_never_matter_witness :
  checkEventsForBlocker
    ([assistant blockedText] ++ [assistant oneOtherText; assistant oneFundingText])
    defaultLastNEvents
  = checkEventsForBlocker [assistant oneOtherText; assistant oneFundingText]
      defaultLastNEvents.
Proof.
  apply (proj2 (older_messages_never_matter [assistant blockedText]
                  [assistant oneOtherText; assistant oneFundingText] defaultLastNEvents)).
  - reflexivity.
  - vm_compute. lia.
Defined.

(** X8.  A window of zero is not empty but unlimited: since
    [slice(-0)] is [slice(0)], [checkEventsForBlocker] then looks at
    every assistant message, as it does for any window at least as long
    as the history. *)
Theorem zero_window_is_unlimited (events : list SessionEvent) (lastNEvents : Z) :
  recentAssistantMessages events 0 = filter isAssistantText events
  /\ ((Z.of_nat (List.length events) <= lastNEvents)%Z ->
      checkEventsForBlocker events 0 = checkEventsForBlocker events lastNEvents).
Proof.
  split; [reflexivity|].
  intros H. unfold checkEventsForBlocker, recentAssistantMessages.
  rewrite sliceLast_zero, sliceLast_whole; [reflexivity|].
  pose proof (filter_length_le isAssistantText events). lia.
Qed.

(** With a window of zero the blocker of the oldest of three messages is
    found, as with a window of three. *)
Lemma zero_window_is_unlimited_witness :
  checkEventsForBlocker
    [assistant blockedText; assistant listItemText; assistant listItemText] 0
  = checkEventsForBlocker
      [assistant blockedText; assistant listItemText; assistant listItemText] 3.
Proof.
  apply (proj2 (zero_window_is_unlimited
                  [assistant blockedText; assistant listItemText; assistant listItemText] 3)).
  vm_compute. discriminate.
Defined.

(** X9.  The most recent blocker wins.  A blocker reported by
    [checkEventsForBlocker] is the one [detectBlocker] finds, in
    ended-session mode, in a message of the window that is not
    list-like, and every later message of the window is passed over:
    it is list-like or holds no blocker. *)
Theorem most_recent_blocker_wins (events : list SessionEvent) (lastNEvents : Z)
    (b : BlockerInfo) :
  checkEventsForBlocker events lastNEvents = Some b ->
  exists before e after t,
    recentAssistantMessages events lastNEvents = (before ++ e :: after)%list
    /\ Types.text e = Some t /\ isLikelyListItem t = false
    /\ detectBlocker t true = Some b
    /\ Forall silent after.
Proof.
  unfold checkEventsForBlocker. intros H.
  destruct (completionVeto (recentAssistantMessages events lastNEvents)); [discriminate|].
  destruct (scanEvents_first _ _ H) as (l1 & e & l2 & t & Hev & Hl1 & Ht & Hli & Hd).
  exists (rev l2), e, (rev l1), t.
  split; [|split; [exact Ht|split; [exact Hli|split; [exact Hd|apply Forall_rev; exact Hl1]]]].
  apply (f_equal (@rev SessionEvent)) in Hev. rewrite rev_involutive in Hev.
  rewrite Hev, rev_app_distr. cbn [rev]. rewrite <- app_assoc. reflexivity.
Qed.

(** Two requests in a row: the later one is reported. *)
Lemma most_recent_blocker_wins_witness :
  exists before e after t,
    recentAssistantMessages [assistant blockedText; assistant twoWaitingText]
      defaultLastNEvents = (before ++ e :: after)%list
    /\ Types.text e = Some t /\ isLikelyListItem t = false
    /\ detectBlocker t true = detectBlocker twoWaitingText true
    /\ Forall silent after.
Proof.
  destruct (most_recent_blocker_wins [assistant blockedText; assistant twoWaitingText]
              defaultLastNEvents
              (match detectBlocker twoWaitingText true with
               | Some b => b
               | None => reported twoWaitingText
               end))
    as (before & e & after & t & H1 & H2 & H3 & H4 & H5).
  - vm_compute. reflexivity.
  - exists before, e, after, t.
    split; [exact H1|split; [exact H2|split; [exact H3|split; [|exact H5]]]].
    rewrite H4. vm_compute. reflexivity.
Defined.

End EventExtras.

(** ** The summaries and the wired-in heuristics *)

Module SummaryFacts.
Import JS Regex Spec Types Detector Text Assessor Interventor MoreSpec GlossSpec.
Import MatchFacts ParseFacts FilterFacts GlossFacts RouterFacts TrimFacts WindowFacts.

(** Trimming keeps whatever stands between two units that are not white
    space. *)
Lemma trim_keeps (a : str) (x : N) (mid : str) (y : N) (b : str) :
  isSpace x = false -> isSpace y = false ->
  exists a' b', trim (a ++ x :: mid ++ y :: b) = (a' ++ x :: mid ++ y :: b')%list.
Proof.
  intros Hx Hy. unfold trim, trimEnd.
  destruct (trimStart_keeps a x (mid ++ y :: b) Hx) as [a' Ha]. rewrite Ha.
  assert (Hr : rev (a' ++ x :: mid ++ y :: b)
               = (rev b ++ y :: rev (a' ++ x :: mid))%list).
  { replace (a' ++ x :: mid ++ y :: b)%list with ((a' ++ x :: mid) ++ y :: b)%list
      by (rewrite <- app_assoc; reflexivity).
    rewrite rev_app_distr. cbn [rev]. rewrite <- app_assoc. reflexivity. }
  rewrite Hr. destruct (trimStart_keeps (rev b) y (rev (a' ++ x :: mid)) Hy) as [b' Hb].
  rewrite Hb, rev_app_distr. cbn [rev]. rewrite rev_involutive.
  exists a', (rev b'). rewrite <- !app_assoc. reflexivity.
Qed.

Lemma lines_hold (line a : str) (x : N) (mid : str) (y : N) (b : str) (ls : list str) :
  In line ls -> line = (a ++ x :: mid ++ y :: b)%list ->
  isSpace x = false -> isSpace y = false ->
  exists pre post, trim (lines ls) = (pre ++ x :: mid ++ y :: post)%list.
Proof.
  intros Hin -> Hx Hy. unfold lines.
  destruct (join_In [10%N] _ ls Hin) as (pre & post & E). rewrite E.
  replace (pre ++ (a ++ x :: mid ++ y :: b) ++ post)%list
    with ((pre ++ a) ++ x :: mid ++ y :: (b ++ post))%list
    by (rewrite <- !app_assoc; cbn [app]; rewrite <- !app_assoc; reflexivity).
  apply trim_keeps; assumption.
Qed.

Lemma summary_holds_examples blocker events status :
  exists pre post,
    buildContextSummary blocker events status = (pre ++ u "examples" ++ post)%list.
Proof.
  unfold buildContextSummary. cbv zeta.
  eapply (lines_hold _ (u "   - False positive: Pattern matching triggered on list items, ")
            (Detector.uc "e") (u "xample") (Detector.uc "s") (u ", or completed tasks"));
    [|reflexivity|reflexivity|reflexivity].
  apply in_or_app. right. unfold assessmentTask. cbn [In]. auto 12.
Qed.

Lemma intervention_holds_question blocker questionText sessionContext :
  exists pre post,
    buildInterventionContext blocker questionText sessionContext
    = (pre ++ u "Should I proceed" ++ post)%list.
Proof.
  unfold buildInterventionContext.
  eapply (lines_hold _ (u "- " ++ dq)%list
            (Detector.uc "S") (u "hould I procee") (Detector.uc "d")
            (u " with this change?" ++ dq ++ u " " ++ [8594%N] ++ u " " ++ dq
             ++ u "Yes, proceed" ++ dq)%list);
    [|reflexivity|reflexivity|reflexivity].
  apply in_or_app. right. unfold interventionTask. cbn [In]. auto 12.
Qed.

Lemma ast_heuristicList :
  exists r1 r2 r3 r5,
    ast heuristicList
    = Alt r1 (Alt r2 (Alt r3
        (Alt (Seq (lits (u "Example")) (Rep 0 (Some 1) true (lits (u "s")))) r5))).
Proof. do 4 eexists. reflexivity. Qed.

Lemma heuristicList_examples (pre post : str) :
  test heuristicList (pre ++ u "examples" ++ post) = true.
Proof.
  apply test_at. destruct ast_heuristicList as (r1 & r2 & r3 & r5 & E). rewrite E.
  unfold matchAt. rewrite !m_Alt.
  apply orElse_right, orElse_right, orElse_right, orElse_left.
  rewrite m_Seq.
  change (u "examples" ++ post)%list with (u "example" ++ (u "s" ++ post))%list.
  rewrite (m_lits_fold (u "example") (u "Example")) by reflexivity.
  apply m_opt_skip. discriminate.
Qed.

Lemma ast_yesNoQuestion :
  exists r, ast yesNoQuestion = Alt (lits (u "should i proceed")) r.
Proof. eexists. reflexivity. Qed.

Lemma yesNoQuestion_proceed (pre post : str) :
  test yesNoQuestion (pre ++ u "Should I proceed" ++ post) = true.
Proof.
  apply test_at. destruct ast_yesNoQuestion as (r & E). rewrite E.
  unfold matchAt. rewrite m_Alt. apply orElse_left.
  rewrite (m_lits_fold (u "Should I proceed") (u "should i proceed")) by reflexivity.
  discriminate.
Qed.

(** *** The window of the summaries *)

Lemma cutText_assistant cut e :
  0 < cut -> isAssistantText (cutText cut e) = isAssistantText e.
Proof.
  intros Hc. unfold isAssistantText, cutText. cbn [type Types.text].
  destruct (Types.text e) as [t|]; [|reflexivity]. cbn [option_map].
  destruct t as [|x t]; [destruct cut; reflexivity|].
  destruct cut; [lia|reflexivity].
Qed.

Lemma filter_cutText cut events :
  0 < cut ->
  filter isAssistantText (map (cutText cut) events)
  = map (cutText cut) (filter isAssistantText events).
Proof.
  intros Hc. induction events as [|e events IH]; [reflexivity|].
  cbn [map filter]. rewrite cutText_assistant by exact Hc.
  destruct (isAssistantText e); cbn [map]; rewrite IH; reflexivity.
Qed.

Lemma sliceLast_map {A B} (f : A -> B) (n : Z) (xs : list A) :
  sliceLast n (map f xs) = map f (sliceLast n xs).
Proof.
  unfold sliceLast. rewrite length_map. destruct (0 <? n)%Z; apply skipn_map.
Qed.

Lemma mapi_map {A B C} (f : A -> B) (g : B -> nat -> C) :
  forall xs i, mapi g i (map f xs) = mapi (fun x j => g (f x) j) i xs.
Proof.
  induction xs as [|x xs IH]; intros i; [reflexivity|].
  cbn [map mapi]. rewrite IH. reflexivity.
Qed.

Lemma mapi_ext {A B} (g h : A -> nat -> B) :
  (forall x i, g x i = h x i) -> forall xs i, mapi g i xs = mapi h i xs.
Proof.
  intros H. induction xs as [|x xs IH]; intros i; [reflexivity|].
  cbn [mapi]. rewrite H, IH. reflexivity.
Qed.

Lemma recentMessages_cut keep cut events :
  0 < cut ->
  recentMessages keep cut (map (cutText cut) events) = recentMessages keep cut events.
Proof.
  intros Hc. unfold recentMessages.
  rewrite filter_cutText by exact Hc. rewrite sliceLast_map, mapi_map.
  f_equal. apply mapi_ext. intros e i. unfold cutText. cbn [Types.text].
  destruct (Types.text e) as [t|]; [|reflexivity]. cbn [option_map]. unfold slice0.
  rewrite firstn_firstn, Nat.min_id. reflexivity.
Qed.

Lemma recentMessages_recent keep cut older recent :
  (0 < keep)%Z -> Z.to_nat keep <= List.length (filter isAssistantText recent) ->
  recentMessages keep cut (older ++ recent) = recentMessages keep cut recent.
Proof.
  intros Hk Hlen. unfold recentMessages.
  rewrite filter_app, sliceLast_app by assumption. reflexivity.
Qed.

End SummaryFacts.

Module OracleExtras.
Import JS Regex Spec Types Detector Text Assessor Interventor MoreSpec Scenarios.
Import DetectorFacts SummaryFacts.

(** X10.  An intervention always carries its answer: the result of
    [checkForRealtimeIntervention] intervenes exactly when it holds a
    response, a response it holds is not empty, and it intervenes on
    assistant messages only. *)
Theorem intervention_carries_response
    (oracle : str -> Outcome InterventionDecision) (event : SessionEvent)
    (sessionContext : SessionContext) (result : InterventionResult) :
  checkForRealtimeIntervention oracle event sessionContext = Returned result ->
  (intervened result = true <-> response result <> None)
  /\ (forall r, response result = Some r -> r <> [])
  /\ (intervened result = true -> type event = u "assistant_message").
Proof.
  unfold checkForRealtimeIntervention, askDyDoForIntervention. intros H.
  assert (Hno : forall why, Returned (mkIntervention false None why) = Returned result ->
            (intervened result = true <-> response result <> None)
            /\ (forall r, response result = Some r -> r <> [])
            /\ (intervened result = true -> type event = u "assistant_message")).
  { intros why E. injection E as <-. cbn [intervened response].
    split; [split; [discriminate|intros C; contradiction C; reflexivity]|].
    split; [discriminate|discriminate]. }
  destruct (Types.text event) as [text|]; [|exact (Hno _ H)].
  destruct (str_eqb (type event) (u "assistant_message")) eqn:Ty; cbn [negb orb] in H;
    [|exact (Hno _ H)].
  destruct (truthy text); cbn [negb] in H; [|exact (Hno _ H)].
  destruct (detectBlocker text false) as [b|]; [|exact (Hno _ H)].
  cbv zeta in H.
  destruct (oracle (buildInterventionContext b text sessionContext)) as [d|err].
  - destruct (canHandle d); cbn [andb] in H; [|exact (Hno _ H)].
    destruct (decisionResponse d) as [r|] eqn:R; [|exact (Hno _ H)].
    destruct r as [|x r]; cbn [truthy] in H; [exact (Hno _ H)|].
    injection H as <-. cbn [intervened response].
    split; [split; [discriminate|reflexivity]|]. split.
    + intros r' E. injection E as <-. discriminate.
    + intros _. apply ScanFacts.str_eqb_eq. exact Ty.
  - cbn [canHandle fallbackDecision andb] in H. exact (Hno _ H).
Qed.

(** An oracle that approves: the result intervenes, on an assistant
    message. *)
Lemma intervention_carries_response_witness :
  (intervened (mkIntervention true (Some (u "Yes, please proceed."))
                 (u "Simple yes/no question - DyDo can approve")) = true
   <-> response (mkIntervention true (Some (u "Yes, please proceed."))
                   (u "Simple yes/no question - DyDo can approve")) <> None)
  /\ type (assistant blockedText) = u "assistant_message".
Proof.
  destruct (intervention_carries_response
              (fun _ => Returned (mkDecision true (Some (u "Yes, please proceed."))
                                    (u "Simple yes/no question - DyDo can approve")))
              (assistant blockedText) sampleContext
              (mkIntervention true (Some (u "Yes, please proceed."))
                 (u "Simple yes/no question - DyDo can approve")))
    as (Hiff & _ & Htype).
  - vm_compute. reflexivity.
  - split; [exact Hiff|]. apply Htype. reflexivity.
Defined.

(** X11.  With the heuristic the source wires in as oracle,
    [assessBlocker] never confirms a blocker.  The summary it builds
    quotes the task text, which holds the word examples; so whenever the
    completion heuristic does not fire the list heuristic does, and the
    funding branch and the conservative default are out of reach. *)
Theorem placeholder_assessment_never_confirms (blocker : BlockerInfo)
    (sessionEvents : list SessionEvent) (sessionStatus : str) :
  test heuristicList (buildContextSummary blocker sessionEvents sessionStatus) = true
  /\ exists assessment,
       assessBlocker invokeDyDoAssessment blocker sessionEvents sessionStatus
       = Returned assessment
       /\ isRealBlocker assessment = false
       /\ (confidence assessment = QArith_base.Qmake 9 10
           \/ confidence assessment = QArith_base.Qmake 85 100).
Proof.
  assert (Hlist : test heuristicList (buildContextSummary blocker sessionEvents sessionStatus)
                  = true).
  { destruct (summary_holds_examples blocker sessionEvents sessionStatus) as (pre & post & E).
    rewrite E. apply heuristicList_examples. }
  split; [exact Hlist|].
  unfold assessBlocker, invokeDyDoAssessment. cbv zeta.
  destruct (test heuristicCompletion (buildContextSummary blocker sessionEvents sessionStatus)).
  - eexists. split; [reflexivity|]. split; [reflexivity|left; reflexivity].
  - rewrite Hlist. eexists. split; [reflexivity|]. split; [reflexivity|right; reflexivity].
Qed.

(** X12.  With the heuristic the source wires in as oracle,
    [checkForRealtimeIntervention] approves every message in which
    [detectBlocker] finds a blocker: the context it builds quotes the
    example question of the task text, so the yes/no heuristic always
    fires and the answer is always the same, also for a request for
    funds. *)
Theorem placeholder_intervention_always_approves (event : SessionEvent) (text : str)
    (blocker : BlockerInfo) (sessionContext : SessionContext) :
  type event = u "assistant_message" ->
  Types.text event = Some text ->
  detectBlocker text false = Some blocker ->
  test yesNoQuestion (buildInterventionContext blocker text sessionContext) = true
  /\ checkForRealtimeIntervention invokeDyDoIntervention event sessionContext
     = Returned (mkIntervention true (Some (u "Yes, please proceed."))
                   (u "Simple yes/no question - DyDo can approve")).
Proof.
  intros Ty Tx Hd.
  assert (Hq : test yesNoQuestion (buildInterventionContext blocker text sessionContext)
               = true).
  { destruct (intervention_holds_question blocker text sessionContext) as (pre & post & E).
    rewrite E. apply yesNoQuestion_proceed. }
  split; [exact Hq|].
  unfold checkForRealtimeIntervention, askDyDoForIntervention. rewrite Tx, Ty.
  destruct (detectBlocker_Some _ _ _ Hd) as (Hlen & _).
  destruct text as [|x text]; [simpl in Hlen; lia|].
  change (str_eqb (u "assistant_message") (u "assistant_message")) with true.
  cbn [negb orb truthy]. rewrite Hd. cbv zeta.
  unfold invokeDyDoIntervention. rewrite Hq. reflexivity.
Qed.

(** A request for funds is answered with an approval. *)
Lemma placeholder_intervention_always_approves_witness :
  checkForRealtimeIntervention invokeDyDoIntervention (assistant blockedText) sampleContext
  = Returned (mkIntervention true (Some (u "Yes, please proceed."))
                (u "Simple yes/no question - DyDo can approve")).
Proof.
  apply (placeholder_intervention_always_approves (assistant blockedText) blockedText
           (reported blockedText) sampleContext).
  - reflexivity.
  - reflexivity.
  - vm_compute. reflexivity.
Defined.

(** X13.  The summaries look at a bounded part of the history.  The
    assessment summary is the same for two histories that agree on their
    last 10 assistant messages, and reads at most the first 500 units of
    each; the intervention context does so for the last 5 messages and
    300 units. *)
Theorem summaries_read_a_bounded_history (blocker : BlockerInfo)
    (older recent : list SessionEvent) (sessionStatus questionText sessionId project : str) :
  (10 <= List.length (filter isAssistantText recent) ->
   buildContextSummary blocker (older ++ recent) sessionStatus
   = buildContextSummary blocker recent sessionStatus)
  /\ buildContextSummary blocker (map (cutText 500) recent) sessionStatus
     = buildContextSummary blocker recent sessionStatus
  /\ (5 <= List.length (filter isAssistantText recent) ->
      buildInterventionContext blocker questionText
        (mkSessionContext sessionId project (older ++ recent))
      = buildInterventionContext blocker questionText
          (mkSessionContext sessionId project recent))
  /\ buildInterventionContext blocker questionText
       (mkSessionContext sessionId project (map (cutText 300) recent))
     = buildInterventionContext blocker questionText
         (mkSessionContext sessionId project recent).
Proof.
  unfold buildContextSummary, buildInterventionContext. cbn [recentEvents].
  split; [|split; [|split]].
  - intros H. rewrite (recentMessages_recent 10 500 older recent); [reflexivity|lia|exact H].
  - rewrite (recentMessages_cut 10 500 recent) by lia. reflexivity.
  - intros H. rewrite (recentMessages_recent 5 300 older recent); [reflexivity|lia|exact H].
  - rewrite (recentMessages_cut 5 300 recent) by lia. reflexivity.
Qed.

(** Ten recent requests hide an older message from the summary. *)
Lemma summaries_read_a_bounded_history_witness :
  buildContextSummary (reported blockedText)
    ([assistant oneOtherText] ++ repeat (assistant blockedText) 10) (u "done")
  = buildContextSummary (reported blockedText) (repeat (assistant blockedText) 10) (u "done").
Proof.
  apply (proj1 (summaries_read_a_bounded_history (reported blockedText)
                  [assistant oneOtherText] (repeat (assistant blockedText) 10)
                  (u "done") [] [] [])).
  vm_compute. lia.
Defined.

End OracleExtras.

(** ** Directive markers *)

Module LowerFacts.
Import JS Regex Spec MoreSpec.
Import MatchFacts ParseFacts FilterFacts GlossFacts.

(** A unit that is equal to a lower-case ASCII unit up to case lowers to
    that unit. *)
Lemma lowerUnit_canon (a ch : N) :
  (a <? 128)%N = true -> isAsciiUpper a = false ->
  N.eqb (canon true ch) (canon true a) = true -> lowerUnit ch = [a].
Proof.
  unfold canon, isAsciiUpper, isAsciiLower, lowerUnit. cbn [andb]. intros Ha Hu H.
  apply N.ltb_lt in Ha. apply N.eqb_eq in H.
  destruct (97 <=? ch)%N eqn:C1; destruct (ch <=? 122)%N eqn:C2;
    destruct (97 <=? a)%N eqn:A1; destruct (a <=? 122)%N eqn:A2;
    destruct (65 <=? a)%N eqn:A3; destruct (a <=? 90)%N eqn:A4;
    cbn [andb] in *; try discriminate;
    repeat match goal with
           | H : (_ <=? _)%N = true |- _ => apply N.leb_le in H
           | H : (_ <=? _)%N = false |- _ => apply N.leb_gt in H
           end;
    try lia;
    destruct (65 <=? ch)%N eqn:C3; destruct (ch <=? 90)%N eqn:C4; cbn [andb];
    repeat match goal with
           | H : (_ <=? _)%N = true |- _ => apply N.leb_le in H
           | H : (_ <=? _)%N = false |- _ => apply N.leb_gt in H
           end;
    try lia;
    try (f_equal; lia);
    destruct (ch =? 8490)%N eqn:C5; try (apply N.eqb_eq in C5; lia);
    destruct (ch =? 304)%N eqn:C6; try (apply N.eqb_eq in C6; lia);
    f_equal; lia.
Qed.

Lemma stripPrefix_lower (p : str) :
  lowerAscii p ->
  forall s rest, stripPrefix true p s = Some rest ->
    toLowerCase s = (p ++ toLowerCase rest)%list.
Proof.
  induction 1 as [|a p [Ha Hu] _ IH]; intros s rest H; cbn [stripPrefix] in H.
  - injection H as <-. reflexivity.
  - destruct s as [|ch s]; [discriminate|].
    destruct (N.eqb (canon true ch) (canon true a)) eqn:E; [|discriminate].
    unfold toLowerCase in *. cbn [flat_map].
    rewrite (lowerUnit_canon a ch Ha Hu E), (IH _ _ H). reflexivity.
Qed.

Lemma toLowerCase_app (a b : str) : toLowerCase (a ++ b) = (toLowerCase a ++ toLowerCase b)%list.
Proof. apply flat_map_app. Qed.

(** The literal found by the matcher is found in the lower-cased text. *)
Lemma fold_found_lower (p s : str) (i : nat) :
  lowerAscii p -> stripPrefix true p (skipn i s) <> None ->
  includes (toLowerCase s) p = true.
Proof.
  intros Hp H. destruct (stripPrefix true p (skipn i s)) as [rest|] eqn:E; [|contradiction].
  pose proof (stripPrefix_lower p Hp _ _ E) as Hl.
  apply (includes_skipn _ p (List.length (toLowerCase (firstn i s)))).
  replace (toLowerCase s) with (toLowerCase (firstn i s) ++ toLowerCase (skipn i s))%list
    by (rewrite <- toLowerCase_app, firstn_skipn; reflexivity).
  rewrite skipn_exact, Hl. apply StringFacts.startsWith_app.
Qed.

(** A lower-cased unit that equals a plain unit comes from a unit that
    equals it up to case. *)
Lemma lowerUnit_plain (a c : N) (out : str) :
  (N.ltb a 128 && negb (isAsciiUpper a) && negb (N.eqb a 107) && negb (N.eqb a 105))%bool
  = true ->
  lowerUnit c = a :: out ->
  out = [] /\ N.eqb (canon true c) (canon true a) = true.
Proof.
  intros Ha. apply andb_true_iff in Ha. destruct Ha as [Ha Hi].
  apply andb_true_iff in Ha. destruct Ha as [Ha Hk].
  apply andb_true_iff in Ha. destruct Ha as [Ha Hu].
  apply N.ltb_lt in Ha. apply negb_true_iff in Hu, Hk, Hi.
  apply N.eqb_neq in Hk, Hi.
  unfold lowerUnit. unfold isAsciiUpper in Hu.
  destruct ((65 <=? c) && (c <=? 90))%N eqn:C1.
  - intros E. injection E as E1 E2. split; [symmetry; exact E2|].
    apply andb_true_iff in C1. destruct C1 as [C1 C2].
    apply N.leb_le in C1, C2. apply N.eqb_eq. unfold canon, isAsciiLower. cbn [andb].
    replace (97 <=? c)%N with false by (symmetry; apply N.leb_gt; lia). cbn [andb].
    replace (97 <=? a)%N with true by (symmetry; apply N.leb_le; lia).
    replace (a <=? 122)%N with true by (symmetry; apply N.leb_le; lia). cbn [andb]. lia.
  - destruct (c =? 8490)%N eqn:C2; [intros E; injection E as E1 E2; lia|].
    destruct (c =? 304)%N eqn:C3; [intros E; injection E as E1 E2; lia|].
    intros E. injection E as E1 E2. split; [symmetry; exact E2|]. subst c.
    apply N.eqb_refl.
Qed.

Lemma startsWith_lower (p : str) :
  plainLower p = true ->
  forall s, startsWith (toLowerCase s) p = true -> stripPrefix true p s <> None.
Proof.
  induction p as [|a p IH]; intros Hp s H; [discriminate|].
  cbn [plainLower forallb] in Hp. apply andb_true_iff in Hp. destruct Hp as [Ha Hp].
  destruct s as [|c s]; [discriminate|].
  unfold toLowerCase in H. cbn [flat_map] in H.
  destruct (lowerUnit c) as [|a' out] eqn:L;
    [unfold lowerUnit in L;
     repeat match type of L with context [if ?b then _ else _] => destruct b end;
     discriminate|].
  cbn [app startsWith] in H. apply andb_true_iff in H. destruct H as [H1 H2].
  apply N.eqb_eq in H1. subst a'.
  destruct (lowerUnit_plain a c out Ha L) as [-> Hc].
  cbn [stripPrefix]. rewrite Hc. apply (IH Hp). exact H2.
Qed.

(** The literal found in the lower-cased text is found by the matcher. *)
Lemma lower_found_fold (p : str) :
  plainLower p = true -> p <> [] ->
  forall s, includes (toLowerCase s) p = true ->
    exists i, i <= List.length s /\ stripPrefix true p (skipn i s) <> None.
Proof.
  intros Hp Hne. induction s as [|c s IH]; intros H.
  - destruct p; [contradiction|discriminate].
  - destruct (startsWith (toLowerCase (c :: s)) p) eqn:S0.
    + exists 0. split; [simpl; lia|]. apply (startsWith_lower p Hp). exact S0.
    + assert (Hs : includes (toLowerCase s) p = true).
      { unfold toLowerCase in *. cbn [flat_map] in *.
        destruct p as [|a p]; [contradiction|].
        cbn [plainLower forallb] in Hp. apply andb_true_iff in Hp. destruct Hp as [Ha _].
        destruct (lowerUnit c) as [|a' out] eqn:L; [exact H|].
        cbn [app] in *. cbn [includes] in H. rewrite S0 in H. cbn [orb] in H.
        destruct out as [|b out]; [exact H|].
        (* only U+0130 lowers to two units, and the second is not ASCII *)
        assert (Hb : lowerUnit c = [105; 775]%N).
        { unfold lowerUnit in *.
          repeat match type of L with context [if ?b then _ else _] => destruct b end;
            try discriminate; reflexivity. }
        rewrite Hb in L. injection L as <- <- <-.
        cbn [app includes] in H.
        assert (Hm : startsWith (775%N :: flat_map lowerUnit s) (a :: p) = false).
        { cbn [startsWith]. apply andb_false_iff. left. apply N.eqb_neq.
          apply andb_true_iff in Ha. destruct Ha as [Ha _].
          apply andb_true_iff in Ha. destruct Ha as [Ha _].
          apply andb_true_iff in Ha. destruct Ha as [Ha _].
          apply N.ltb_lt in Ha. lia. }
        rewrite Hm in H. exact H. }
      destruct (IH Hs) as (i & Hi & Hfound). exists (S i). split; [simpl; lia|exact Hfound].
Qed.

Lemma plain_is_lower (p : str) : plainLower p = true -> lowerAscii p.
Proof.
  unfold plainLower, lowerAscii. rewrite forallb_forall, Forall_forall.
  intros H a Ha. specialize (H a Ha).
  apply andb_true_iff in H. destruct H as [H _].
  apply andb_true_iff in H. destruct H as [H _].
  apply andb_true_iff in H. destruct H as [H1 H2].
  split; [exact H1|apply negb_true_iff; exact H2].
Qed.

(** *** Patterns that start with a literal *)

Lemma matchAt_opens rx p pos s :
  opens rx p ->
  (matchAt (ignoreCase rx) (ast rx) pos s <> None <-> stripPrefix true p s <> None).
Proof.
  intros [Hic [Ha|[r Ha]]]; rewrite Hic, Ha; unfold matchAt.
  - rewrite m_lits. destruct (stripPrefix true p s); [|tauto].
    split; intros _; discriminate.
  - rewrite m_Seq, m_lits. destruct (stripPrefix true p s); [|tauto].
    split; intros _; [discriminate|]. apply m_opt_skip. discriminate.
Qed.

Lemma stripPrefix_length ic (p : str) :
  forall s t, stripPrefix ic p s = Some t -> List.length s = List.length p + List.length t.
Proof.
  induction p as [|a p IH]; intros s t H; cbn [stripPrefix] in H.
  - injection H as <-. reflexivity.
  - destruct s as [|ch s]; [discriminate|].
    destruct (N.eqb (canon ic ch) (canon ic a)); [|discriminate].
    cbn [List.length]. rewrite (IH s t H). reflexivity.
Qed.

Lemma matchAt_opens_end rx p pos s e rest c :
  opens rx p -> matchAt (ignoreCase rx) (ast rx) pos s = Some (e, rest, c) ->
  pos + List.length p <= e /\ List.length p <= List.length s.
Proof.
  intros [Hic Ha] H.
  destruct Ha as [Ha|[r Ha]]; rewrite Hic, Ha in H; unfold matchAt in H.
  - rewrite m_lits in H. destruct (stripPrefix true p s) as [t|] eqn:E; [|discriminate].
    injection H as <- <- <-. pose proof (stripPrefix_length _ _ _ _ E). lia.
  - rewrite m_Seq, m_lits in H.
    destruct (stripPrefix true p s) as [t|] eqn:E; [|discriminate].
    pose proof (stripPrefix_length _ _ _ _ E) as Hlen. split; [|lia].
    rewrite RegexFacts.m_Rep in H. cbn [maxIsZero Nat.ltb Nat.leb] in H. cbv zeta in H.
    rewrite m_Chr in H. destruct t as [|ch t'].
    + cbn [orElse] in H. injection H as <- <- <-. lia.
    + destruct (N.eqb (canon true ch) (canon true r)).
      * cbn [Nat.eqb andb List.length] in H.
        replace (Nat.eqb (List.length t') (S (List.length t'))) with false in H
          by (symmetry; apply Nat.eqb_neq; lia).
        rewrite RegexFacts.m_Rep in H. cbn [option_map Nat.pred maxIsZero orElse] in H.
        injection H as <- <- <-. lia.
      * cbn [orElse] in H. injection H as <- <- <-. lia.
Qed.

End LowerFacts.

Module DirectiveFacts.
Import JS Regex Spec MoreSpec Responses.
Import MatchFacts ParseFacts FilterFacts GlossFacts ShrinkFacts TrimFacts LowerFacts.

Lemma test_opens rx p s :
  opens rx p -> plainLower p = true -> p <> [] ->
  test rx s = includes (toLowerCase s) p.
Proof.
  intros Ho Hp Hne. destruct (includes (toLowerCase s) p) eqn:I.
  - destruct (lower_found_fold p Hp Hne s I) as (i & Hi & Hf).
    unfold test, exec.
    destruct (execFrom rx 0 s) eqn:E; [reflexivity|]. exfalso.
    apply (execFrom_complete rx s 0 i Hi); [|exact E].
    apply (matchAt_opens rx p (0 + i) (skipn i s) Ho). exact Hf.
  - unfold test, exec. destruct (execFrom rx 0 s) as [mr|] eqn:E; [|reflexivity].
    exfalso. destruct (execFrom_sound rx s 0 mr E) as (i & e & rest & Hi & _ & Hm & _).
    assert (Hf : stripPrefix true p (skipn i s) <> None).
    { apply (matchAt_opens rx p (0 + i) (skipn i s) Ho). rewrite Hm. discriminate. }
    pose proof (fold_found_lower p s i (plain_is_lower p Hp) Hf) as Hc.
    rewrite I in Hc. discriminate.
Qed.

Lemma replaceAll_opens_shorter rx p s :
  opens rx p -> p <> [] -> test rx s = true ->
  List.length (replaceAll rx [] s) + List.length p <= List.length s.
Proof.
  intros Ho Hne Ht. unfold test, exec in Ht. unfold replaceAll. cbn [replaceAllFrom].
  destruct (execFrom rx 0 s) as [mr|] eqn:E; [|discriminate].
  destruct (execFrom_sound rx s 0 mr E) as (i & e & rest & Hi & Hidx & Hm & Hmat & _).
  destruct (matchAt_opens_end rx p _ _ _ _ _ Ho Hm) as [He Hlen].
  rewrite length_skipn in Hlen.
  assert (Hml : List.length p <= List.length (matched mr)).
  { rewrite Hmat, length_firstn, length_skipn. lia. }
  assert (Hmu : index mr + List.length (matched mr) <= List.length s).
  { rewrite Hmat, length_firstn, length_skipn. lia. }
  destruct (matched mr) as [|x w] eqn:Em.
  - destruct p; [contradiction|simpl in Hml; lia].
  - cbn [app]. rewrite length_app, length_firstn.
    pose proof (replaceAllFrom_shorter rx (List.length s)
                  (index mr + List.length (x :: w))
                  (skipn (index mr + List.length (x :: w) - 0) s)) as Hr.
    rewrite length_skipn in Hr. lia.
Qed.

Lemma replaceAll_shorter rx s : List.length (replaceAll rx [] s) <= List.length s.
Proof. apply replaceAllFrom_shorter. Qed.

Lemma opens_toClaudeCode : opens toClaudeCode (u "[to claude code]").
Proof. split; [reflexivity|left; reflexivity]. Qed.

Lemma opens_tellClaudeCode : opens tellClaudeCode (u "tell claude code").
Proof. split; [reflexivity|right; eexists; reflexivity]. Qed.

Lemma opens_claudeCodeColon : opens claudeCodeColon (u "claude code:").
Proof. split; [reflexivity|left; reflexivity]. Qed.

Lemma isClaudeCodeResponse_tests (message : str) :
  isClaudeCodeResponse message
  = (test toClaudeCode message || test tellClaudeCode message
     || test claudeCodeColon message)%bool.
Proof.
  assert (H1 := test_opens _ _ message opens_toClaudeCode eq_refl ltac:(discriminate)).
  assert (H2 := test_opens _ _ message opens_tellClaudeCode eq_refl ltac:(discriminate)).
  assert (H3 := test_opens _ _ message opens_claudeCodeColon eq_refl ltac:(discriminate)).
  unfold isClaudeCodeResponse. cbv zeta. rewrite H1, H2, H3.
  destruct (includes (toLowerCase message) (u "[to claude code]")); [reflexivity|].
  destruct (includes (toLowerCase message) (u "tell claude code")); [reflexivity|].
  destruct (includes (toLowerCase message) (u "claude code:")); reflexivity.
Qed.

End DirectiveFacts.

Module PlanningExtras.
Import JS Regex Spec MoreSpec Responses.
Import ShrinkFacts TrimFacts LowerFacts DirectiveFacts.

(** X14.  Recognition and extraction agree on the markers.
    [isClaudeCodeResponse] holds exactly when one of the three patterns
    that [extractClaudeCodeResponse] removes is found in the message; a
    message that is not recognised is only trimmed by the extraction. *)
Theorem recognition_agrees_with_extraction (message : str) :
  isClaudeCodeResponse message
  = (test toClaudeCode message || test tellClaudeCode message
     || test claudeCodeColon message)%bool
  /\ (isClaudeCodeResponse message = false ->
      extractClaudeCodeResponse message = trim message).
Proof.
  pose proof (isClaudeCodeResponse_tests message) as Hr.
  split; [exact Hr|].
  rewrite Hr. intros H. apply orb_false_iff in H. destruct H as [H Hc].
  apply orb_false_iff in H. destruct H as [Ha Hb].
  unfold extractClaudeCodeResponse.
  rewrite (replaceAll_absent toClaudeCode [] message Ha),
    (replaceAll_absent tellClaudeCode [] message Hb),
    (replaceAll_absent claudeCodeColon [] message Hc).
  reflexivity.
Qed.

(** A plain answer is handed on trimmed. *)
Lemma recognition_agrees_with_extraction_witness :
  extractClaudeCodeResponse plainAnswer = trim plainAnswer.
Proof.
  apply (proj2 (recognition_agrees_with_extraction plainAnswer)).
  vm_compute. reflexivity.
Defined.

(** X15.  The extraction only removes, and removes a marker from every
    message that is recognised: the extracted response is never longer
    than the message, and at least 12 units shorter, the length of the
    shortest marker, when [isClaudeCodeResponse] holds. *)
Theorem extraction_removes_a_marker (message : str) :
  List.length (extractClaudeCodeResponse message) <= List.length message
  /\ (isClaudeCodeResponse message = true ->
      List.length (extractClaudeCodeResponse message) + 12 <= List.length message).
Proof.
  unfold extractClaudeCodeResponse.
  pose proof (trim_length
                (replaceAll claudeCodeColon []
                   (replaceAll tellClaudeCode [] (replaceAll toClaudeCode [] message))))
    as Ht.
  pose proof (replaceAll_shorter claudeCodeColon
                (replaceAll tellClaudeCode [] (replaceAll toClaudeCode [] message))) as H3.
  pose proof (replaceAll_shorter tellClaudeCode (replaceAll toClaudeCode [] message)) as H2.
  pose proof (replaceAll_shorter toClaudeCode message) as H1.
  split; [lia|].
  intros Hr. rewrite isClaudeCodeResponse_tests in Hr.
  destruct (test toClaudeCode message) eqn:Ta.
  - pose proof (replaceAll_opens_shorter _ _ message opens_toClaudeCode
                  ltac:(discriminate) Ta) as Hs.
    change (List.length (u "[to claude code]")) with 16 in Hs. lia.
  - rewrite (replaceAll_absent toClaudeCode [] message Ta) in *.
    destruct (test tellClaudeCode message) eqn:Tb.
    + pose proof (replaceAll_opens_shorter _ _ message opens_tellClaudeCode
                    ltac:(discriminate) Tb) as Hs.
      change (List.length (u "tell claude code")) with 16 in Hs. lia.
    + rewrite (replaceAll_absent tellClaudeCode [] message Tb) in *.
      cbn [orb] in Hr.
      pose proof (replaceAll_opens_shorter _ _ message opens_claudeCodeColon
                    ltac:(discriminate) Hr) as Hs.
      change (List.length (u "claude code:")) with 12 in Hs. lia.
Qed.

(** A marked answer loses its marker. *)
Lemma extraction_removes_a_marker_witness :
  List.length (extractClaudeCodeResponse markedAnswer) + 12 <= List.length markedAnswer.
Proof.
  apply (proj2 (extraction_removes_a_marker markedAnswer)).
  vm_compute. reflexivity.
Defined.

End PlanningExtras.

(** ** Callback data *)

Module CallbackFacts.
Import JS Regex Spec Text MoreSpec Callbacks.
Import RegexFacts MatchFacts ParseFacts GlossFacts.

(** A greedy run of a class in front of the end of the pattern: the
    whole rest of the text has to be in the class. *)
Lemma m_run_to_end ic neg items (k : cont) :
  (forall pos x s c, k pos (x :: s) c = None) ->
  forall s mn pos c,
    m ic (Rep mn None true (Class neg items)) pos s c k =
    if Nat.leb mn (List.length s) && forallb (classUnit ic neg items) s
    then k (pos + List.length s) [] c else None.
Proof.
  intros Hk. induction s as [|ch s IH]; intros mn pos c; rewrite m_Rep;
    cbn [maxIsZero]; cbv zeta; rewrite m_Class;
    change (groups (Class neg items)) with (@nil nat); rewrite ?dropCaps_nil.
  - destruct mn as [|mn]; cbn [Nat.ltb Nat.leb orElse forallb andb List.length].
    + rewrite Nat.add_0_r. reflexivity.
    + reflexivity.
  - cbn [List.length forallb option_map].
    replace (Nat.eqb (List.length s) (S (List.length s))) with false
      by (symmetry; apply Nat.eqb_neq; lia).
    rewrite andb_false_r, IH.
    replace (S pos + List.length s) with (pos + S (List.length s)) by lia.
    destruct mn as [|mn]; cbn [Nat.ltb Nat.leb Nat.pred].
    + rewrite Hk. cbn [andb].
      destruct (classUnit ic neg items ch); cbn [andb orElse]; [|reflexivity].
      destruct (forallb (classUnit ic neg items) s);
        [destruct (k (pos + S (List.length s)) [] c)|]; reflexivity.
    + destruct (classUnit ic neg items ch); cbn [andb].
      * reflexivity.
      * rewrite andb_false_r. reflexivity.
Qed.

Lemma stripPrefix_app (p s rest : str) :
  stripPrefix false p s = Some rest <-> s = (p ++ rest)%list.
Proof.
  revert s. induction p as [|a p IH]; intros s; cbn [stripPrefix app].
  - split; intros H; [injection H as <-; reflexivity|subst; reflexivity].
  - destruct s as [|ch s]; [split; discriminate|].
    unfold canon. cbn [andb]. destruct (N.eqb ch a) eqn:E.
    + apply N.eqb_eq in E. subst ch. rewrite IH. split; intros H; [subst; reflexivity|].
      injection H as ->. reflexivity.
    + apply N.eqb_neq in E. split; [discriminate|]. intros H. injection H as -> _.
      contradiction E. reflexivity.
Qed.

Lemma ast_callbackData :
  ast callbackData
  = Seq Bol
      (Seq (lits (u "claude:"))
         (Seq (Group 1 (Alt (lits (u "continue")) (lits (u "cancel"))))
            (Seq (Chr colon) (Group 2 (Rep 1 None true (Class false wordClass)))))).
Proof. reflexivity. Qed.

Lemma afterAction_spec (act rest : str) (pos : nat) :
  afterAction (act ++ rest) pos rest [] =
  match rest with
  | ch :: token =>
      if N.eqb ch colon && Nat.leb 1 (List.length token) && forallb isWordUnit token
      then Some (S pos + List.length token, [], [(2, token); (1, act)])
      else None
  | [] => None
  end.
Proof.
  unfold afterAction. rewrite m_Seq, m_Chr.
  destruct rest as [|ch token]; [reflexivity|].
  unfold canon at 1 2. cbn [andb]. destruct (N.eqb ch colon); cbn [andb]; [|reflexivity].
  rewrite m_Group.
  rewrite (m_run_to_end false false wordClass
             (fun pos' s' c' =>
                endOfInput pos' s'
                  (setCap 2 (firstn (List.length token - List.length s') token) c')));
    [|reflexivity].
  change (classUnit false false wordClass) with isWordUnit.
  destruct (Nat.leb 1 (List.length token) && forallb isWordUnit token); [|reflexivity].
  cbn [endOfInput List.length]. rewrite Nat.sub_0_r, firstn_all.
  rewrite length_app. cbn [List.length].
  replace (List.length act + S (List.length token) - S (List.length token))
    with (List.length act) by lia.
  rewrite firstn_exact. reflexivity.
Qed.

Lemma matchWhole_callbackData (data : str) :
  matchWhole callbackData data =
  match stripPrefix false (u "claude:") data with
  | None => None
  | Some rest =>
      match
        orElse
          (match stripPrefix false (u "continue") rest with
           | Some rest' => afterAction rest (7 + 8) rest' []
           | None => None
           end)
          (match stripPrefix false (u "cancel") rest with
           | Some rest' => afterAction rest (7 + 6) rest' []
           | None => None
           end)
      with
      | Some (_, _, c) => Some c
      | None => None
      end
  end.
Proof.
  unfold matchWhole. change (ignoreCase callbackData) with false.
  rewrite ast_callbackData, m_Seq, m_Bol. cbn [Nat.eqb].
  rewrite m_Seq, m_lits. change (0 + List.length (u "claude:")) with 7.
  destruct (stripPrefix false (u "claude:") data) as [rest|]; [|reflexivity].
  rewrite m_Seq, m_Group, m_Alt, !m_lits. reflexivity.
Qed.

Lemma parse_encoded (act token : str) :
  act = u "continue" \/ act = u "cancel" ->
  token <> [] -> forallb isWordUnit token = true ->
  parseClaudeCallback (encode act token) = Some (mkCallbackData act token).
Proof.
  intros Hact Hne Hw. unfold parseClaudeCallback, encode.
  rewrite matchWhole_callbackData.
  assert (H7 : stripPrefix false (u "claude:") (u "claude:" ++ act ++ u ":" ++ token)
               = Some (act ++ u ":" ++ token)%list) by (apply stripPrefix_app; reflexivity).
  rewrite H7.
  assert (Hlen : Nat.leb 1 (List.length token) = true).
  { destruct token; [contradiction|reflexivity]. }
  destruct Hact as [-> | ->].
  - assert (H8 : stripPrefix false (u "continue") (u "continue" ++ u ":" ++ token)
                 = Some (u ":" ++ token)%list) by (apply stripPrefix_app; reflexivity).
    rewrite H8, (afterAction_spec (u "continue") (u ":" ++ token)).
    change (u ":" ++ token)%list with (colon :: token). cbv beta iota.
    rewrite N.eqb_refl, Hlen, Hw. reflexivity.
  - assert (H8 : stripPrefix false (u "continue") (u "cancel" ++ u ":" ++ token) = None)
      by reflexivity.
    assert (H6 : stripPrefix false (u "cancel") (u "cancel" ++ u ":" ++ token)
                 = Some (u ":" ++ token)%list) by (apply stripPrefix_app; reflexivity).
    rewrite H8, H6, (afterAction_spec (u "cancel") (u ":" ++ token)).
    change (u ":" ++ token)%list with (colon :: token). cbv beta iota.
    rewrite N.eqb_refl, Hlen, Hw. reflexivity.
Qed.

Lemma afterAction_Some (act rest : str) (pos : nat) (o : outcome) :
  afterAction (act ++ rest) pos rest [] = Some o ->
  exists token,
    rest = colon :: token /\ token <> [] /\ forallb isWordUnit token = true
    /\ snd o = [(2, token); (1, act)].
Proof.
  rewrite afterAction_spec. destruct rest as [|ch token]; [discriminate|].
  destruct (N.eqb ch colon) eqn:E1; [|discriminate].
  destruct (Nat.leb 1 (List.length token)) eqn:E2; [|discriminate].
  destruct (forallb isWordUnit token) eqn:E3; [|discriminate].
  cbn [andb]. intros H. injection H as <-.
  apply N.eqb_eq in E1. subst ch. exists token.
  split; [reflexivity|]. split; [intros ->; discriminate|].
  split; [exact E3|reflexivity].
Qed.

Lemma parse_decoded (data : str) (parsed : ClaudeCallbackData) :
  parseClaudeCallback data = Some parsed ->
  data = encode (action parsed) (tokenPrefix parsed)
  /\ (action parsed = u "continue" \/ action parsed = u "cancel")
  /\ tokenPrefix parsed <> []
  /\ forallb isWordUnit (tokenPrefix parsed) = true.
Proof.
  unfold parseClaudeCallback. rewrite matchWhole_callbackData.
  destruct (stripPrefix false (u "claude:") data) as [rest|] eqn:E7; [|discriminate].
  apply stripPrefix_app in E7. subst data.
  assert (Hcase : forall act rest' o,
            rest = (act ++ rest')%list ->
            (act = u "continue" \/ act = u "cancel") ->
            afterAction rest (7 + List.length act) rest' [] = Some o ->
            Some (mkCallbackData (orUndefined (getCap 1 (snd o)))
                    (orUndefined (getCap 2 (snd o)))) = Some parsed ->
            (u "claude:" ++ rest)%list = encode (action parsed) (tokenPrefix parsed)
            /\ (action parsed = u "continue" \/ action parsed = u "cancel")
            /\ tokenPrefix parsed <> []
            /\ forallb isWordUnit (tokenPrefix parsed) = true).
  { intros act rest' o -> Hact Ha Hp.
    destruct (afterAction_Some act rest' _ o Ha) as (token & -> & Hne & Hw & Hc).
    rewrite Hc in Hp. cbn [getCap find fst snd Nat.eqb orUndefined] in Hp.
    injection Hp as <-. cbn [action tokenPrefix].
    split; [reflexivity|]. split; [exact Hact|]. split; assumption. }
  destruct (stripPrefix false (u "continue") rest) as [r8|] eqn:E8.
  - apply stripPrefix_app in E8.
    destruct (afterAction rest (7 + 8) r8 []) as [[[e r] c]|] eqn:A8.
    + cbn [orElse]. intros H.
      apply (Hcase (u "continue") r8 (e, r, c) E8 (or_introl eq_refl) A8 H).
    + cbn [orElse].
      assert (E6 : stripPrefix false (u "cancel") rest = None).
      { subst rest. reflexivity. }
      rewrite E6. discriminate.
  - cbn [orElse].
    destruct (stripPrefix false (u "cancel") rest) as [r6|] eqn:E6; [|discriminate].
    apply stripPrefix_app in E6.
    destruct (afterAction rest (7 + 6) r6 []) as [[[e r] c]|] eqn:A6; [|discriminate].
    intros H. apply (Hcase (u "cancel") r6 (e, r, c) E6 (or_intror eq_refl) A6 H).
Qed.

End CallbackFacts.

Module CallbackExtras.
Import JS Regex Spec Text MoreSpec Callbacks.
Import ScanFacts CallbackFacts.

(** X16.  Callback data round trip.  For the action [continue] or
    [cancel] and a token prefix of one or more word units (letters,
    digits, underscore), the data [claude:<action>:<tokenPrefix>] is
    recognised by [isClaudeCodeCallback] and parsed back into the action
    and the prefix it was built from. *)
Theorem callback_data_round_trip (act token : str) :
  act = u "continue" \/ act = u "cancel" ->
  token <> [] -> forallb isWordUnit token = true ->
  parseClaudeCallback (encode act token) = Some (mkCallbackData act token)
  /\ isClaudeCodeCallback (encode act token) = true.
Proof.
  intros Hact Hne Hw. split; [apply parse_encoded; assumption|].
  unfold isClaudeCodeCallback, encode. apply StringFacts.startsWith_app.
Qed.

Lemma callback_data_round_trip_witness :
  parseClaudeCallback (encode (u "cancel") (u "123e4567"))
  = Some (mkCallbackData (u "cancel") (u "123e4567")).
Proof.
  apply (callback_data_round_trip (u "cancel") (u "123e4567")).
  - right. reflexivity.
  - discriminate.
  - reflexivity.
Defined.

(** X17.  Only well-formed callback data is parsed.  Data that
    [parseClaudeCallback] accepts is [claude:<action>:<tokenPrefix>]
    with the action [continue] or [cancel] and a non-empty prefix of
    word units, unit for unit; it passes [isClaudeCodeCallback]; and
    every unit of it is a word unit or a colon, so that data with a
    dash in it, such as a full resume token, is refused. *)
Theorem parsed_callback_is_well_formed (data : str) (parsed : ClaudeCallbackData) :
  parseClaudeCallback data = Some parsed ->
  data = encode (action parsed) (tokenPrefix parsed)
  /\ (action parsed = u "continue" \/ action parsed = u "cancel")
  /\ tokenPrefix parsed <> []
  /\ forallb isWordUnit (tokenPrefix parsed) = true
  /\ isClaudeCodeCallback data = true
  /\ forall ch, In ch data -> isWordUnit ch = true \/ ch = colon.
Proof.
  intros H. destruct (parse_decoded data parsed H) as (Hd & Hact & Hne & Hw).
  split; [exact Hd|]. split; [exact Hact|]. split; [exact Hne|]. split; [exact Hw|].
  split.
  - rewrite Hd. unfold isClaudeCodeCallback, encode. apply StringFacts.startsWith_app.
  - intros ch Hin. rewrite Hd in Hin. unfold encode in Hin.
    rewrite forallb_forall in Hw.
    apply in_app_or in Hin. destruct Hin as [Hin|Hin].
    { cbn [u map list_ascii_of_string In] in Hin.
      repeat (destruct Hin as [<-|Hin]; [auto|]). contradiction. }
    apply in_app_or in Hin. destruct Hin as [Hin|Hin].
    { destruct Hact as [E|E]; rewrite E in Hin; cbn [u map list_ascii_of_string In] in Hin;
        repeat (destruct Hin as [<-|Hin]; [auto|]); contradiction. }
    apply in_app_or in Hin. destruct Hin as [Hin|Hin].
    { cbn [u map list_ascii_of_string In] in Hin.
      repeat (destruct Hin as [<-|Hin]; [auto|]). contradiction. }
    left. apply Hw. exact Hin.
Qed.

(** Data for a continue button. *)
Lemma parsed_callback_is_well_formed_witness :
  continueData = encode (u "continue") (u "123e4567")
  /\ isClaudeCodeCallback continueData = true.
Proof.
  destruct (parsed_callback_is_well_formed continueData
              (mkCallbackData (u "continue") (u "123e4567")))
    as (Hdata & _ & _ & _ & Hcallback & _).
  - vm_compute. reflexivity.
  - split; [exact Hdata|exact Hcallback].
Defined.

End CallbackExtras.

(** ** The callback handler *)

Module HandlerFacts.
Import JS Regex Spec Text MoreSpec Callbacks.
Import ScanFacts CallbackFacts.

Section Handler.

Variable Session : Type.
Variable idOf : Session -> str.
Variable getSessionByToken : str -> option Session.
Variable cancelSessionByToken : str -> bool.
Variable getSessionState : Session -> SessionState.
Variable sendInput : str -> str -> bool.
Variable getBubbleByTokenPrefix : str -> option Router.BubbleInfo.
Variable startSession : str -> str -> str -> str -> StartResult.

(** The handler by action: the [default] branch of the [switch] is never
    taken. *)
Lemma handle_by_action (ctx : CallbackContext) (data : str) :
  match parseClaudeCallback data with
  | None => (handleClaudeCodeCallback idOf getSessionByToken cancelSessionByToken
         getSessionState sendInput getBubbleByTokenPrefix startSession ctx data) = ([], false)
  | Some parsed =>
      (action parsed = u "cancel"
       /\ (handleClaudeCodeCallback idOf getSessionByToken cancelSessionByToken
         getSessionState sendInput getBubbleByTokenPrefix startSession ctx data)
          = handleCancel cancelSessionByToken getSessionState ctx (tokenPrefix parsed)
              (getSessionByToken (tokenPrefix parsed)))
      \/ (action parsed = u "continue"
          /\ (handleClaudeCodeCallback idOf getSessionByToken cancelSessionByToken
         getSessionState sendInput getBubbleByTokenPrefix startSession ctx data)
             = handleContinue idOf sendInput getBubbleByTokenPrefix startSession ctx
                 (tokenPrefix parsed) (getSessionByToken (tokenPrefix parsed)))
  end.
Proof.
  unfold handleClaudeCodeCallback.
  destruct (parseClaudeCallback data) as [parsed|] eqn:P; [|reflexivity].
  destruct (parse_decoded data parsed P) as (_ & [E|E] & _).
  - right. split; [exact E|]. rewrite E. reflexivity.
  - left. split; [exact E|]. rewrite E. reflexivity.
Qed.

End Handler.

End HandlerFacts.

Module HandlerExtras.
Import JS Regex Spec Text MoreSpec Callbacks.
Import ScanFacts CallbackFacts HandlerFacts Paths.

Section Handler.

Variable Session : Type.
Variable idOf : Session -> str.
Variable getSessionByToken : str -> option Session.
Variable cancelSessionByToken : str -> bool.
Variable getSessionState : Session -> SessionState.
Variable sendInput : str -> str -> bool.
Variable getBubbleByTokenPrefix : str -> option Router.BubbleInfo.
Variable startSession : str -> str -> str -> str -> StartResult.

(** X18.  [handleClaudeCodeCallback] reports a callback as handled
    exactly when its data parses: the [default] branch of its [switch]
    is dead.  Data that does not parse touches no collaborator; not even
    the callback query is answered. *)
Theorem handled_iff_parsed (ctx : CallbackContext) (data : str) :
  (snd (handleClaudeCodeCallback idOf getSessionByToken cancelSessionByToken
         getSessionState sendInput getBubbleByTokenPrefix startSession ctx data) = true <-> parseClaudeCallback data <> None)
  /\ (parseClaudeCallback data = None -> (handleClaudeCodeCallback idOf getSessionByToken cancelSessionByToken
         getSessionState sendInput getBubbleByTokenPrefix startSession ctx data) = ([], false)).
Proof.
  pose proof (handle_by_action Session idOf getSessionByToken cancelSessionByToken
                getSessionState sendInput getBubbleByTokenPrefix startSession ctx data) as H.
  destruct (parseClaudeCallback data) as [parsed|] eqn:P.
  - split; [|discriminate]. split; [discriminate|]. intros _.
    destruct H as [[_ ->]|[_ ->]].
    + cancel_paths; reflexivity.
    + continue_paths session; reflexivity.
  - split; [|intros _; exact H]. rewrite H. split; [discriminate|]. intros C.
    contradiction C. reflexivity.
Qed.

(** X19.  A handled callback is answered once: whatever the action and
    whatever the collaborators say, the effects of a handled callback
    hold exactly one [answerCallbackQuery], and it goes to the id of the
    callback query (the empty string when there is none). *)
Theorem handled_callback_is_answered_once (ctx : CallbackContext) (data : str) :
  snd (handleClaudeCodeCallback idOf getSessionByToken cancelSessionByToken
         getSessionState sendInput getBubbleByTokenPrefix startSession ctx data) = true ->
  exists text alert,
    filter isAnswer (fst (handleClaudeCodeCallback idOf getSessionByToken cancelSessionByToken
         getSessionState sendInput getBubbleByTokenPrefix startSession ctx data))
    = [AnswerCallbackQuery (match callbackId ctx with Some i => i | None => [] end)
         text alert].
Proof.
  pose proof (handle_by_action Session idOf getSessionByToken cancelSessionByToken
                getSessionState sendInput getBubbleByTokenPrefix startSession ctx data) as H.
  destruct (parseClaudeCallback data) as [parsed|] eqn:P;
    [|rewrite H; discriminate].
  intros _. destruct H as [[_ ->]|[_ ->]].
  - cancel_paths; cbn [fst app filter isAnswer]; eexists; eexists; reflexivity.
  - continue_paths session; cbn [fst app filter isAnswer]; eexists; eexists; reflexivity.
Qed.

(** X20.  A session is started only to resume a stored bubble.  The
    handler calls [startSession] only for the action [continue], only
    when no session of that token prefix is live and a bubble is stored
    for it, and then with the working directory and the resume token of
    that bubble, the prompt [continue] and the permission mode
    [bypassPermissions]. *)
Theorem session_started_only_to_resume (ctx : CallbackContext) (data : str)
    (workingDir resumeToken prompt permissionMode : str) :
  In (StartSession workingDir resumeToken prompt permissionMode) (fst (handleClaudeCodeCallback idOf getSessionByToken cancelSessionByToken
         getSessionState sendInput getBubbleByTokenPrefix startSession ctx data)) ->
  exists parsed info,
    parseClaudeCallback data = Some parsed
    /\ action parsed = u "continue"
    /\ getSessionByToken (tokenPrefix parsed) = None
    /\ getBubbleByTokenPrefix (tokenPrefix parsed) = Some info
    /\ workingDir = Router.workingDir (Router.bubble info)
    /\ resumeToken = Router.resumeToken (Router.bubble info)
    /\ prompt = u "continue"
    /\ permissionMode = u "bypassPermissions".
Proof.
  pose proof (handle_by_action Session idOf getSessionByToken cancelSessionByToken
                getSessionState sendInput getBubbleByTokenPrefix startSession ctx data) as H.
  destruct (parseClaudeCallback data) as [parsed|] eqn:P;
    [|rewrite H; intros []].
  destruct H as [[_ ->]|[Hact ->]].
  - unfold handleCancel, answer, bind, emit, ret.
    destruct (getSessionByToken (tokenPrefix parsed));
      [destruct (cancelSessionByToken (tokenPrefix parsed));
       [destruct (truthyNum (chatId ctx)); [destruct (truthyNum (messageId ctx))|]|]|];
      cbn [fst app In]; intros Hin;
      repeat (destruct Hin as [Hin|Hin]; [discriminate|]); contradiction.
  - unfold handleContinue, answer, bind, emit, ret.
    destruct (getSessionByToken (tokenPrefix parsed)) as [session|] eqn:S.
    + destruct (sendInput (idOf session) (u "continue"));
        cbn [fst app In]; intros Hin;
        repeat (destruct Hin as [Hin|Hin]; [discriminate|]); contradiction.
    + destruct (getBubbleByTokenPrefix (tokenPrefix parsed)) as [info|] eqn:B;
        [|cbn [fst app In]; intros Hin;
          repeat (destruct Hin as [Hin|Hin]; [discriminate|]); contradiction].
      cbv zeta. intros Hin.
      assert (Hstart : StartSession workingDir resumeToken prompt permissionMode
                       = StartSession (Router.workingDir (Router.bubble info))
                           (Router.resumeToken (Router.bubble info))
                           (u "continue") (u "bypassPermissions")).
      { revert Hin.
        destruct (success (startSession _ _ _ _)).
        - destruct (truthyNum (chatId ctx));
            [destruct (truthyStr (startedSessionId (startSession _ _ _ _)));
             [destruct (truthyStr (startedResumeToken (startSession _ _ _ _)))|]|];
            cbn [fst app In]; intros Hin;
            repeat (destruct Hin as [Hin|Hin]; [try discriminate; symmetry; exact Hin|]);
            contradiction.
        - destruct (truthyNum (chatId ctx));
            cbn [fst app In]; intros Hin;
            repeat (destruct Hin as [Hin|Hin]; [try discriminate; symmetry; exact Hin|]);
            contradiction. }
      injection Hstart as -> -> -> ->.
      exists parsed, info. repeat split; assumption.
Qed.

(** X21.  Each action keeps to its own collaborators.  A [cancel] never
    resumes, writes to or starts a session, creates no bubble and sends
    no message; and it cancels only a session that is live.  A
    [continue] never cancels a session and never edits a message. *)
Theorem actions_keep_to_their_collaborators (ctx : CallbackContext) (data : str)
    (parsed : ClaudeCallbackData) :
  parseClaudeCallback data = Some parsed ->
  (action parsed = u "cancel" ->
   Forall (fun e =>
             match e with
             | AnswerCallbackQuery _ _ _ => True
             | CancelSessionByToken t =>
                 t = tokenPrefix parsed /\ getSessionByToken (tokenPrefix parsed) <> None
             | EditMessageText _ _ _ => cancelSessionByToken (tokenPrefix parsed) = true
             | _ => False
             end) (fst (handleClaudeCodeCallback idOf getSessionByToken cancelSessionByToken
         getSessionState sendInput getBubbleByTokenPrefix startSession ctx data)))
  /\ (action parsed = u "continue" ->
      Forall (fun e =>
                match e with
                | CancelSessionByToken _ | EditMessageText _ _ _ => False
                | ResumeSession sid | SendInput sid _ =>
                    exists session,
                      getSessionByToken (tokenPrefix parsed) = Some session
                      /\ sid = idOf session
                | _ => True
                end) (fst (handleClaudeCodeCallback idOf getSessionByToken cancelSessionByToken
         getSessionState sendInput getBubbleByTokenPrefix startSession ctx data))).
Proof.
  intros P.
  pose proof (handle_by_action Session idOf getSessionByToken cancelSessionByToken
                getSessionState sendInput getBubbleByTokenPrefix startSession ctx data) as H. rewrite P in H.
  split; intros Hact; destruct H as [[Hc H]|[Hc H]];
    try (rewrite Hact in Hc; discriminate); rewrite H.
  - cancel_paths; cbn [fst app]; repeat constructor; try discriminate; assumption.
  - continue_paths session; cbn [fst app]; repeat constructor;
      exists session; split; reflexivity.
Qed.

End Handler.

(** Data with an action the handler does not know is left to others. *)
Lemma handled_iff_parsed_witness :
  handleClaudeCodeCallback (fun _ : unit => u "session-1") (fun _ => None) (fun _ => true)
    (fun _ => mkSessionState (u "my-project") (u "3m")) (fun _ _ => true)
    (fun _ => Some Scenarios.sampleBubble) (fun _ _ _ _ => resumed) sampleCallback
    (u "claude:answer:123e4567")
  = ([], false).
Proof.
  apply (proj2 (handled_iff_parsed unit (fun _ => u "session-1") (fun _ => None)
                  (fun _ => true) (fun _ => mkSessionState (u "my-project") (u "3m"))
                  (fun _ _ => true) (fun _ => Some Scenarios.sampleBubble)
                  (fun _ _ _ _ => resumed) sampleCallback (u "claude:answer:123e4567"))).
  vm_compute. reflexivity.
Defined.

(** A continue for a session that has exited and whose bubble is stored. *)
Lemma handled_callback_is_answered_once_witness :
  exists text alert,
    filter isAnswer
      (fst (handleClaudeCodeCallback (fun _ : unit => u "session-1") (fun _ => None)
              (fun _ => true) (fun _ => mkSessionState (u "my-project") (u "3m"))
              (fun _ _ => true) (fun _ => Some Scenarios.sampleBubble)
              (fun _ _ _ _ => resumed) sampleCallback continueData))
    = [AnswerCallbackQuery (u "query-1") text alert].
Proof.
  apply (handled_callback_is_answered_once unit (fun _ => u "session-1") (fun _ => None)
           (fun _ => true) (fun _ => mkSessionState (u "my-project") (u "3m"))
           (fun _ _ => true) (fun _ => Some Scenarios.sampleBubble)
           (fun _ _ _ _ => resumed) sampleCallback continueData).
  vm_compute. reflexivity.
Defined.

Lemma session_started_only_to_resume_witness :
  exists parsed info,
    parseClaudeCallback continueData = Some parsed
    /\ action parsed = u "continue"
    /\ (fun _ : str => @None unit) (tokenPrefix parsed) = None
    /\ (fun _ : str => Some Scenarios.sampleBubble) (tokenPrefix parsed) = Some info
    /\ u "/work" = Router.workingDir (Router.bubble info)
    /\ RouterSpec.sampleToken = Router.resumeToken (Router.bubble info)
    /\ u "continue" = u "continue"
    /\ u "bypassPermissions" = u "bypassPermissions".
Proof.
  apply (session_started_only_to_resume unit (fun _ => u "session-1") (fun _ => None)
           (fun _ => true) (fun _ => mkSessionState (u "my-project") (u "3m"))
           (fun _ _ => true) (fun _ => Some Scenarios.sampleBubble)
           (fun _ _ _ _ => resumed) sampleCallback continueData
           (u "/work") RouterSpec.sampleToken (u "continue") (u "bypassPermissions")).
  vm_compute. right. left. reflexivity.
Defined.

(** A cancel of a live session: the query is answered, the session is
    cancelled and the card is edited. *)
Lemma actions_keep_to_their_collaborators_witness :
  Forall (fun e =>
            match e with
            | AnswerCallbackQuery _ _ _ => True
            | CancelSessionByToken t => t = u "123e4567" /\ Some tt <> None
            | EditMessageText _ _ _ => true = true
            | _ => False
            end)
    (fst (handleClaudeCodeCallback (fun _ : unit => u "session-1") (fun _ => Some tt)
            (fun _ => true) (fun _ => mkSessionState (u "my-project") (u "3m"))
            (fun _ _ => true) (fun _ => Some Scenarios.sampleBubble)
            (fun _ _ _ _ => resumed) sampleCallback cancelData)).
Proof.
  apply (proj1 (actions_keep_to_their_collaborators unit (fun _ => u "session-1")
                  (fun _ => Some tt) (fun _ => true)
                  (fun _ => mkSessionState (u "my-project") (u "3m"))
                  (fun _ _ => true) (fun _ => Some Scenarios.sampleBubble)
                  (fun _ _ _ _ => resumed) sampleCallback cancelData
                  (mkCallbackData (u "cancel") (u "123e4567")) eq_refl)).
  reflexivity.
Defined.

End HandlerExtras.

(** ** Replies and the message processor *)

Module ReplyFacts.
Import JS Regex Spec Text Planning Router RouterSpec MoreSpec.
Import ParseFacts RouterFacts.

Lemma parse_sound (messageText : option str) (info : ResumeInfo) :
  parseResumeTokenFromMessage messageText = Some info ->
  exists text,
    messageText = Some text /\ text <> []
    /\ List.length (infoResumeToken info) = 36
    /\ forallb isTokenUnit (infoResumeToken info) = true
    /\ includes text (hintPrefix ++ infoResumeToken info) = true.
Proof.
  unfold parseResumeTokenFromMessage.
  destruct messageText as [text|]; [|discriminate].
  destruct text as [|x text]; [discriminate|]. cbn [truthy negb].
  destruct (exec resumeHint (x :: text)) as [mr|] eqn:E; [|discriminate].
  destruct (exec_resumeHint _ _ E) as (token & Hg & Hlen & Hunits & Hinc).
  intros H. injection H as <-. cbn [infoResumeToken]. rewrite Hg. cbn [orUndefined].
  exists (x :: text). split; [reflexivity|]. split; [discriminate|].
  split; [exact Hlen|]. split; [exact Hunits|exact Hinc].
Qed.

Lemma parse_absent (text : str) :
  includes text hintPrefix = false -> parseResumeTokenFromMessage (Some text) = None.
Proof.
  intros H. destruct (parseResumeTokenFromMessage (Some text)) as [info|] eqn:P;
    [|reflexivity].
  exfalso. destruct (parse_sound _ _ P) as (text' & E & _ & _ & _ & Hinc).
  injection E as <-.
  apply FilterFacts.includes_true_indexOf in Hinc. destruct Hinc as [i Hi].
  apply MatchFacts.indexOf_Some in Hi. destruct Hi as (_ & Hs & _).
  rewrite startsWith_split in Hs. apply andb_true_iff in Hs. destruct Hs as [Hs _].
  apply includes_skipn in Hs. rewrite H in Hs. discriminate.
Qed.

Section Reply.

Variables Session Project : Type.
Variable isReplyToBubble : ChatId -> Z -> option BubbleInfo.
Variable getSession : str -> option Session.
Variable sendSessionInput : str -> str -> bool.
Variable resolveProject : str -> option Project.

(** The outcomes of a reply, over all paths. *)
Lemma reply_outcomes (p : Params) :
  match handleBubbleReply isReplyToBubble getSession sendSessionInput resolveProject p with
  | (effects, not_bubble_reply) => effects = []
  | (effects, handled_directly) => existsb isForced effects = false /\ effects <> []
  | (effects, route_to_dydo orchestrationText) =>
      exists init token project,
        effects = (init ++ [SetForcedResumeToken token (chatIdString (chatId p))])%list
        /\ existsb isForced init = false
        /\ orchestrationText = resumeRequest p project token
  end.
Proof.
  unfold handleBubbleReply, bind, emit, ret.
  destruct (isReplyToBubble (chatId p) (replyToMessageId p)) as [info|].
  - cbv zeta. destruct (getSession (sessionId info)).
    + destruct (sendSessionInput (sessionId info) (Router.text p)); cbn [app].
      * split; [reflexivity|discriminate].
      * eexists [_; _], _, _. split; [reflexivity|]. split; reflexivity.
    + cbn [app]. eexists [_], _, _. split; [reflexivity|]. split; reflexivity.
  - destruct (parseResumeTokenFromMessage (originalMessageText p)) as [info|];
      [|reflexivity].
    destruct (resolveProject (infoProjectName info)); cbn [app].
    + eexists [_], _, _. split; [reflexivity|]. split; reflexivity.
    + split; [reflexivity|discriminate].
Qed.

End Reply.

End ReplyFacts.

Module RouterExtras.
Import JS Regex Spec Text Planning Router RouterSpec MoreSpec Scenarios.
Import ParseFacts RouterFacts ReplyFacts.

(** X22.  A resume token that [parseResumeTokenFromMessage] returns
    stands in the text: the text is there and not empty, the token is 36
    units of the class [[a-f0-9-]], and the text holds the resume hint
    followed by the token.  A text without the hint parses to nothing. *)
Theorem parsed_token_stands_in_the_text (messageText : option str) :
  (forall info,
      parseResumeTokenFromMessage messageText = Some info ->
      exists text,
        messageText = Some text /\ text <> []
        /\ List.length (infoResumeToken info) = 36
        /\ forallb isTokenUnit (infoResumeToken info) = true
        /\ includes text (hintPrefix ++ infoResumeToken info) = true)
  /\ (forall text,
        messageText = Some text -> includes text hintPrefix = false ->
        parseResumeTokenFromMessage messageText = None).
Proof.
  split; [apply parse_sound|]. intros text -> H. apply parse_absent. exact H.
Qed.

Lemma parsed_token_stands_in_the_text_witness :
  parseResumeTokenFromMessage (Some (u "no hint in this text")) = None.
Proof.
  apply (proj2 (parsed_token_stands_in_the_text (Some (u "no hint in this text")))
           (u "no hint in this text")).
  - reflexivity.
  - vm_compute. reflexivity.
Defined.

Section Reply.

Variables Session Project : Type.
Variable isReplyToBubble : ChatId -> Z -> option BubbleInfo.
Variable getSession : str -> option Session.
Variable sendSessionInput : str -> str -> bool.
Variable resolveProject : str -> option Project.

(** X23.  A resume token is forced exactly when the reply is routed on.
    On every path of [handleBubbleReply]: the result is [route_to_dydo]
    if and only if a token was forced; the token is then forced once, as
    the last effect, for the chat of the reply, and the orchestration
    text is the resume request that names that very token; and a reply
    that is no bubble reply has no effect at all. *)
Theorem token_forced_iff_routed (p : Params) :
  let result :=
    handleBubbleReply isReplyToBubble getSession sendSessionInput resolveProject p in
  (existsb isForced (fst result) = true <-> exists text, snd result = route_to_dydo text)
  /\ (forall text,
        snd result = route_to_dydo text ->
        exists init token project,
          fst result = (init ++ [SetForcedResumeToken token (chatIdString (chatId p))])%list
          /\ existsb isForced init = false
          /\ text = resumeRequest p project token
          /\ exists pre post,
               text = (pre ++ (u "- resumeToken: " ++ dq ++ token ++ dq) ++ post)%list)
  /\ (snd result = not_bubble_reply -> fst result = []).
Proof.
  cbv zeta.
  pose proof (reply_outcomes Session Project isReplyToBubble getSession sendSessionInput
                resolveProject p) as H.
  destruct (handleBubbleReply isReplyToBubble getSession sendSessionInput resolveProject p)
    as [effects [| |text]]; cbn [fst snd].
  - subst effects. split; [split; [discriminate|intros [t Ht]; discriminate]|].
    split; [discriminate|reflexivity].
  - destruct H as [H _]. rewrite H.
    split; [split; [discriminate|intros [t Ht]; discriminate]|].
    split; discriminate.
  - destruct H as (init & token & project & -> & Hinit & ->).
    split; [split; [intros _; eexists; reflexivity|]|].
    + intros _. rewrite existsb_app, Hinit. reflexivity.
    + split; [|discriminate]. intros text E. injection E as <-.
      exists init, token, project. split; [reflexivity|]. split; [exact Hinit|].
      split; [reflexivity|apply resumeRequest_names_token].
Qed.

(** X24.  The fallback paths.  For a reply whose bubble lookup fails and
    whose original message text parses to a token and a project name:
    when the project cannot be resolved the user is told so, nothing is
    forced and the result is [handled_directly]; otherwise the parsed
    token is forced for the chat and the result is [route_to_dydo] with
    the resume request for the parsed project and token; that token is
    36 units of the token class and stands in the original text behind
    the resume hint.  When the text does not parse either, the reply is
    no bubble reply. *)
Theorem fallback_reply_paths (p : Params) :
  isReplyToBubble (chatId p) (replyToMessageId p) = None ->
  let handle :=
    handleBubbleReply isReplyToBubble getSession sendSessionInput resolveProject in
  (parseResumeTokenFromMessage (originalMessageText p) = None ->
   handle p = ([], not_bubble_reply))
  /\ (forall info,
        parseResumeTokenFromMessage (originalMessageText p) = Some info ->
        let logged :=
          LogDyDoCommand (Router.text p) (infoResumeToken info) (shortOf (Router.text p))
            (infoProjectName info) in
        (resolveProject (infoProjectName info) = None ->
         handle p
         = ([logged;
             SendMessage (chatId p)
               (u "Could not find project: " ++ infoProjectName info)%list
               (truthyNum (threadId p))],
            handled_directly))
        /\ (resolveProject (infoProjectName info) <> None ->
            handle p
            = ([logged;
                SetForcedResumeToken (infoResumeToken info) (chatIdString (chatId p))],
               route_to_dydo
                 (resumeRequest p (infoProjectName info) (infoResumeToken info))))
        /\ exists original,
             originalMessageText p = Some original
             /\ List.length (infoResumeToken info) = 36
             /\ forallb isTokenUnit (infoResumeToken info) = true
             /\ includes original (hintPrefix ++ infoResumeToken info) = true).
Proof.
  intros Hb. cbv zeta. unfold handleBubbleReply, bind, emit, ret. rewrite Hb.
  split.
  - intros ->. reflexivity.
  - intros info Hinfo.
    destruct (parse_sound _ _ Hinfo) as (original & Horiginal & _ & Hlen & Hunits & Hinc).
    rewrite Hinfo. split; [|split].
    + intros ->. reflexivity.
    + intros Hr. destruct (resolveProject (infoProjectName info)); [reflexivity|].
      contradiction Hr. reflexivity.
    + exists original. split; [exact Horiginal|]. split; [exact Hlen|].
      split; [exact Hunits|exact Hinc].
Qed.

End Reply.

(** A reply to a session that has exited is routed on with its token. *)
Lemma token_forced_iff_routed_witness :
  exists init token project,
    fst (handleBubbleReply (fun _ _ => Some sampleBubble) (fun _ => @None unit)
           (fun _ _ => true) (fun _ => @None unit) sampleReply)
    = (init ++ [SetForcedResumeToken token (chatIdString (chatId sampleReply))])%list
    /\ existsb isForced init = false
    /\ resumeRequest sampleReply (u "my-project") sampleToken
       = resumeRequest sampleReply project token
    /\ exists pre post,
         resumeRequest sampleReply (u "my-project") sampleToken
         = (pre ++ (u "- resumeToken: " ++ dq ++ token ++ dq) ++ post)%list.
Proof.
  apply (proj1 (proj2 (token_forced_iff_routed unit unit (fun _ _ => Some sampleBubble)
                         (fun _ => None) (fun _ _ => true) (fun _ => None) sampleReply))).
  reflexivity.
Defined.

(** A reply to a help line of an unknown chat: the project cannot be
    resolved, and the user is told so. *)
Lemma fallback_reply_paths_witness :
  handleBubbleReply (fun _ _ => None) (fun _ => @None unit) (fun _ _ => true)
    (fun _ => @None unit) (withOriginal sampleReply (Some bareHintText))
  = ([LogDyDoCommand (u "run the tests again") sampleToken (u "run the tests again")
        (u "unknown");
      SendMessage (ChatNum 42) (u "Could not find project: unknown") None],
     handled_directly).
Proof.
  destruct (fallback_reply_paths unit unit (fun _ _ => None) (fun _ => None)
              (fun _ _ => true) (fun _ => None)
              (withOriginal sampleReply (Some bareHintText)) eq_refl) as [_ H].
  destruct (H (mkResumeInfo sampleToken (u "unknown"))) as [Hnone _].
  - vm_compute. reflexivity.
  - apply Hnone. reflexivity.
Defined.

End RouterExtras.

Module ProcessorExtras.
Import JS Regex Spec Text Planning Router RouterSpec MoreSpec Scenarios Processor.
Import RouterFacts ReplyFacts.

Section Check.

Variables Session Project : Type.
Variable isReplyToBubble : ChatId -> Z -> option BubbleInfo.
Variable getSession : str -> option Session.
Variable sendSessionInput : str -> str -> bool.
Variable resolveProject : str -> option Project.

(** X25.  Messages that are no text reply skip the bubble check.  A
    message that is absent, replies to nothing or to message id 0, has
    no text or an empty one, or comes without a chat id or with chat id
    0 goes on to the normal processing as it is, and no collaborator of
    the bubble router is touched. *)
Theorem plain_messages_skip_the_bubble_check (primaryCtx : PrimaryContext) :
  match currentMessage primaryCtx with
  | None => True
  | Some m =>
      replyToMessage m = None
      \/ (exists replied, replyToMessage m = Some replied /\ repliedMessageId replied = 0%Z)
      \/ messageText m = None \/ messageText m = Some []
      \/ chat m = None \/ chat m = Some 0%Z
  end ->
  bubbleCheck isReplyToBubble getSession sendSessionInput resolveProject primaryCtx
  = ([], GoesOn (currentMessage primaryCtx)).
Proof.
  unfold bubbleCheck. cbv zeta.
  destruct (currentMessage primaryCtx) as [m|]; [|reflexivity].
  intros [H|[(replied & H & H0)|[H|[H|[H|H]]]]]; rewrite H.
  - reflexivity.
  - destruct (truthyStr (messageText m)); [|reflexivity]. rewrite H0. reflexivity.
  - destruct (replyToMessage m); reflexivity.
  - destruct (replyToMessage m); reflexivity.
  - destruct (replyToMessage m); [|reflexivity].
    destruct (truthyStr (messageText m)); [|reflexivity].
    destruct (Z.eqb (repliedMessageId r) 0); reflexivity.
  - destruct (replyToMessage m); [|reflexivity].
    destruct (truthyStr (messageText m)); [|reflexivity].
    destruct (Z.eqb (repliedMessageId r) 0); reflexivity.
Qed.

(** X26.  What the bubble check hands on.  When the processor returns
    from the bubble check, something was done for the reply and no
    token was forced.  When it goes on, the message is either untouched,
    and then the router had no effect, or only its text was replaced,
    and then the new text is the resume request for a token that was
    forced, as the last effect, for the chat of the message. *)
Theorem bubble_check_outcomes (primaryCtx : PrimaryContext) :
  match bubbleCheck isReplyToBubble getSession sendSessionInput resolveProject primaryCtx with
  | (effects, Returns) => effects <> [] /\ existsb isForced effects = false
  | (effects, GoesOn msg) =>
      (msg = currentMessage primaryCtx /\ effects = [])
      \/ exists m chatId init token pre post,
           currentMessage primaryCtx = Some m
           /\ chat m = Some chatId
           /\ effects = (init ++ [SetForcedResumeToken token (ofZ chatId)])%list
           /\ existsb isForced init = false
           /\ msg = Some (withText m (pre ++ (u "- resumeToken: " ++ dq ++ token ++ dq)
                                      ++ post)%list)
  end.
Proof.
  unfold bubbleCheck. cbv zeta.
  destruct (currentMessage primaryCtx) as [m|]; [|left; split; reflexivity].
  destruct (replyToMessage m) as [replied|]; [|left; split; reflexivity].
  destruct (truthyStr (messageText m)) as [text|]; [|left; split; reflexivity].
  destruct (Z.eqb (repliedMessageId replied) 0); [left; split; reflexivity|].
  destruct (chat m) as [chatId|] eqn:C; [|left; split; reflexivity].
  cbn [truthyNum]. destruct (Z.eqb chatId 0); [left; split; reflexivity|].
  pose proof (reply_outcomes Session Project isReplyToBubble getSession sendSessionInput
                resolveProject
                (Router.mkParams (ChatNum chatId) (repliedMessageId replied) text
                   (messageThreadId m) (repliedText replied))) as H.
  unfold bind.
  destruct (handleBubbleReply isReplyToBubble getSession sendSessionInput resolveProject
              (Router.mkParams (ChatNum chatId) (repliedMessageId replied) text
                 (messageThreadId m) (repliedText replied)))
    as [effects [| |orchestrationText]]; cbn [ret]; rewrite app_nil_r.
  - left. split; [reflexivity|exact H].
  - destruct H as [H1 H2]. split; assumption.
  - destruct H as (init & token & project & -> & Hinit & ->).
    destruct (resumeRequest_names_token
                (Router.mkParams (ChatNum chatId) (repliedMessageId replied) text
                   (messageThreadId m) (repliedText replied)) project token)
      as (pre & post & E).
    right. exists m, chatId, init, token, pre, post.
    split; [reflexivity|]. split; [exact C|]. split; [reflexivity|].
    split; [exact Hinit|]. rewrite E. reflexivity.
Qed.

End Check.

(** A message that replies to nothing. *)
Lemma plain_messages_skip_the_bubble_check_witness :
  bubbleCheck (fun _ _ => Some sampleBubble) (fun _ => @None unit) (fun _ _ => true)
    (fun _ => @None unit)
    (inContext (mkMessage (Some 42%Z) (Some (u "hello")) None None))
  = ([], GoesOn (Some (mkMessage (Some 42%Z) (Some (u "hello")) None None))).
Proof.
  apply (plain_messages_skip_the_bubble_check unit unit (fun _ _ => Some sampleBubble)
           (fun _ => None) (fun _ _ => true) (fun _ => None)
           (inContext (mkMessage (Some 42%Z) (Some (u "hello")) None None))).
  left. reflexivity.
Defined.

End ProcessorExtras.

(** ** Table rows and quoted tasks *)

Module QuoteFacts.
Import JS Text Planning.

Lemma escapeQuotes_cons (c : N) (t : str) :
  escapeQuotes (c :: t)
  = ((if N.eqb c 34 then [92; 34]%N else [c]) ++ escapeQuotes t)%list.
Proof. reflexivity. Qed.

Lemma escapeQuotes_guarded :
  forall s pre post,
    escapeQuotes s = (pre ++ 34%N :: post)%list -> exists pre', pre = (pre' ++ [92%N])%list.
Proof.
  induction s as [|c t IH]; intros pre post H.
  - destruct pre; discriminate.
  - rewrite escapeQuotes_cons in H. destruct (N.eqb c 34) eqn:E.
    + destruct pre as [|x [|y pre]]; cbn [app] in H.
      * discriminate.
      * injection H as <- _. exists []. reflexivity.
      * injection H as <- <- H. destruct (IH _ _ H) as [pre' ->].
        exists (92%N :: 34%N :: pre'). reflexivity.
    + destruct pre as [|x pre]; cbn [app] in H.
      * injection H as -> _. discriminate.
      * injection H as <- H. destruct (IH _ _ H) as [pre' ->].
        exists (c :: pre'). reflexivity.
Qed.

Lemma escapeQuotes_plain (s : str) : ~ In 34%N s -> escapeQuotes s = s.
Proof.
  induction s as [|c t IH]; intros H; [reflexivity|].
  rewrite escapeQuotes_cons.
  destruct (N.eqb c 34) eqn:E.
  - apply N.eqb_eq in E. exfalso. apply H. left. exact E.
  - cbn [app]. rewrite IH; [reflexivity|]. intros Hin. apply H. right. exact Hin.
Qed.

End QuoteFacts.

Module FilterExtras.
Import JS Regex Spec Types Detector MoreSpec Scenarios Text Planning.
Import DetectorFacts ShrinkFacts QuoteFacts RouterFacts.

(** X27.  A message of table rows is never a blocker.  When the text
    holds no fenced block and every line of it is table-like (it starts
    with a bar once trimmed, or holds a separator row), nothing of it is
    left to scan and [detectBlocker] returns nothing, whatever patterns
    the rows hold and whether or not the session has ended. *)
Theorem table_rows_are_never_blockers (text : str) (sessionEnded : bool) :
  test codeFence text = false ->
  Forall (fun line => keepLine line = false) (splitOn newline text) ->
  preFilter text = [] /\ detectBlocker text sessionEnded = None.
Proof.
  intros Hf Hl.
  assert (Hp : preFilter text = []).
  { unfold preFilter. cbv zeta. rewrite (replaceAll_absent codeFence [] text Hf).
    induction Hl as [|l ls Hk _ IH]; [reflexivity|].
    cbn [filter]. rewrite Hk. exact IH. }
  split; [exact Hp|].
  destruct (Nat.ltb (List.length text) 20) eqn:L.
  - apply detectBlocker_short. apply Nat.ltb_lt. exact L.
  - apply Nat.ltb_ge in L. rewrite detectBlocker_unfold by exact L. cbv zeta.
    rewrite Hp. reflexivity.
Qed.

(** Two rows that ask for funds. *)
Lemma table_rows_are_never_blockers_witness :
  detectBlocker
    (u "| need more sol |" ++ [newline] ++ u "| please fund the wallet |")%list true
  = None.
Proof.
  apply (table_rows_are_never_blockers
           (u "| need more sol |" ++ [newline] ++ u "| please fund the wallet |")%list true).
  - vm_compute. reflexivity.
  - vm_compute. repeat constructor.
Defined.

(** X28.  The task quoted in a start request has its double quotes
    escaped: the request holds the line [originalTask] with the escaped
    task between quotes; in the escaped task every double quote stands
    behind a backslash; and a task without double quotes is quoted as it
    is.  Backslashes of the task are not escaped. *)
Theorem task_quotes_are_escaped (params : PlanningRequestParams) (task : str) :
  truthyStr (Planning.task params) = Some task ->
  (exists pre post,
     buildFullPlanningRequest params
     = (pre ++ (u "  originalTask: " ++ dq ++ escapeQuotes task ++ dq ++ u ",") ++ post)%list)
  /\ (forall pre post,
        escapeQuotes task = (pre ++ 34%N :: post)%list ->
        exists pre', pre = (pre' ++ [92%N])%list)
  /\ (~ In 34%N task -> escapeQuotes task = task).
Proof.
  intros Ht. split; [|split; [apply escapeQuotes_guarded|apply escapeQuotes_plain]].
  unfold buildFullPlanningRequest. rewrite Ht. unfold lines. apply join_In.
  apply in_or_app. right. apply in_or_app. right.
  apply in_or_app. left. right. left. reflexivity.
Qed.

Lemma task_quotes_are_escaped_witness :
  exists pre post,
    buildFullPlanningRequest
      (Planning.mkParams Start (u "my-project") (Some (u "say " ++ dq ++ u "hi" ++ dq)%list)
         None None None None)
    = (pre ++ (u "  originalTask: " ++ dq ++ escapeQuotes (u "say " ++ dq ++ u "hi" ++ dq)
               ++ dq ++ u ",") ++ post)%list.
Proof.
  apply (task_quotes_are_escaped
           (Planning.mkParams Start (u "my-project")
              (Some (u "say " ++ dq ++ u "hi" ++ dq)%list) None None None None)
           (u "say " ++ dq ++ u "hi" ++ dq)%list).
  reflexivity.
Defined.

End FilterExtras.
